(** * Honeywell Lyric thermostat app: a shallow embedding and its properties

    The development follows the JavaScript sources:
    - [HoneywellUtils]        lib/HoneywellUtils.js (unit conversion),
    - [HoneywellOAuth2Client] the OAuth2 client (response interpretation,
                              rate-limit detection, token refresh),
    - [HoneywellLyricClient]  the API client (thermostat write composition),
    - [HoneywellLyricDevice]  lib/HoneywellLyricDevice.js (poll, parse, write
                              entry point).

    JavaScript values are modelled by the inductive [value]; a JavaScript
    number is an IEEE 754 binary64 float, which is Rocq's primitive [float];
    a string is a [string], the bytes of its UTF-8 encoding.  Code that
    throws returns [Throw]; code that mutates [this] threads a state.
    What the sources take from homey-oauth2app, the Homey platform or the
    engine ([fetch], [JSON.parse], the base classes) is a section
    variable. *)

From Stdlib Require Import ZArith String Ascii List Bool.
From Stdlib Require Import Floats.PrimFloat.
From stdpp Require Import base strings gmap pretty.

Set Warnings "-register-all,-inexact-float".

Local Open Scope string_scope.
Local Open Scope list_scope.

(** ** JavaScript values *)

Inductive value : Type :=
| JUndefined
| JNull
| JBool (b : bool)
| JNum (f : float)
| JStr (s : string)
| JObj (props : list (string * value))
| JArr (items : list value).

(** What a [throw] carries.  [TypeError] is raised by the engine itself
    (property access on [null]/[undefined], call of a non-function),
    [SyntaxError] by [JSON.parse]. *)
Inductive exn : Type :=
| TypeError
| SyntaxError
| Error (msg : string)
| OAuth2Error (msg : string).

Inductive res (A : Type) : Type :=
| Ok (a : A)
| Throw (e : exn).
Arguments Ok {A} a.
Arguments Throw {A} e.

Definition res_bind {A B} (r : res A) (k : A -> res B) : res B :=
  match r with
  | Ok a => k a
  | Throw e => Throw e
  end.

Module JS.

(** [typeof v] *)
Definition typeof (v : value) : string :=
  match v with
  | JUndefined => "undefined"
  | JNull => "object"
  | JBool _ => "boolean"
  | JNum _ => "number"
  | JStr _ => "string"
  | JObj _ => "object"
  | JArr _ => "object"
  end.

(** A number is falsy when it is [+0], [-0] or [NaN]. *)
Definition num_truthy (f : float) : bool :=
  negb (PrimFloat.eqb f 0%float) && PrimFloat.eqb f f.

(** [ToBoolean], the test behind [!v], [a || b], [a && b] and [if (v)]. *)
Definition ToBoolean (v : value) : bool :=
  match v with
  | JUndefined => false
  | JNull => false
  | JBool b => b
  | JNum f => num_truthy f
  | JStr s => negb (String.eqb s "")
  | JObj _ => true
  | JArr _ => true
  end.

(** [a || b] on values whose evaluation has no effect. *)
Definition or (a b : value) : value := if ToBoolean a then a else b.

(** [v === s] and [v !== s] for a string [s]. *)
Definition strict_eq_str (v : value) (s : string) : bool :=
  match v with
  | JStr s' => String.eqb s' s
  | _ => false
  end.

(** Decimal digits of an array index, most significant first. *)
Definition digit_of (c : ascii) : option nat :=
  let n := nat_of_ascii c in
  if (48 <=? n)%nat && (n <=? 57)%nat then Some (n - 48)%nat else None.

Fixpoint digits_value (acc : nat) (s : string) : option nat :=
  match s with
  | EmptyString => Some acc
  | String c s' =>
      match digit_of c with
      | Some d => digits_value (10 * acc + d) s'
      | None => None
      end
  end.

(** The index a property key denotes on a string or an array: the
    canonical decimal spelling of a natural number. *)
Definition array_index (k : string) : option nat :=
  match k with
  | EmptyString => None
  | String "0" EmptyString => Some 0%nat
  | String "0" _ => None
  | _ => digits_value 0 k
  end.

Definition assoc (k : string) (props : list (string * value)) : option value :=
  snd <$> List.find (fun p => String.eqb (fst p) k) props.

(** [Object.prototype.hasOwnProperty.call(v, k)]: [ToObject] throws on
    [undefined] and [null]; a string or an array owns [length] and its
    indices; a number or a boolean wrapper owns nothing. *)
Definition hasOwn (v : value) (k : string) : res bool :=
  match v with
  | JUndefined | JNull => Throw TypeError
  | JBool _ | JNum _ => Ok false
  | JStr s =>
      Ok (String.eqb k "length" ||
          match array_index k with
          | Some i => (i <? String.length s)%nat
          | None => false
          end)
  | JArr l =>
      Ok (String.eqb k "length" ||
          match array_index k with
          | Some i => (i <? List.length l)%nat
          | None => false
          end)
  | JObj props =>
    Ok match assoc k props with
       | Some _ => true
       | None => false
       end
  end.

(** [undefined] and [null] have no properties: reading one throws. *)
Definition nullish (v : value) : bool :=
  match v with
  | JUndefined | JNull => true
  | _ => false
  end.

(** The value of the property [k] of a value that is not nullish, for
    the names this program reads: each is a data property of the vendor's
    or the platform's objects, none is [length], an index or a member of
    a built-in prototype.  It is the own property of an object, and
    [undefined] when that is missing or the value is not an object. *)
Definition prop (v : value) (k : string) : value :=
  match v with
  | JObj props => default JUndefined (assoc k props)
  | _ => JUndefined
  end.

(** [v.k] *)
Definition get (v : value) (k : string) : res value :=
  if nullish v then Throw TypeError else Ok (prop v k).

(** [obj.k = x] on an object: replaces the property or appends it. *)
Fixpoint set_prop (k : string) (x : value) (props : list (string * value))
  : list (string * value) :=
  match props with
  | [] => [(k, x)]
  | (k', y) :: rest =>
      if String.eqb k' k then (k, x) :: rest else (k', y) :: set_prop k x rest
  end.

(** [s.includes(needle)] on strings: [needle] occurs in [s]. *)
Fixpoint str_includes (needle s : string) : bool :=
  String.prefix needle s ||
  match s with
  | EmptyString => false
  | String _ s' => str_includes needle s'
  end.

(** [v.includes(needle)] for a string [needle].  The method exists on
    strings (substring search) and on arrays (element search with
    SameValueZero); on anything else the call throws. *)
Definition includes (v : value) (needle : string) : res bool :=
  match v with
  | JStr s => Ok (str_includes needle s)
  | JArr l => Ok (existsb (fun x => strict_eq_str x needle) l)
  | _ => Throw TypeError
  end.

Definition lower_ascii (c : ascii) : ascii :=
  let n := nat_of_ascii c in
  if (65 <=? n)%nat && (n <=? 90)%nat then ascii_of_nat (n + 32) else c.

Fixpoint lower (s : string) : string :=
  match s with
  | EmptyString => EmptyString
  | String c s' => String (lower_ascii c) (lower s')
  end.

(** A string all of whose characters are ASCII. *)
Definition is_ascii (s : string) : bool :=
  forallb (fun c => (nat_of_ascii c <? 128)%nat) (list_ascii_of_string s).

(** [s.toLowerCase()] on a string.  On an ASCII string this folds [A-Z],
    which is [lower]; on any other string it is Unicode's lower-case
    mapping of the engine, [lower_unicode]. *)
Definition lower_string (lower_unicode : string -> string) (s : string) : string :=
  if is_ascii s then lower s else lower_unicode s.

(** [v.toLowerCase()]: only strings have the method. *)
Definition toLowerCase (lower_unicode : string -> string) (v : value) : res string :=
  match v with
  | JStr s => Ok (lower_string lower_unicode s)
  | _ => Throw TypeError
  end.

End JS.

(** ** lib/HoneywellUtils.js *)

Module HoneywellUtils.

(** [function ftoc(f) { return (f - 32) / 1.8; }] on the binary64 numbers
    the program computes with. *)
Definition ftoc (f : float) : float := ((f - 32) / 1.8)%float.

(** [function ctof(c) { return (c * 1.8) + 32; }] *)
Definition ctof (c : float) : float := ((c * 1.8) + 32)%float.

End HoneywellUtils.

(** ** Effects: a state and exception monad

    A method of a class runs on the object's state [S]; it either returns
    or throws, and what it did to the state before throwing stays done. *)

Definition M (S A : Type) : Type := S -> res A * S.

Definition ret {S A} (a : A) : M S A := fun s => (Ok a, s).

Definition throw {S A} (e : exn) : M S A := fun s => (Throw e, s).

Definition bind {S A B} (m : M S A) (k : A -> M S B) : M S B :=
  fun s =>
    match m s with
    | (Ok a, s') => k a s'
    | (Throw e, s') => (Throw e, s')
    end.

(** A pure computation that may throw, run inside a method. *)
Definition lift {S A} (r : res A) : M S A := fun s => (r, s).

(** [try { m } catch (err) { h err }] *)
Definition try_catch {S A} (m : M S A) (h : exn -> M S A) : M S A :=
  fun s =>
    match m s with
    | (Ok a, s') => (Ok a, s')
    | (Throw e, s') => h e s'
    end.

Declare Scope js_scope.
Delimit Scope js_scope with js.
Notation "x <- m ;; k" := (bind m (fun x => k))
  (at level 100, m at next level, right associativity) : js_scope.
Notation "m ;;; k" := (bind m (fun _ => k))
  (at level 100, right associativity) : js_scope.
Local Open Scope js_scope.

(** ** The OAuth2 client: response interpretation, rate limit, refresh *)

(** A request to the token endpoint, as passed to [fetch]. *)
Record request : Type := {
  req_url : string;
  req_method : string;
  req_body : list (string * string);
  req_headers : list (string * string)
}.

(** What the client does that others can observe, oldest first. *)
Inductive client_event : Type :=
| CError (msg : string)
| CDebug (msg : string)
| CEmit (name : string)
| CSuperNotOK (body : value)
| CFetch (rq : request).

(** The response as [onHandleResponse] receives it: [response.text()],
    [status], [statusText], [headers.get] and [ok]. *)
Record raw_response : Type := {
  response_text : string;
  status : Z;
  statusText : string;
  headers_get : string -> option string;
  ok : bool
}.

Record client (Token : Type) : Type := {
  _token : option Token;
  saved : option Token;
  events : list client_event
}.
Arguments _token {Token} c.
Arguments saved {Token} c.
Arguments events {Token} c.

Definition quota_violation : string := "Rate limit quota violation.".

Section HoneywellOAuth2Client.

(** The token class of homey-oauth2app, through the two members the
    client uses. *)
Variable Token : Type.
Variable isRefreshable : Token -> bool.
Variable refresh_token : Token -> string.

(** [Homey.env.HONEYWELL_API_CLIENT_ID] and [..._SECRET]. *)
Variable API_KEY : string.
Variable API_SECRET : string.

(** [Buffer.from(s).toString('base64')] *)
Variable base64 : string -> string.

(** [JSON.parse]; [None] when it throws a [SyntaxError]. *)
Variable JSON_parse : string -> option value.

(** The base class's [onHandleNotOK]: [Some e] when it returns an
    [Error], [None] when it returns anything else. *)
Variable super_onHandleNotOK : value -> Z -> string -> option exn.

(** The network: what [fetch] answers to a request ([Throw] when the
    promise rejects), and the base class's reading of a refresh answer. *)
Variable tokenUrl : string.
Variable fetch : request -> res raw_response.
Variable onHandleRefreshTokenResponse : raw_response -> res Token.

Local Abbreviation client := (client Token).
Local Abbreviation CM := (M client).

Definition record (e : client_event) : CM unit :=
  fun c => (Ok tt, {| _token := _token c; saved := saved c;
                      events := events c ++ [e] |}).

(** [getToken()] of the base class *)
Definition getToken : CM (option Token) := fun c => (Ok (_token c), c).

Definition set_token (t : Token) : CM unit :=
  fun c => (Ok tt, {| _token := Some t; saved := saved c; events := events c |}).

(** [save()] of the base class: the session manager stores the client's
    current token. *)
Definition save : CM unit :=
  fun c => (Ok tt, {| _token := _token c; saved := _token c; events := events c |}).

(** [_detectRateLimit(body = {})] *)
Definition _detectRateLimit (body0 : value) : CM bool :=
  let body := match body0 with JUndefined => JObj [] | _ => body0 end in
  has_fault <- lift (JS.hasOwn body "fault") ;;
  if has_fault then
    record (CError "_detectRateLimit() -> API error:") ;;;
    fault <- lift (JS.get body "fault") ;;
    has_fs <- lift (JS.hasOwn fault "faultstring") ;;
    if has_fs then
      fs <- lift (JS.get fault "faultstring") ;;
      inc <- lift (JS.includes fs quota_violation) ;;
      if inc then
        record (CEmit "rateLimited") ;;;
        ret true
      else ret false
    else ret false
  else ret false.

(** [onHandleNotOK({ body, status, statusText, headers })]: the detector
    first, then the base class's classification. *)
Definition onHandleNotOK (body : value) (st : Z) (stText : string)
  : CM (option exn) :=
  _detectRateLimit body ;;;
  record (CSuperNotOK body) ;;;
  ret (super_onHandleNotOK body st stText).

(** The body as [onHandleResponse] decodes it: the text, parsed when the
    content type is a string starting with [application/json], where an
    empty text stands for [{}]. *)
Definition decode_body (contentType : option string) (text : string) : res value :=
  match contentType with
  | Some ct =>
      if String.prefix "application/json" ct then
        if (String.length text =? 0)%nat then Ok (JObj [])
        else match JSON_parse text with
             | Some v => Ok v
             | None => Throw SyntaxError
             end
      else Ok (JStr text)
  | None => Ok (JStr text)
  end.

(** [onHandleResponse({ response, status, statusText, headers, ok })] *)
Definition onHandleResponse (r : raw_response) : CM value :=
  if (status r =? 204)%Z then ret JUndefined
  else
    let contentType := headers_get r "Content-Type" in
    body <- lift (decode_body contentType (response_text r)) ;;
    if ok r then ret body
    else
      err <- onHandleNotOK body (status r) (statusText r) ;;
      match err with
      | None =>
          throw (OAuth2Error
                   "Invalid onHandleNotOK return value, expected: instanceof Error")
      | Some e => throw e
      end.

Definition basic_authorization : string :=
  "Basic " ++ base64 (API_KEY ++ ":" ++ API_SECRET).

Definition refresh_request (t : Token) : request :=
  {| req_url := tokenUrl;
     req_method := "POST";
     req_body := [("grant_type", "refresh_token");
                  ("refresh_token", refresh_token t)];
     req_headers := [("Authorization", basic_authorization)] |}.

(** [onRefreshToken()] *)
Definition onRefreshToken : CM (option Token) :=
  token <- getToken ;;
  match token with
  | None => throw (OAuth2Error "Missing Token")
  | Some t =>
      record (CDebug "Refreshing token...") ;;;
      if negb (isRefreshable t) then throw (OAuth2Error "Token cannot be refreshed")
      else
        let rq := refresh_request t in
        record (CFetch rq) ;;;
        response <- lift (fetch rq) ;;
        if negb (ok response) then
          throw (Error ("Invalid Response (" ++ pretty (status response) ++ ")"))
        else
          t' <- lift (onHandleRefreshTokenResponse response) ;;
          set_token t' ;;;
          record (CDebug "Refreshed token!") ;;;
          save ;;;
          getToken
  end.

End HoneywellOAuth2Client.

(** ** Number coercion *)

Section Coercion.

(** ECMAScript's [ToNumber] on strings, objects and arrays (its string
    grammar and [ToPrimitive]); it may throw on an object. *)
Variable ToNumber_coerce : value -> res float.

(** [ToNumber], as applied by [-] and [*] to their operands *)
Definition ToNumber (v : value) : res float :=
  match v with
  | JUndefined => Ok nan
  | JNull => Ok 0%float
  | JBool b => Ok (if b then 1%float else 0%float)
  | JNum f => Ok f
  | JStr _ | JObj _ | JArr _ => ToNumber_coerce v
  end.

(** [ftoc(v)] and [ctof(v)] on a JavaScript value. *)
Definition ftoc_value (v : value) : res value :=
  res_bind (ToNumber v) (fun f => Ok (JNum (HoneywellUtils.ftoc f))).

Definition ctof_value (v : value) : res value :=
  res_bind (ToNumber v) (fun c => Ok (JNum (HoneywellUtils.ctof c))).

End Coercion.

(** ** The API client (extends the OAuth2 client) *)

(** The argument object of [setThermostat] and [_sendThermostatData]. *)
Record thermostat_args : Type := {
  arg_locationId : value;
  arg_deviceId : value;
  arg_mode : value;
  arg_heatSetpoint : value;
  arg_coolSetpoint : value;
  arg_thermostatSetpointStatus : value
}.

(** The [json] object that [_sendThermostatData] posts.  The first four
    properties are always set (possibly to [undefined]); the last two only
    by the assignments that follow, [None] standing for "never assigned". *)
Record write_command : Type := {
  json_mode : value;
  json_heatSetpoint : value;
  json_coolSetpoint : value;
  json_thermostatSetpointStatus : value;
  json_autoChangeoverActive : option value;
  json_nextPeriodTime : option value
}.

(** [a || b] where [b] is only evaluated when [a] is falsy. *)
Definition or_else (a : value) (b : res value) : res value :=
  if JS.ToBoolean a then Ok a else b.

Definition as_string (v : value) : string :=
  match v with
  | JStr s => s
  | _ => ""
  end.

Definition is_string (v : value) : bool := String.eqb (JS.typeof v) "string".
Definition is_number (v : value) : bool := String.eqb (JS.typeof v) "number".
Definition is_boolean (v : value) : bool := String.eqb (JS.typeof v) "boolean".

Section HoneywellLyricClient.

Variable API_KEY : string.

(** The authenticated transport of the base class: [this.get({ path })]
    and [this.post({ path, json })], each answering with the interpreted
    body or throwing. *)
Variable api_get : string -> res value.
Variable api_post : string -> write_command -> res value.

Definition thermostat_path (deviceId locationId : string) : string :=
  "/v2/devices/thermostats/" ++ deviceId ++ "?locationId=" ++ locationId
    ++ "&apikey=" ++ API_KEY.

Definition fan_path (deviceId locationId : string) : string :=
  "/v2/devices/thermostats/" ++ deviceId ++ "/fan?locationId=" ++ locationId
    ++ "&apikey=" ++ API_KEY.

(** [getDevice({ locationId, deviceId })] *)
Definition getDevice (locationId deviceId : value) : res value :=
  if negb (is_string deviceId) then Throw (Error "invalid_device_id")
  else if negb (is_string locationId) then Throw (Error "invalid_location_id")
  else api_get (thermostat_path (as_string deviceId) (as_string locationId)).

(** [getFan({ locationId, deviceId })] *)
Definition getFan (locationId deviceId : value) : res value :=
  if negb (is_string deviceId) then Throw (Error "invalid_device_id")
  else if negb (is_string locationId) then Throw (Error "invalid_location_id")
  else api_get (fan_path (as_string deviceId) (as_string locationId)).

(** [_getDeviceData({ locationId, deviceId })] *)
Definition _getDeviceData (locationId deviceId : value) : res value :=
  res_bind (getDevice locationId deviceId) (fun deviceData =>
  if negb (JS.ToBoolean deviceData) then Throw (Error "invalid_device_properties")
  else
    res_bind (JS.hasOwn deviceData "deviceID") (fun has_id =>
    if negb has_id then Throw (Error "invalid_device_properties")
    else
      res_bind (JS.hasOwn deviceData "changeableValues") (fun has_cv =>
      if negb has_cv then Throw (Error "invalid_device_properties")
      else Ok deviceData))).

(** [deviceData.changeableValues.k] *)
Definition changeable (deviceData : value) (k : string) : res value :=
  res_bind (JS.get deviceData "changeableValues") (fun cv => JS.get cv k).

(** The object literal that opens [_sendThermostatData]: each property is
    the argument, or the snapshot's value when the argument is falsy. *)
Definition merged_json (a : thermostat_args) (deviceData : value) : res write_command :=
  res_bind (or_else (arg_mode a) (changeable deviceData "mode")) (fun m =>
  res_bind (or_else (arg_heatSetpoint a) (changeable deviceData "heatSetpoint")) (fun h =>
  res_bind (or_else (arg_coolSetpoint a) (changeable deviceData "coolSetpoint")) (fun c =>
  res_bind (or_else (arg_thermostatSetpointStatus a)
                    (changeable deviceData "thermostatSetpointStatus")) (fun st =>
  Ok {| json_mode := m; json_heatSetpoint := h; json_coolSetpoint := c;
        json_thermostatSetpointStatus := st;
        json_autoChangeoverActive := None; json_nextPeriodTime := None |})))).

(** [if (typeof ...autoChangeoverActive === 'boolean') json.autoChangeoverActive = ...] *)
Definition copy_autoChangeover (deviceData : value) (json : write_command)
  : res write_command :=
  res_bind (changeable deviceData "autoChangeoverActive") (fun aca =>
  if is_boolean aca then
    Ok {| json_mode := json_mode json; json_heatSetpoint := json_heatSetpoint json;
          json_coolSetpoint := json_coolSetpoint json;
          json_thermostatSetpointStatus := json_thermostatSetpointStatus json;
          json_autoChangeoverActive := Some aca;
          json_nextPeriodTime := json_nextPeriodTime json |}
  else Ok json).

(** The [HoldUntil] block: attach the snapshot's [nextPeriodTime] when it
    is a string, otherwise turn the status into [PermanentHold]. *)
Definition hold_policy (deviceData : value) (json : write_command)
  : res write_command :=
  if JS.strict_eq_str (json_thermostatSetpointStatus json) "HoldUntil" then
    res_bind (changeable deviceData "nextPeriodTime") (fun npt =>
    if is_string npt then
      Ok {| json_mode := json_mode json; json_heatSetpoint := json_heatSetpoint json;
            json_coolSetpoint := json_coolSetpoint json;
            json_thermostatSetpointStatus := json_thermostatSetpointStatus json;
            json_autoChangeoverActive := json_autoChangeoverActive json;
            json_nextPeriodTime := Some npt |}
    else
      Ok {| json_mode := json_mode json; json_heatSetpoint := json_heatSetpoint json;
            json_coolSetpoint := json_coolSetpoint json;
            json_thermostatSetpointStatus := JStr "PermanentHold";
            json_autoChangeoverActive := json_autoChangeoverActive json;
            json_nextPeriodTime := json_nextPeriodTime json |})
  else Ok json.

(** The [json] that [_sendThermostatData] builds from its arguments and
    the device data it has just fetched. *)
Definition thermostat_json (a : thermostat_args) (deviceData : value)
  : res write_command :=
  res_bind (merged_json a deviceData) (fun json =>
  res_bind (copy_autoChangeover deviceData json) (fun json =>
  hold_policy deviceData json)).

(** [_sendThermostatData({ locationId, deviceId, mode, ... })] *)
Definition _sendThermostatData (a : thermostat_args) : res value :=
  res_bind (_getDeviceData (arg_locationId a) (arg_deviceId a)) (fun deviceData =>
  res_bind (thermostat_json a deviceData) (fun json =>
  api_post (thermostat_path (as_string (arg_deviceId a))
                            (as_string (arg_locationId a))) json)).

(** [setThermostat({ locationId, deviceId, heatSetpoint, ... })] *)
Definition setThermostat (a : thermostat_args) : res value :=
  if negb (is_string (arg_deviceId a)) then Throw (Error "invalid_device_id")
  else if negb (is_string (arg_locationId a)) then Throw (Error "invalid_location_id")
  else _sendThermostatData a.

(** [resumeSchedule({ locationId, deviceId })] *)
Definition resumeSchedule (locationId deviceId : value) : res value :=
  if negb (is_string deviceId) then Throw (Error "invalid_device_id")
  else if negb (is_string locationId) then Throw (Error "invalid_location_id")
  else _sendThermostatData
         {| arg_locationId := locationId; arg_deviceId := deviceId;
            arg_mode := JUndefined; arg_heatSetpoint := JUndefined;
            arg_coolSetpoint := JUndefined;
            arg_thermostatSetpointStatus := JStr "NoHold" |}.

End HoneywellLyricClient.

(** ** lib/HoneywellLyricDevice.js *)

Definition UNIT_CELSIUS : string := "Celsius".

(** What the device does that the platform or a user can observe, oldest
    first: log lines, Flow triggers and availability calls. *)
Inductive device_event : Type :=
| DLog (msg : string)
| DError (msg : string)
| DTrigger (card : string) (thermostat_mode : value)
| DSetAvailable
| DSetUnavailable (reason : string).

(** The part of the Homey device object the methods touch.  The
    capability set is fixed at pairing; capability values, settings and
    store are the platform's key-value stores; [available] is what
    [getAvailable()] answers. *)
Record device : Type := {
  capabilities : gset string;
  capabilityValues : gmap string value;
  settings : gmap string value;
  store : gmap string value;
  data_id : value;
  available : bool;
  journal : list device_event
}.

Definition with_capabilityValues (f : gmap string value -> gmap string value)
  (d : device) : device :=
  {| capabilities := capabilities d; capabilityValues := f (capabilityValues d);
     settings := settings d; store := store d; data_id := data_id d;
     available := available d; journal := journal d |}.

Definition with_settings (f : gmap string value -> gmap string value)
  (d : device) : device :=
  {| capabilities := capabilities d; capabilityValues := capabilityValues d;
     settings := f (settings d); store := store d; data_id := data_id d;
     available := available d; journal := journal d |}.

Definition with_available (b : bool) (d : device) : device :=
  {| capabilities := capabilities d; capabilityValues := capabilityValues d;
     settings := settings d; store := store d; data_id := data_id d;
     available := b; journal := journal d |}.

Definition with_event (e : device_event) (d : device) : device :=
  {| capabilities := capabilities d; capabilityValues := capabilityValues d;
     settings := settings d; store := store d; data_id := data_id d;
     available := available d; journal := journal d ++ [e] |}.

Abbreviation DM := (M device).

(** The platform's device API.  A key never written reads [null]. *)
Definition hasCapability (c : string) : DM bool :=
  fun d => (Ok (bool_decide (c ∈ capabilities d)), d).

Definition getCapabilityValue (c : string) : DM value :=
  fun d => (Ok (default JNull (capabilityValues d !! c)), d).

Definition setCapabilityValue (c : string) (v : value) : DM unit :=
  fun d => (Ok tt, with_capabilityValues (insert c v) d).

Definition getSetting (k : string) : DM value :=
  fun d => (Ok (default JNull (settings d !! k)), d).

Definition setSettings (k : string) (v : value) : DM unit :=
  fun d => (Ok tt, with_settings (insert k v) d).

Definition getStoreValue (k : string) : DM value :=
  fun d => (Ok (default JNull (store d !! k)), d).

Definition getAvailable : DM bool := fun d => (Ok (available d), d).

Definition setAvailable : DM unit :=
  fun d => (Ok tt, with_event DSetAvailable (with_available true d)).

Definition setUnavailable (reason : string) : DM unit :=
  fun d => (Ok tt, with_event (DSetUnavailable reason) (with_available false d)).

Definition emit (e : device_event) : DM unit := fun d => (Ok tt, with_event e d).

(** How a [try] block of [_fetchDeviceData] ends: by falling through, or
    by the [return] that leaves the whole method. *)
Inductive completion : Type := Normal | Return.

(** A parameter default [deviceData = {}] *)
Definition default_object (v : value) : value :=
  match v with
  | JUndefined => JObj []
  | _ => v
  end.

(** [deviceData.k = x]; the receiver is an object wherever the program
    assigns. *)
Definition assign (v : value) (k : string) (x : value) : value :=
  match v with
  | JObj props => JObj (JS.set_prop k x props)
  | _ => v
  end.

Section HoneywellLyricDevice.

Variable ToNumber_coerce : value -> res float.
Variable API_KEY : string.
Variable api_get : string -> res value.
Variable api_post : string -> write_command -> res value.

(** The engine's lower-case mapping of strings that are not ASCII. *)
Variable lower_unicode : string -> string.

(** [onRateLimited()] *)
Definition onRateLimited : DM unit :=
  emit (DLog "onRateLimited()") ;;;
  setUnavailable "rateLimited".

(** [getLocationId()] *)
Definition getLocationId : DM value :=
  locationId <- getStoreValue "locationId" ;;
  if negb (is_string locationId) then throw (Error "invalid_location_id_in_store")
  else ret locationId.

(** [_transformTemperature(temperature)] *)
Definition _transformTemperature (temperature : value) : DM value :=
  units <- getSetting "units" ;;
  if is_string units && negb (JS.strict_eq_str units UNIT_CELSIUS) then
    lift (ctof_value ToNumber_coerce temperature)
  else ret temperature.

(** The argument object that [onMultipleCapabilities] hands to
    [setThermostat]. *)
Definition setThermostat_args (capabilityValues : value) : DM thermostat_args :=
  heatSetpoint <- getCapabilityValue "target_temperature" ;;
  has_cool <- hasCapability "target_temperature.cool" ;;
  coolSetpoint <- (if has_cool then getCapabilityValue "target_temperature.cool"
                   else ret heatSetpoint) ;;
  new_heat <- lift (JS.get capabilityValues "target_temperature") ;;
  heat_status <-
    (if is_number new_heat then
       t <- _transformTemperature new_heat ;; ret (t, JStr "HoldUntil")
     else ret (heatSetpoint, JStr "PermanentHold")) ;;
  let '(heatSetpoint, status) := heat_status in
  new_cool <- (if has_cool then lift (JS.get capabilityValues "target_temperature.cool")
               else ret JUndefined) ;;
  cool_status <-
    (if has_cool && is_number new_cool then
       t <- _transformTemperature new_cool ;; ret (t, JStr "HoldUntil")
     else ret (coolSetpoint, status)) ;;
  let '(coolSetpoint, status) := cool_status in
  has_mode <- hasCapability "custom_thermostat_mode" ;;
  thermostat_mode <- (if has_mode
                      then lift (JS.get capabilityValues "custom_thermostat_mode")
                      else ret JUndefined) ;;
  mode <-
    (if has_mode && is_string thermostat_mode then
       let newMode := JS.or thermostat_mode (JStr "heat") in
       emit (DTrigger "thermostat_mode_changed" newMode) ;;;
       ret (if JS.strict_eq_str newMode "heat" then JStr "Heat" else JStr "Off")
     else ret JUndefined) ;;
  has_ac <- hasCapability "custom_ac_mode" ;;
  ac_mode <- (if has_ac then lift (JS.get capabilityValues "custom_ac_mode")
              else ret JUndefined) ;;
  let mode := if has_ac && is_string ac_mode then ac_mode else mode in
  locationId <- getLocationId ;;
  deviceId <- (fun d => (Ok (data_id d), d)) ;;
  ret {| arg_locationId := locationId; arg_deviceId := deviceId;
         arg_mode := mode; arg_heatSetpoint := heatSetpoint;
         arg_coolSetpoint := coolSetpoint;
         arg_thermostatSetpointStatus := status |}.

(** [onMultipleCapabilities(capabilityValues, opts)] *)
Definition onMultipleCapabilities (capabilityValues : value) : DM value :=
  a <- setThermostat_args capabilityValues ;;
  lift (setThermostat API_KEY api_get api_post a).

(** [_parseMeasuredTemperature(deviceData = {})]; answers the device data
    as the method leaves it, since it overwrites [indoorTemperature]. *)
Definition _parseMeasuredTemperature (deviceData0 : value) : DM value :=
  let deviceData := default_object deviceData0 in
  has_units <- lift (JS.hasOwn deviceData "units") ;;
  if negb has_units then
    emit (DError "_parseMeasuredTemperature() -> expected device to have units property") ;;;
    ret deviceData
  else
    units <- lift (JS.get deviceData "units") ;;
    deviceData <-
      (if negb (JS.strict_eq_str units UNIT_CELSIUS) then
         indoor <- lift (JS.get deviceData "indoorTemperature") ;;
         celsius <- lift (ftoc_value ToNumber_coerce indoor) ;;
         ret (assign deviceData "indoorTemperature" celsius)
       else ret deviceData) ;;
    setSettings "units" units ;;;
    indoor <- lift (JS.get deviceData "indoorTemperature") ;;
    setCapabilityValue "measure_temperature" indoor ;;;
    ret deviceData.

(** [_parseTargetTemperature(deviceData = {})] *)
Definition _parseTargetTemperature (deviceData0 : value) : DM unit :=
  let deviceData := default_object deviceData0 in
  cv <- lift (JS.get deviceData "changeableValues") ;;
  has_mode <- lift (JS.hasOwn cv "mode") ;;
  if negb has_mode then
    emit (DError "_parseTargetTemperature() -> expected device.changeableValues to have mode property")
  else
    has_heat <- lift (JS.hasOwn cv "heatSetpoint") ;;
    if negb has_heat then
      emit (DError "_parseTargetTemperature() -> expected device.changeableValues to have heatSetpoint property")
    else
      has_cool <- lift (JS.hasOwn cv "coolSetpoint") ;;
      if negb has_cool then
        emit (DError "_parseTargetTemperature() -> expected device.changeableValues to have coolSetpoint property")
      else
        heat <- lift (JS.get cv "heatSetpoint") ;;
        setCapabilityValue "target_temperature" heat ;;;
        cap_cool <- hasCapability "target_temperature.cool" ;;
        if cap_cool then
          cool <- lift (JS.get cv "coolSetpoint") ;;
          setCapabilityValue "target_temperature.cool" cool
        else ret tt.

(** [_parseThermostatMode(deviceData = {})] *)
Definition _parseThermostatMode (deviceData0 : value) : DM unit :=
  let deviceData := default_object deviceData0 in
  cv <- lift (JS.get deviceData "changeableValues") ;;
  has_mode <- lift (JS.hasOwn cv "mode") ;;
  if negb has_mode then
    emit (DError "_parseThermostatMode() -> expected device.changeableValues to have mode property")
  else
    raw <- lift (JS.get cv "mode") ;;
    mode <- lift (JS.toLowerCase lower_unicode raw) ;;
    current <- getCapabilityValue "custom_thermostat_mode" ;;
    (if negb (JS.strict_eq_str current mode) then
       emit (DTrigger "thermostat_mode_changed" (JStr mode))
     else ret tt) ;;;
    setCapabilityValue "custom_thermostat_mode" (JStr mode).

(** [_parseACMode(deviceData = {})] *)
Definition _parseACMode (deviceData0 : value) : DM unit :=
  let deviceData := default_object deviceData0 in
  cv <- lift (JS.get deviceData "changeableValues") ;;
  has_mode <- lift (JS.hasOwn cv "mode") ;;
  if negb has_mode then
    emit (DError "_parseACMode() -> expected device.changeableValues to have mode property")
  else
    mode <- lift (JS.get cv "mode") ;;
    setCapabilityValue "custom_ac_mode" mode.

(** [_parseAlive(deviceData = {})]: the missing property is reported, and
    the method goes on. *)
Definition _parseAlive (deviceData0 : value) : DM unit :=
  let deviceData := default_object deviceData0 in
  has_alive <- lift (JS.hasOwn deviceData "isAlive") ;;
  (if negb has_alive then
     emit (DError "_parseAlive() -> expected device to have isAlive property")
   else ret tt) ;;;
  isAlive <- lift (JS.get deviceData "isAlive") ;;
  av <- getAvailable ;;
  (if negb av && JS.ToBoolean isAlive then setAvailable else ret tt) ;;;
  av <- getAvailable ;;
  (if av && negb (JS.ToBoolean isAlive) then setUnavailable "unavailable" else ret tt).

(** [_parseFanMode(deviceData)] *)
Definition _parseFanMode (deviceData : value) : DM unit :=
  has_mode <- lift (JS.hasOwn deviceData "mode") ;;
  if negb has_mode then
    emit (DError "_parseThermostatMode() -> expected device to have mode property")
  else
    mode <- lift (JS.get deviceData "mode") ;;
    setCapabilityValue "fan_mode" mode.

(** The parse steps of one cycle, in the order [_fetchDeviceData] runs
    them once the device data has [changeableValues]: the measured
    temperature, then the later steps. *)
Definition later_steps (deviceData : value) : DM unit :=
  _parseTargetTemperature deviceData ;;;
  has_mode <- hasCapability "custom_thermostat_mode" ;;
  (if has_mode then _parseThermostatMode deviceData else ret tt) ;;;
  has_ac <- hasCapability "custom_ac_mode" ;;
  (if has_ac then _parseACMode deviceData else ret tt) ;;;
  _parseAlive deviceData.

Definition parse_steps (deviceData : value) : DM unit :=
  deviceData <- _parseMeasuredTemperature deviceData ;;
  later_steps deviceData.

(** The first [try] block of [_fetchDeviceData]. *)
Definition fetch_thermostat : DM completion :=
  try_catch
    (locationId <- getLocationId ;;
     deviceId <- (fun d => (Ok (data_id d), d)) ;;
     deviceData <- lift (getDevice API_KEY api_get locationId deviceId) ;;
     has_cv <- lift (JS.hasOwn deviceData "changeableValues") ;;
     if negb has_cv then
       emit (DError "_fetchDeviceData() -> expected device to have changeableValues property") ;;;
       ret Return
     else
       parse_steps deviceData ;;;
       emit (DLog "_fetchDeviceData() -> completed") ;;;
       ret Normal)
    (fun err =>
       emit (DError "_fetchDeviceData() -> failed to get device") ;;;
       ret Normal).

(** The second [try] block of [_fetchDeviceData]. *)
Definition fetch_fan : DM unit :=
  try_catch
    (locationId <- getLocationId ;;
     deviceId <- (fun d => (Ok (data_id d), d)) ;;
     deviceData <- lift (getFan API_KEY api_get locationId deviceId) ;;
     _parseFanMode deviceData ;;;
     emit (DLog "_fetchFanData() -> completed"))
    (fun err => emit (DError "_fetchFanData() -> failed to get fan")).

(** [_fetchDeviceData()] *)
Definition _fetchDeviceData : DM unit :=
  emit (DLog "_fetchDeviceData()") ;;;
  c <- fetch_thermostat ;;
  match c with
  | Return => ret tt
  | Normal =>
      has_fan <- hasCapability "fan_mode" ;;
      if has_fan then fetch_fan else ret tt
  end.

End HoneywellLyricDevice.

(** ** Reading the models: shapes and observations *)

(** The vendor's fault body [{ fault: { faultstring: fs } }]. *)
Definition fault_body (fs : value) : value :=
  JObj [("fault", JObj [("faultstring", fs)])].

(** Follows the spec's rate-limit signature: the body has a [fault] field
    whose [faultstring] field contains the quota-violation literal, where
    "contains" is what the [includes] method answers. *)
Definition has_quota_fault (body : value) : bool :=
  match body with
  | JObj props =>
      match JS.assoc "fault" props with
      | Some (JObj fprops) =>
          match JS.assoc "faultstring" fprops with
          | Some fs =>
              match JS.includes fs quota_violation with
              | Ok b => b
              | Throw _ => false
              end
          | None => false
          end
      | _ => false
      end
  | _ => false
  end.

(** The events a client recorded after the state [c]. *)
Definition events_since {Token} (c c' : client Token) : list client_event :=
  drop (length (events c)) (events c').

Definition record_event {Token} (e : client_event) (c : client Token) : client Token :=
  {| _token := _token c; saved := saved c; events := events c ++ [e] |}.

(** The [Content-Type] test of [onHandleResponse]. *)
Definition json_content_type (r : raw_response) : bool :=
  match headers_get r "Content-Type" with
  | Some ct => String.prefix "application/json" ct
  | None => false
  end.


(** The snapshot's [changeableValues]. *)
Definition changeableValues (deviceData : value) : value :=
  JS.prop deviceData "changeableValues".

(** The partial write that supplies nothing. *)
Definition empty_partial (locationId deviceId : value) : thermostat_args :=
  {| arg_locationId := locationId; arg_deviceId := deviceId;
     arg_mode := JUndefined; arg_heatSetpoint := JUndefined;
     arg_coolSetpoint := JUndefined;
     arg_thermostatSetpointStatus := JUndefined |}.

(** The events a device recorded after the state [d]. *)
Definition journal_since (d d' : device) : list device_event :=
  drop (length (journal d)) (journal d').

Definition is_transition (e : device_event) : bool :=
  match e with
  | DSetAvailable | DSetUnavailable _ => true
  | _ => false
  end.

(** The availability transitions among some events. *)
Definition transitions (evs : list device_event) : list device_event :=
  List.filter is_transition evs.

(** The unit setting as [getSetting('units')] reads it. *)
Definition units_setting (d : device) : value :=
  default JNull (settings d !! "units").

(** What [_transformTemperature] does to a number under a unit setting. *)
Definition to_device_unit (units : value) (t : float) : float :=
  if is_string units && negb (JS.strict_eq_str units UNIT_CELSIUS)
  then HoneywellUtils.ctof t else t.

(** [d'] differs from [d] at most in the values of the capabilities
    [keys], in availability and in the journal. *)
Definition frame (keys : list string) (d d' : device) : Prop :=
  capabilities d' = capabilities d /\
  settings d' = settings d /\
  store d' = store d /\
  data_id d' = data_id d /\
  forall k, k ∉ keys -> capabilityValues d' !! k = capabilityValues d !! k.

(** A method that touches at most the capabilities [keys], whatever it
    returns or throws. *)
Definition touches {A} (keys : list string) (m : DM A) : Prop :=
  forall d, frame keys d (snd (m d)).

(** The events of an aliveness step: the complaint about a missing
    [isAlive], then the transition, if any. *)
Definition alive_events (has_alive was_available alive : bool) : list device_event :=
  (if has_alive then []
   else [DError "_parseAlive() -> expected device to have isAlive property"])
  ++ (match was_available, alive with
      | false, true => [DSetAvailable]
      | true, false => [DSetUnavailable "unavailable"]
      | _, _ => []
      end).

(** ** Sample data: the spec's scenarios *)

Definition sample_changeableValues : list (string * value) :=
  [("mode", JStr "Heat"); ("heatSetpoint", JNum 20%float);
   ("coolSetpoint", JNum 25%float);
   ("thermostatSetpointStatus", JStr "NoHold")].

(** A snapshot whose [changeableValues] has no [nextPeriodTime]. *)
Definition snapshot_without_period : value :=
  JObj [("deviceID", JStr "LCC-00D02DB6B4A8");
        ("changeableValues", JObj sample_changeableValues)].

(** The same snapshot with a string [nextPeriodTime] and a boolean
    [autoChangeoverActive]. *)
Definition snapshot_with_period : value :=
  JObj [("deviceID", JStr "LCC-00D02DB6B4A8");
        ("changeableValues",
         JObj (sample_changeableValues
                 ++ [("nextPeriodTime", JStr "18:00:00");
                     ("autoChangeoverActive", JBool false)]))].

(** The partial write [{ heatSetpoint: 21 }] with the requested status
    [HoldUntil]. *)
Definition heat_21_hold_until : thermostat_args :=
  {| arg_locationId := JStr "199754"; arg_deviceId := JStr "LCC-00D02DB6B4A8";
     arg_mode := JUndefined; arg_heatSetpoint := JNum 21%float;
     arg_coolSetpoint := JUndefined;
     arg_thermostatSetpointStatus := JStr "HoldUntil" |}.

(** A paired thermostat: available, 19 degrees measured, unit Celsius. *)
Definition sample_device : device :=
  {| capabilities := {["measure_temperature"; "target_temperature"]};
     capabilityValues := {["measure_temperature" := JNum 19%float]};
     settings := {["units" := JStr "Celsius"]};
     store := {["locationId" := JStr "199754"]};
     data_id := JStr "LCC-00D02DB6B4A8";
     available := true;
     journal := [] |}.

(** A payload without [changeableValues]. *)
Definition payload_without_changeableValues : value :=
  JObj [("units", JStr "Celsius"); ("indoorTemperature", JNum 21.5%float);
        ("isAlive", JBool false)].




(** A payload in Fahrenheit without [changeableValues], and one whose
    [changeableValues] has both setpoints but no [mode]. *)
Definition payload_fahrenheit_without_changeableValues : value :=
  JObj [("units", JStr "Fahrenheit"); ("indoorTemperature", JNum 68%float);
        ("isAlive", JBool true)].

Definition payload_without_mode : value :=
  JObj [("units", JStr "Celsius"); ("indoorTemperature", JNum 21.5%float);
        ("isAlive", JBool true);
        ("changeableValues",
         JObj [("heatSetpoint", JNum 22%float); ("coolSetpoint", JNum 26%float)])].

(** A complete payload in Fahrenheit. *)
Definition payload_fahrenheit : value :=
  JObj [("units", JStr "Fahrenheit"); ("indoorTemperature", JNum 32%float);
        ("isAlive", JBool true);
        ("changeableValues", JObj sample_changeableValues)].

(** For the samples no string or object is ever coerced to a number. *)
Definition no_coercion (v : value) : res float := Ok nan.

(** For the samples no mode has a character outside ASCII. *)
Definition no_unicode (s : string) : string := s.

(** The same thermostat set to Fahrenheit. *)
Definition sample_device_fahrenheit : device :=
  with_settings (insert "units" (JStr "Fahrenheit")) sample_device.

(** The capability listener's argument for a new target temperature. *)
Definition set_target_21 : value := JObj [("target_temperature", JNum 21%float)].

(** A target of zero degrees, and a cool setpoint of 26. *)
Definition set_target_0 : value := JObj [("target_temperature", JNum 0%float)].

Definition set_cool_26 : value := JObj [("target_temperature.cool", JNum 26%float)].

(** Sample responses of the vendor API. *)
Definition json_headers (name : string) : option string :=
  if String.eqb name "Content-Type" then Some "application/json;charset=UTF-8"
  else None.

Definition response_204 : raw_response :=
  {| response_text := ""; status := 204; statusText := "No Content";
     headers_get := fun _ => None; ok := true |}.

Definition response_200_empty : raw_response :=
  {| response_text := ""; status := 200; statusText := "OK";
     headers_get := json_headers; ok := true |}.

Definition quoted (s : string) : string :=
  String (ascii_of_nat 34) s +:+ String (ascii_of_nat 34) EmptyString.

Definition quota_text : string :=
  "{" +:+ quoted "fault" +:+ ":{" +:+ quoted "faultstring" +:+ ":"
      +:+ quoted "Rate limit quota violation. Quota limit exceeded." +:+ "}}".

Definition response_500_quota : raw_response :=
  {| response_text := quota_text; status := 500;
     statusText := "Internal Server Error";
     headers_get := json_headers; ok := false |}.

(** Responses whose text is not JSON, and one whose text is the JSON
    [null], all declared as JSON. *)
Definition response_200_unparsable : raw_response :=
  {| response_text := "<html>"; status := 200; statusText := "OK";
     headers_get := json_headers; ok := true |}.

Definition response_500_unparsable : raw_response :=
  {| response_text := "<html>"; status := 500;
     statusText := "Internal Server Error";
     headers_get := json_headers; ok := false |}.

Definition response_500_null : raw_response :=
  {| response_text := "null"; status := 500;
     statusText := "Internal Server Error";
     headers_get := json_headers; ok := false |}.

(** A parser that knows the literal [null]. *)
Definition literal_parse (text : string) : option value :=
  if String.eqb text "null" then Some JNull else None.

(** A parser that knows the one text of the samples. *)
Definition sample_parse (text : string) : option value :=
  if String.eqb text quota_text
  then Some (fault_body (JStr "Rate limit quota violation. Quota limit exceeded."))
  else None.

(** The base class's classification: an error named after the status. *)
Definition sample_classify (body : value) (st : Z) (stText : string) : option exn :=
  Some (Error stText).

(** A sample token: its refresh token, empty when it has none. *)
Definition sample_token : Type := string.
Definition sample_isRefreshable (t : sample_token) : bool := negb (String.eqb t "").
Definition sample_refresh_token (t : sample_token) : string := t.

Definition sample_client : client sample_token :=
  {| _token := Some "refresh-1"; saved := Some "refresh-1"; events := [] |}.

Definition response_200_token : raw_response :=
  {| response_text := "token"; status := 200; statusText := "OK";
     headers_get := json_headers; ok := true |}.

(** ** More of the OAuth2 client and of the API client *)

Section TokenByCode.

Variable Token : Type.
Variable API_KEY : string.
Variable API_SECRET : string.
Variable base64 : string -> string.
Variable tokenUrl : string.
Variable fetch : request -> res raw_response.

(** [res.json()], and [new OAuth2Token(body)] of homey-oauth2app. *)
Variable res_json : raw_response -> res value.
Variable new_OAuth2Token : value -> Token.

Definition code_request (code : string) : request :=
  {| req_url := tokenUrl;
     req_method := "POST";
     req_body := [("grant_type", "authorization_code");
                  ("redirect_uri", "https://callback.athom.com/oauth2/callback/");
                  ("code", code)];
     req_headers := [("Authorization", basic_authorization API_KEY API_SECRET base64)] |}.

(** [onGetTokenByCode({ code })] *)
Definition onGetTokenByCode (code : string) : M (client Token) Token :=
  let rq := code_request code in
  record Token (CFetch rq) ;;;
  response <- lift (fetch rq) ;;
  body <- lift (res_json response) ;;
  ret (new_OAuth2Token body).

End TokenByCode.

Section FanAndLocations.

Variable API_KEY : string.
Variable api_get : string -> res value.

(** [this.post({ path, json: { mode } })] of the fan endpoint. *)
Variable api_post_fan : string -> value -> res value.

(** [String(v)] and template interpolation on numbers, objects and
    arrays; it may throw on an object. *)
Variable ToString_coerce : value -> res string.

(** [ToString] *)
Definition ToString (v : value) : res string :=
  match v with
  | JUndefined => Ok "undefined"
  | JNull => Ok "null"
  | JBool b => Ok (if b then "true" else "false")
  | JStr s => Ok s
  | JNum _ | JObj _ | JArr _ => ToString_coerce v
  end.

(** [getLocations()] *)
Definition getLocations : res value :=
  api_get ("/v2/locations?apikey=" ++ API_KEY).

(** [setFanMode({ locationId, deviceId, mode })] of the client: the ids
    are interpolated into the path unchecked. *)
Definition client_setFanMode (locationId deviceId mode : value) : res value :=
  res_bind (ToString deviceId) (fun dev =>
  res_bind (ToString locationId) (fun loc =>
  api_post_fan (fan_path API_KEY dev loc) (JObj [("mode", mode)]))).

End FanAndLocations.

(** ** More of lib/HoneywellLyricDevice.js *)

Definition with_store (f : gmap string value -> gmap string value)
  (d : device) : device :=
  {| capabilities := capabilities d; capabilityValues := capabilityValues d;
     settings := settings d; store := f (store d); data_id := data_id d;
     available := available d; journal := journal d |}.

Definition setStoreValue (k : string) (v : value) : DM unit :=
  fun d => (Ok tt, with_store (insert k v) d).

(** What [onOAuth2Migrate] returns. *)
Record migration : Type := {
  sessionId : string;
  configId : string;
  access_token : value;
  refresh_token_value : value
}.

Section DeviceMigration.

Variable ToString_coerce : value -> res string.

(** [OAuth2Util.getRandomId()] and [this.driver.getOAuth2ConfigId()] *)
Variable randomId : string.
Variable oAuth2ConfigId : string.

(** [_migrateLocationIdFromSettingsToStore()] *)
Definition _migrateLocationIdFromSettingsToStore : DM unit :=
  location <- getSetting "location" ;;
  has_id <- (if JS.ToBoolean location then lift (JS.hasOwn location "id")
             else ret false) ;;
  if JS.ToBoolean location && has_id then
    id <- lift (JS.get location "id") ;;
    locationId <- lift (ToString ToString_coerce id) ;;
    setStoreValue "locationId" (JStr locationId) ;;;
    setSettings "location" JNull ;;;
    emit (DLog "_migrateLocationIdFromSettingsToStore() -> migration of locationId from settings to store succeeded")
  else ret tt.

(** [onOAuth2Migrate()] *)
Definition onOAuth2Migrate : DM migration :=
  emit (DLog "onOAuth2Migrate()") ;;;
  settingAccessToken <- getSetting "atoken" ;;
  settingRefreshToken <- getSetting "rtoken" ;;
  if negb (JS.ToBoolean settingAccessToken) then
    throw (Error "Missing access token in settings")
  else if negb (JS.ToBoolean settingRefreshToken) then
    throw (Error "Missing refresh token in settings")
  else
    emit (DLog "onOAuth2Migrate() -> migration succeeded") ;;;
    ret {| sessionId := randomId; configId := oAuth2ConfigId;
           access_token := settingAccessToken;
           refresh_token_value := settingRefreshToken |}.

(** [onOAuth2MigrateSuccess()]: [setSettings({ atoken: null, rtoken: null })] *)
Definition onOAuth2MigrateSuccess : DM unit :=
  setSettings "atoken" JNull ;;;
  setSettings "rtoken" JNull.

End DeviceMigration.

Section DeviceWrites.

Variable API_KEY : string.
Variable api_get : string -> res value.
Variable api_post : string -> write_command -> res value.
Variable api_post_fan : string -> value -> res value.
Variable ToString_coerce : value -> res string.

(** [onFanCapability(value)] *)
Definition onFanCapability (v : value) : DM value :=
  locationId <- getLocationId ;;
  deviceId <- (fun d => (Ok (data_id d), d)) ;;
  lift (client_setFanMode API_KEY api_post_fan ToString_coerce locationId deviceId v).

(** [setResumeSchedule()] *)
Definition setResumeSchedule : DM value :=
  emit (DLog "resumeSchedule()") ;;;
  locationId <- getLocationId ;;
  deviceId <- (fun d => (Ok (data_id d), d)) ;;
  lift (resumeSchedule API_KEY api_get api_post locationId deviceId).

End DeviceWrites.

(** ** lib/HoneywellLyricDriver.js and the thermostat driver *)

(** The length of an array or a string as a number. *)
Fixpoint float_of_nat (n : nat) : float :=
  match n with
  | O => 0%float
  | S n' => PrimFloat.add (float_of_nat n') 1%float
  end.

(** [v.length] on a value that is not nullish. *)
Definition get_length (v : value) : value :=
  match v with
  | JArr l => JNum (float_of_nat (List.length l))
  | JStr s => JNum (float_of_nat (String.length s))
  | _ => JS.prop v "length"
  end.

(** [Array.isArray(v)] *)
Definition isArray (v : value) : bool :=
  match v with
  | JArr _ => true
  | _ => false
  end.

(** The object a driver hands to the pairing view for one device. *)
Record paired_device : Type := {
  pd_name : value;
  pd_data_id : value;
  pd_locationId : string;
  pd_deviceSettings : value;
  pd_capabilities : list string;
  pd_capabilitiesOptions : list (string * value);
  pd_icon : option string
}.

Definition title (en nl de : string) : value :=
  JObj [("title", JObj [("en", JStr en); ("nl", JStr nl); ("de", JStr de)])].

Definition with_range (options : value) (min max : value) : value :=
  assign (assign (assign options "min" min) "max" max) "step" (JNum 0.5%float).

Section HoneywellLyricDriver.

Variable ToNumber_coerce : value -> res float.
Variable ToString_coerce : value -> res string.

(** [v.length > 0] *)
Definition length_positive (v : value) : res bool :=
  res_bind (ToNumber ToNumber_coerce (get_length v)) (fun n =>
  Ok (PrimFloat.ltb 0%float n)).

(** [v && v.length > 0] as a condition *)
Definition non_empty (v : value) : res bool :=
  if JS.ToBoolean v then length_positive v else Ok false.

(** The heating part of [_getDevice]: capabilities and options pushed
    when [allowedModes] includes [Heat]. *)
Definition heat_capabilities (device allowedModes : value)
  : res (list string * list (string * value)) :=
  res_bind (JS.includes allowedModes "Heat") (fun heat =>
  if heat then
    let options := title "Heating setpoint" "Verwarmingsinstelpunt" "Heizungssollwert" in
    let options :=
      if JS.ToBoolean (JS.prop device "minHeatSetpoint")
         && JS.ToBoolean (JS.prop device "maxHeatSetpoint")
      then with_range options (JS.prop device "minHeatSetpoint")
                      (JS.prop device "maxHeatSetpoint")
      else options in
    res_bind (JS.includes allowedModes "Cool") (fun cool =>
    Ok ("target_temperature"
          :: (if negb cool then ["custom_thermostat_mode"] else []),
        [("target_temperature", options)]))
  else Ok ([], [])).

(** The cooling part of [_getDevice]. *)
Definition cool_capabilities (device allowedModes : value)
  : res (list string * list (string * value)) :=
  res_bind (JS.includes allowedModes "Cool") (fun cool =>
  if cool then
    let options := title "Cooling setpoint" "Koelinstelpunt" "Kühlsollwert" in
    let options :=
      if JS.ToBoolean (JS.prop device "minCoolSetpoint")
         && JS.ToBoolean (JS.prop device "maxCoolSetpoint")
      then with_range options (JS.prop device "minCoolSetpoint")
                      (JS.prop device "maxCoolSetpoint")
      else options in
    Ok (["target_temperature.cool"; "custom_ac_mode"],
        [("target_temperature.cool", options)])
  else Ok ([], [])).

(** [device.settings.fan && device.settings.fan.allowedModes
     && device.settings.fan.allowedModes.length > 0] *)
Definition has_fan (device : value) : res bool :=
  res_bind (JS.get (JS.prop device "settings") "fan") (fun fan =>
  if JS.ToBoolean fan then non_empty (JS.prop fan "allowedModes")
  else Ok false).

(** [_getDevice({ device, location })] *)
Definition _getDevice (device location : value) : res paired_device :=
  res_bind (JS.get device "userDefinedDeviceName") (fun name =>
  res_bind (JS.get location "locationID") (fun locationID =>
  res_bind (ToString ToString_coerce locationID) (fun locationId =>
  let allowedModes := JS.prop device "allowedModes" in
  res_bind (non_empty allowedModes) (fun modes =>
  res_bind (if modes then heat_capabilities device allowedModes else Ok ([], []))
    (fun heat =>
  res_bind (if modes then cool_capabilities device allowedModes else Ok ([], []))
    (fun cool =>
  res_bind (has_fan device) (fun fan =>
  Ok {| pd_name := name;
        pd_data_id := JS.prop device "deviceID";
        pd_locationId := locationId;
        pd_deviceSettings := JS.prop device "settings";
        pd_capabilities :=
          "measure_temperature" :: fst heat ++ fst cool
            ++ (if fan then ["fan_mode"] else []);
        pd_capabilitiesOptions := snd heat ++ snd cool;
        pd_icon := None |}))))))).

(** [arr.forEach(f)] for an [f] that may throw: only arrays have it. *)
Fixpoint each {A} (f : value -> res (list A)) (items : list value) : res (list A) :=
  match items with
  | [] => Ok []
  | x :: rest =>
      res_bind (f x) (fun ys =>
      res_bind (each f rest) (fun zs => Ok (ys ++ zs)))
  end.

Definition forEach {A} (f : value -> res (list A)) (v : value) : res (list A) :=
  match v with
  | JArr items => each f items
  | _ => Throw TypeError
  end.

(** [onPairListDevices({ oAuth2Client })] of the base driver, on what
    [getLocations()] answered. *)
Definition onPairListDevices (locations : res value) : res (list paired_device) :=
  res_bind locations (fun locations =>
  if negb (isArray locations) then Throw (Error "Expected locations of type Array")
  else
    forEach (fun location =>
      res_bind (JS.get location "devices") (fun devices =>
      forEach (fun device =>
        res_bind (_getDevice device location) (fun newDevice => Ok [newDevice]))
        devices))
      locations).

Definition with_icon (icon : string) (p : paired_device) : paired_device :=
  {| pd_name := pd_name p; pd_data_id := pd_data_id p;
     pd_locationId := pd_locationId p; pd_deviceSettings := pd_deviceSettings p;
     pd_capabilities := pd_capabilities p;
     pd_capabilitiesOptions := pd_capabilitiesOptions p;
     pd_icon := Some icon |}.

(** [onPairListDevices] of the thermostat driver, which marks the T9 and
    T10 models with their icon. *)
Definition thermostat_onPairListDevices (locations : res value)
  : res (list paired_device) :=
  res_bind locations (fun locations =>
  if negb (isArray locations) then Throw (Error "Expected locations of type Array")
  else
    forEach (fun location =>
      res_bind (JS.get location "devices") (fun devices =>
      forEach (fun device =>
        res_bind (_getDevice device location) (fun newDevice =>
        res_bind (JS.get device "deviceModel") (fun model =>
        res_bind (JS.includes model "T9-T10") (fun t9 =>
        Ok [if t9 then with_icon "/t9_icon.svg" newDevice else newDevice]))))
        devices))
      locations).

End HoneywellLyricDriver.

(** ** Reading the models: more observations *)

(** The bodies on which the rate-limit detector itself fails: [null], an
    own [fault] that is [null] or [undefined], or an own [faultstring]
    that is neither a string nor an array. *)
Definition detection_fails (body : value) : bool :=
  match body with
  | JNull => true
  | JObj props =>
      match JS.assoc "fault" props with
      | Some (JObj fprops) =>
          match JS.assoc "faultstring" fprops with
          | Some (JStr _) | Some (JArr _) | None => false
          | Some _ => true
          end
      | Some fault => JS.nullish fault
      | None => false
      end
  | _ => false
  end.

(** What [onHandleResponse] throws for what [onHandleNotOK] returned. *)
Definition thrown (err : option exn) : exn :=
  match err with
  | Some e => e
  | None => OAuth2Error "Invalid onHandleNotOK return value, expected: instanceof Error"
  end.


(** A setpoint of the write request: the supplied number in the unit of
    the device, or the fallback when no number is supplied. *)
Definition converted_or (units v fallback : value) : value :=
  match v with
  | JNum t => JNum (to_device_unit units t)
  | _ => fallback
  end.

(** The mode of the write request: the AC mode as given, else [Heat] for
    the thermostat mode [heat] (or the empty string) and [Off] for any
    other, else nothing. *)
Definition requested_mode (has_thermostat_mode has_ac_mode : bool)
    (thermostat_mode ac_mode : value) : value :=
  if has_ac_mode && is_string ac_mode then ac_mode
  else if has_thermostat_mode && is_string thermostat_mode then
    if JS.strict_eq_str (JS.or thermostat_mode (JStr "heat")) "heat"
    then JStr "Heat" else JStr "Off"
  else JUndefined.

Definition is_trigger (e : device_event) : bool :=
  match e with
  | DTrigger _ _ => true
  | _ => false
  end.

(** The Flow triggers among some events. *)
Definition triggers (evs : list device_event) : list device_event :=
  List.filter is_trigger evs.


(** ** Reading the models: relations between device states *)

(** A method under which every state is related to the state it leaves. *)
Definition preserves {A} (R : device -> device -> Prop) (m : DM A) : Prop :=
  forall d, R d (snd (m d)).

(** The two capabilities the parse steps write without asking whether
    the device has them. *)
Definition always_written : list string :=
  ["measure_temperature"; "target_temperature"].

(** [d'] has the capability set, the store and the id of [d], and the
    capability values of [d] except for [always_written], for [extra] and
    for the capabilities the device has. *)
Definition gated (extra : list string) (d d' : device) : Prop :=
  capabilities d' = capabilities d /\
  store d' = store d /\
  data_id d' = data_id d /\
  forall k, k ∉ always_written -> k ∉ extra -> k ∉ capabilities d ->
    capabilityValues d' !! k = capabilityValues d !! k.

(** Two devices that are the same device: capability set, store and id. *)
Definition same_identity (d e : device) : Prop :=
  capabilities d = capabilities e /\ store d = store e /\ data_id d = data_id e.

(** A component that goes from [x] to [x1] in one run and from [y] to
    [y1] in another is either untouched by both or left equal by both. *)
Definition agree {X} (x x1 y y1 : X) : Prop :=
  (x1 = x /\ y1 = y) \/ x1 = y1.

(** A method whose result and whose writes do not depend on the capability
    values, the settings or the availability it starts from: run on two
    states of the same device it returns the same, and leaves every
    capability value, every setting and the availability either untouched
    in both runs or equal after both. *)
Definition oblivious {A} (m : DM A) : Prop :=
  (forall d, same_identity d (snd (m d))) /\
  forall d e, same_identity d e ->
    fst (m d) = fst (m e) /\
    (forall k, agree (capabilityValues d !! k) (capabilityValues (snd (m d)) !! k)
                     (capabilityValues e !! k) (capabilityValues (snd (m e)) !! k)) /\
    (forall k, agree (settings d !! k) (settings (snd (m d)) !! k)
                     (settings e !! k) (settings (snd (m e)) !! k)) /\
    agree (available d) (available (snd (m d)))
          (available e) (available (snd (m e))).

(** A method that fires no Flow trigger and leaves the stored thermostat
    mode alone. *)
Definition quiet {A} (m : DM A) : Prop :=
  forall d, exists evs,
    journal (snd (m d)) = journal d ++ evs /\
    triggers evs = [] /\
    capabilityValues (snd (m d)) !! "custom_thermostat_mode"
      = capabilityValues d !! "custom_thermostat_mode".

(** A method that is silent on a device whose stored thermostat mode is
    already what a run of the method leaves: if [e] starts with the stored
    mode that the run from [d] ends with, the run from [e] fires no trigger
    and keeps that mode. *)
Definition settles {A} (m : DM A) : Prop :=
  forall d e, same_identity d e ->
    capabilityValues e !! "custom_thermostat_mode"
      = capabilityValues (snd (m d)) !! "custom_thermostat_mode" ->
    exists evs,
      journal (snd (m e)) = journal e ++ evs /\
      triggers evs = [] /\
      capabilityValues (snd (m e)) !! "custom_thermostat_mode"
        = capabilityValues e !! "custom_thermostat_mode".

(** ** Reading the models: what the pairing walks *)

(** The devices of a location, when it has an array of them. *)
Definition devices_of (location : value) : list value :=
  match JS.prop location "devices" with
  | JArr ds => ds
  | _ => []
  end.

(** Every device of every location, paired with its location, in the
    order of the answer. *)
Definition listed (locations : list value) : list (value * value) :=
  flat_map (fun location =>
              List.map (fun device => (device, location)) (devices_of location))
           locations.


(** ** Sample data: further scenarios *)

(** A refresh that the token endpoint refuses. *)
Definition response_401 : raw_response :=
  {| response_text := ""; status := 401; statusText := "Unauthorized";
     headers_get := fun _ => None; ok := false |}.

(** A thermostat paired from a heat-only device with a fan: the stored
    mode is [off], the stored target 20 degrees. *)
Definition sample_fan_device : device :=
  {| capabilities := {["measure_temperature"; "target_temperature";
                       "custom_thermostat_mode"; "fan_mode"]};
     capabilityValues := <["target_temperature" := JNum 20%float]>
                           {["custom_thermostat_mode" := JStr "off"]};
     settings := {["units" := JStr "Celsius"]};
     store := {["locationId" := JStr "199754"]};
     data_id := JStr "LCC-00D02DB6B4A8";
     available := true;
     journal := [] |}.

(** The same thermostat with an empty store. *)
Definition sample_unlocated_device : device :=
  with_store (fun _ => ∅) sample_fan_device.

(** A thermostat paired by an early version of the app: location and
    tokens are in the settings, the store is empty. *)
Definition sample_legacy_device : device :=
  {| capabilities := {["measure_temperature"; "target_temperature"]};
     capabilityValues := ∅;
     settings := <["location" := JObj [("id", JStr "199754")]]>
                   (<["atoken" := JStr "access-1"]> {["rtoken" := JStr "refresh-1"]});
     store := ∅;
     data_id := JStr "LCC-00D02DB6B4A8";
     available := true;
     journal := [] |}.


(** An API that holds one snapshot, and one that holds a snapshot whose
    [changeableValues] is [null]. *)
Definition snapshot_api (path : string) : res value := Ok snapshot_with_period.

Definition snapshot_null_changeableValues : value :=
  JObj [("deviceID", JStr "LCC-00D02DB6B4A8"); ("changeableValues", JNull)].

Definition null_snapshot_api (path : string) : res value :=
  Ok snapshot_null_changeableValues.

(** A write endpoint that answers with the status it was sent, and a fan
    endpoint that answers with what it was sent. *)
Definition echo_post (path : string) (json : write_command) : res value :=
  Ok (json_thermostatSetpointStatus json).

Definition echo_post_fan (path : string) (json : value) : res value := Ok json.

(** Write endpoints that answer with the heat and with the cool setpoint
    they were sent. *)
Definition echo_heat (path : string) (json : write_command) : res value :=
  Ok (json_heatSetpoint json).

Definition echo_cool (path : string) (json : write_command) : res value :=
  Ok (json_coolSetpoint json).

(** For the samples no number or object is ever turned into a string. *)
Definition no_string_coercion (v : value) : res string := Throw TypeError.

(** Write requests without a device id and without a location id. *)
Definition args_without_deviceId : thermostat_args :=
  {| arg_locationId := JStr "199754"; arg_deviceId := JUndefined;
     arg_mode := JUndefined; arg_heatSetpoint := JNum 21%float;
     arg_coolSetpoint := JUndefined;
     arg_thermostatSetpointStatus := JStr "HoldUntil" |}.

Definition args_without_locationId : thermostat_args :=
  {| arg_locationId := JUndefined; arg_deviceId := JStr "LCC-00D02DB6B4A8";
     arg_mode := JUndefined; arg_heatSetpoint := JNum 21%float;
     arg_coolSetpoint := JUndefined;
     arg_thermostatSetpointStatus := JStr "HoldUntil" |}.

(** The capability listener's argument for the thermostat mode [heat]. *)
Definition set_mode_heat : value := JObj [("custom_thermostat_mode", JStr "heat")].

(** A payload whose [changeableValues] has no [coolSetpoint]. *)
Definition payload_without_coolSetpoint : value :=
  JObj [("units", JStr "Celsius"); ("indoorTemperature", JNum 21.5%float);
        ("isAlive", JBool true);
        ("changeableValues",
         JObj [("mode", JStr "Heat"); ("heatSetpoint", JNum 20%float)])].

(** A heat-only T9 with a fan, and the location that holds it. *)
Definition sample_api_device : value :=
  JObj [("deviceID", JStr "LCC-00D02DB6B4A8");
        ("userDefinedDeviceName", JStr "Living room");
        ("deviceModel", JStr "T9-T10");
        ("allowedModes", JArr [JStr "Heat"; JStr "Off"]);
        ("minHeatSetpoint", JNum 5%float); ("maxHeatSetpoint", JNum 35%float);
        ("settings",
         JObj [("fan", JObj [("allowedModes", JArr [JStr "On"; JStr "Auto"])])])].

Definition sample_location : value :=
  JObj [("locationID", JStr "199754"); ("devices", JArr [sample_api_device])].


(** * Properties *)

(** ** Properties of the unit conversion *)

Section UnitConversion.

Import HoneywellUtils.

(** The spec's scenario: 32 degrees Fahrenheit are 0 degrees Celsius. *)
Example ftoc_freezing : ftoc 32%float = 0%float.
Proof. reflexivity. Qed.

Example ctof_freezing : ctof 0%float = 32%float.
Proof. reflexivity. Qed.

End UnitConversion.

(** ** Substring search *)

Lemma append_cons (a : ascii) (p q : string) :
  String a p +:+ q = String a (p +:+ q).
Proof. reflexivity. Qed.

Lemma prefix_true_iff (p s : string) :
  String.prefix p s = true <-> exists post, s = p +:+ post.
Proof.
  revert s; induction p as [|a p IH]; intros s; simpl.
  - split; [intros _; exists s; reflexivity | intros _; destruct s; reflexivity].
  - destruct s as [|b s]; simpl.
    + split; [discriminate | intros [post H]; discriminate].
    + destruct (Ascii.ascii_dec a b) as [->|Hne].
      * rewrite IH. split; intros [post H]; exists post;
          rewrite append_cons in *; congruence.
      * split; [discriminate|].
        intros [post H]; rewrite append_cons in H; congruence.
Qed.

Lemma str_includes_nil (needle : string) :
  JS.str_includes needle "" = String.prefix needle "" || false.
Proof. reflexivity. Qed.

Lemma str_includes_cons (needle : string) (a : ascii) (s : string) :
  JS.str_includes needle (String a s)
  = String.prefix needle (String a s) || JS.str_includes needle s.
Proof. reflexivity. Qed.

Lemma str_includes_iff (needle s : string) :
  JS.str_includes needle s = true <-> exists pre post, s = pre +:+ needle +:+ post.
Proof.
  induction s as [|a s IH].
  - rewrite str_includes_nil, orb_false_r, prefix_true_iff. split.
    + intros [post H]. exists "", post. exact H.
    + intros [pre [post H]]. destruct pre; [exists post; exact H | discriminate].
  - rewrite str_includes_cons, orb_true_iff, prefix_true_iff, IH. split.
    + intros [[post H] | [pre [post H]]].
      * exists "", post. exact H.
      * exists (String a pre), post. rewrite append_cons. congruence.
    + intros [pre [post H]]. destruct pre as [|b pre].
      * left. exists post. exact H.
      * right. exists pre, post. rewrite append_cons in H. congruence.
Qed.

(** ** Properties of the OAuth2 client *)

Section ClientProperties.

Variable Token : Type.
Variable isRefreshable : Token -> bool.
Variable refresh_token : Token -> string.
Variable API_KEY : string.
Variable API_SECRET : string.
Variable base64 : string -> string.
Variable JSON_parse : string -> option value.
Variable super_onHandleNotOK : value -> Z -> string -> option exn.
Variable tokenUrl : string.
Variable fetch : request -> res raw_response.
Variable onHandleRefreshTokenResponse : raw_response -> res Token.

Local Abbreviation detect := (_detectRateLimit Token).
Local Abbreviation notOK := (onHandleNotOK Token super_onHandleNotOK).
Local Abbreviation handle := (onHandleResponse Token JSON_parse super_onHandleNotOK).
Local Abbreviation refresh :=
  (onRefreshToken Token isRefreshable refresh_token API_KEY API_SECRET base64
     tokenUrl fetch onHandleRefreshTokenResponse).

Lemma events_since_app (c : client Token) (evs : list client_event) :
  events_since c {| _token := _token c; saved := saved c;
                    events := events c ++ evs |} = evs.
Proof. unfold events_since; simpl. apply drop_app_length. Qed.

Lemma events_since_refl (c : client Token) : events_since c c = [].
Proof. unfold events_since. apply drop_all. Qed.

Lemma client_eta (c : client Token) :
  c = {| _token := _token c; saved := saved c; events := events c |}.
Proof. destruct c; reflexivity. Qed.

(** What the detector answers and records, by the signature. *)
Lemma detect_signature (body : value) (c : client Token) :
  has_quota_fault body = true ->
  detect body c =
    (Ok true, {| _token := _token c; saved := saved c;
                 events := events c ++ [CError "_detectRateLimit() -> API error:";
                                        CEmit "rateLimited"] |}).
Proof.
  intros H. destruct body as [| | | | |props|]; try discriminate.
  unfold _detectRateLimit, bind, lift, record, ret; simpl in *.
  destruct (JS.assoc "fault" props) as [[| | | | |fprops|]|];
    try discriminate; simpl.
  destruct (JS.assoc "faultstring" fprops) as [fs|]; try discriminate; simpl.
  destruct (JS.includes fs quota_violation) as [[|]|]; try discriminate.
  simpl. rewrite <- app_assoc. reflexivity.
Qed.

Lemma detect_no_signature (body : value) (c : client Token) :
  has_quota_fault body = false ->
  exists r evs,
    detect body c = (r, {| _token := _token c; saved := saved c;
                           events := events c ++ evs |}) /\
    r <> Ok true /\ ~ In (CEmit "rateLimited") evs.
Proof.
  intros H.
  assert (Hnil : forall r : res bool, r <> Ok true ->
            exists r' evs, (r, c) = (r', {| _token := _token c; saved := saved c;
                                            events := events c ++ evs |}) /\
                           r' <> Ok true /\ ~ In (CEmit "rateLimited") evs).
  { intros r Hr. exists r, []. rewrite app_nil_r, <- client_eta.
    split; [reflexivity | split; [exact Hr | intros []]]. }
  assert (Hone : forall r : res bool, r <> Ok true ->
            exists r' evs,
              (r, {| _token := _token c; saved := saved c;
                     events := events c ++ [CError "_detectRateLimit() -> API error:"] |})
              = (r', {| _token := _token c; saved := saved c;
                        events := events c ++ evs |}) /\
              r' <> Ok true /\ ~ In (CEmit "rateLimited") evs).
  { intros r Hr. exists r, [CError "_detectRateLimit() -> API error:"].
    split; [reflexivity | split; [exact Hr |]].
    intros [Hin | []]. discriminate. }
  unfold _detectRateLimit, bind, lift, record, ret.
  destruct body as [| | | | |props|]; simpl in *;
    try (apply Hnil; discriminate).
  destruct (JS.assoc "fault" props) as [fault|]; simpl;
    [|apply Hnil; discriminate].
  destruct fault as [| | | | |fprops|]; simpl;
    try (apply Hone; discriminate).
  destruct (JS.assoc "faultstring" fprops) as [fs|]; simpl;
    [|apply Hone; discriminate].
  destruct (JS.includes fs quota_violation) as [[|]|e]; simpl;
    try discriminate; apply Hone; discriminate.
Qed.

(** C1: on a failing response the body is classified as rate-limited
    (the detector answers [true] and emits [rateLimited]) if and only if
    it has a [fault] field whose [faultstring] contains the literal
    "Rate limit quota violation."; for a string [faultstring] that is
    substring containment; [{fault:{faultstring:"other"}}] is not
    classified; and [onHandleNotOK] runs the detector first and hands the
    body to the base class's classification only afterwards. *)
Theorem rate_limit_classification (body : value) (st : Z) (tx : string)
    (c : client Token) :
  (fst (detect body c) = Ok true <-> has_quota_fault body = true) /\
  (In (CEmit "rateLimited") (events_since c (snd (detect body c)))
     <-> has_quota_fault body = true) /\
  (forall s : string,
     has_quota_fault (fault_body (JStr s)) = true
     <-> exists pre post, s = pre +:+ quota_violation +:+ post) /\
  fst (detect (fault_body (JStr "other")) c) = Ok false /\
  notOK body st tx c =
    match detect body c with
    | (Ok _, c') => (Ok (super_onHandleNotOK body st tx),
                     record_event (CSuperNotOK body) c')
    | (Throw e, c') => (Throw e, c')
    end.
Proof.
  split; [|split; [|split; [|split]]].
  - split.
    + destruct (has_quota_fault body) eqn:H; [reflexivity|].
      destruct (detect_no_signature body c H) as (r & evs & -> & Hr & _).
      simpl. intros Heq. contradiction.
    + intros H. rewrite (detect_signature body c H). reflexivity.
  - split.
    + destruct (has_quota_fault body) eqn:H; [reflexivity|].
      destruct (detect_no_signature body c H) as (r & evs & -> & _ & Hn).
      simpl. rewrite events_since_app. intros Hin. contradiction.
    + intros H. rewrite (detect_signature body c H). simpl.
      rewrite events_since_app. right; left; reflexivity.
  - intros s. unfold fault_body; simpl. apply str_includes_iff.
  - reflexivity.
  - unfold onHandleNotOK, bind. destruct (detect body c) as [[b|e] c'];
      reflexivity.
Qed.

Local Abbreviation decode := (decode_body JSON_parse).

Lemma decode_empty_json (r : raw_response) :
  json_content_type r = true -> response_text r = "" ->
  decode (headers_get r "Content-Type") (response_text r) = Ok (JObj []).
Proof.
  unfold json_content_type, decode_body. intros Hct ->.
  destruct (headers_get r "Content-Type") as [ct|]; [|discriminate].
  rewrite Hct. reflexivity.
Qed.

Lemma decode_parsed_json (r : raw_response) (v : value) :
  json_content_type r = true -> response_text r <> "" ->
  JSON_parse (response_text r) = Some v ->
  decode (headers_get r "Content-Type") (response_text r) = Ok v.
Proof.
  unfold json_content_type, decode_body. intros Hct Hne Hp.
  destruct (headers_get r "Content-Type") as [ct|]; [|discriminate].
  rewrite Hct, Hp.
  destruct (response_text r); [contradiction | reflexivity].
Qed.

Lemma detect_outcome (body : value) (c : client Token) :
  exists evs,
    detect body c =
      (if detection_fails body then Throw TypeError
       else Ok (has_quota_fault body),
       {| _token := _token c; saved := saved c; events := events c ++ evs |}) /\
    forall b, ~ In (CSuperNotOK b) evs.
Proof.
  assert (H0 : forall r : res bool, exists evs,
            (r, c) = (r, {| _token := _token c; saved := saved c;
                            events := events c ++ evs |}) /\
            forall b, ~ In (CSuperNotOK b) evs).
  { intros r. exists []. rewrite app_nil_r, <- client_eta.
    split; [reflexivity | intros b []]. }
  assert (H1 : forall (r : res bool) msg, exists evs,
            (r, {| _token := _token c; saved := saved c;
                   events := events c ++ [CError msg] |})
            = (r, {| _token := _token c; saved := saved c;
                     events := events c ++ evs |}) /\
            forall b, ~ In (CSuperNotOK b) evs).
  { intros r msg. exists [CError msg].
    split; [reflexivity | intros b [H|[]]; discriminate]. }
  assert (H2 : forall (r : res bool) msg name, exists evs,
            (r, {| _token := _token c; saved := saved c;
                   events := (events c ++ [CError msg]) ++ [CEmit name] |})
            = (r, {| _token := _token c; saved := saved c;
                     events := events c ++ evs |}) /\
            forall b, ~ In (CSuperNotOK b) evs).
  { intros r msg name. exists [CError msg; CEmit name].
    split; [rewrite <- app_assoc; reflexivity|].
    intros b [H|[H|[]]]; discriminate. }
  unfold _detectRateLimit, bind, lift, record, ret.
  destruct body as [| | | | |props|]; simpl; try apply H0.
  destruct (JS.assoc "fault" props) as [fault|]; simpl; try apply H0.
  destruct fault as [| | | | |fprops|]; simpl; try apply H1.
  destruct (JS.assoc "faultstring" fprops) as [fs|]; simpl; try apply H1.
  destruct fs as [| | | |s|?|l]; simpl; try apply H1.
  - destruct (JS.str_includes quota_violation s); simpl;
      [apply H2 | apply H1].
  - destruct (existsb _ l); simpl; [apply H2 | apply H1].
Qed.

(** What the classification of a failed response returns: the base
    class's answer, unless the detector fails first. *)
Lemma notOK_result (body : value) (st : Z) (tx : string) (c : client Token) :
  fst (notOK body st tx c) =
    (if detection_fails body then Throw TypeError
     else Ok (super_onHandleNotOK body st tx)).
Proof.
  destruct (detect_outcome body c) as (evs & Hd & _).
  unfold onHandleNotOK, bind, record, ret. rewrite Hd.
  destruct (detection_fails body); reflexivity.
Qed.

Lemma handle_failed (r : raw_response) (c : client Token) (body : value) :
  status r <> 204%Z ->
  decode (headers_get r "Content-Type") (response_text r) = Ok body ->
  ok r = false ->
  handle r c =
    (match fst (notOK body (status r) (statusText r) c) with
     | Ok err => Throw (thrown err)
     | Throw e => Throw e
     end,
     snd (notOK body (status r) (statusText r) c)).
Proof.
  intros Hs Hd Hok. unfold onHandleResponse.
  destruct (Z.eqb_spec (status r) 204); [contradiction|].
  unfold bind at 1, lift. rewrite Hd, Hok. unfold bind at 1.
  destruct (notOK body (status r) (statusText r) c) as [[[e|]|e] c'];
    reflexivity.
Qed.

(** Decoding fails in one way only: a text that is declared as JSON, is
    not empty and does not parse. *)
Lemma decode_fails_iff (r : raw_response) :
  decode (headers_get r "Content-Type") (response_text r) = Throw SyntaxError
  <-> json_content_type r = true /\ response_text r <> ""
      /\ JSON_parse (response_text r) = None.
Proof.
  unfold decode_body, json_content_type.
  destruct (headers_get r "Content-Type") as [ct|].
  2:{ split; [discriminate | intros (H & _); discriminate]. }
  destruct (String.prefix "application/json" ct).
  2:{ split; [discriminate | intros (H & _); discriminate]. }
  destruct (response_text r) as [|a text]; simpl.
  - split; [discriminate | intros (_ & H & _); contradiction].
  - destruct (JSON_parse (String a text)).
    + split; [discriminate | intros (_ & _ & H); discriminate].
    + split; [intros _; repeat split; discriminate | reflexivity].
Qed.

Lemma decode_throws_syntax (ct : option string) (text : string) (e : exn) :
  decode ct text = Throw e -> e = SyntaxError.
Proof.
  unfold decode_body. destruct ct as [ct|]; [|discriminate].
  destruct (String.prefix "application/json" ct); [|discriminate].
  destruct (_ =? _)%nat; [discriminate|].
  destruct (JSON_parse text); [discriminate|]. intros [= <-]. reflexivity.
Qed.

(** C4, as the code has it: for every raw response, the interpreter
    answers no body and no error on status 204.  On any other status the
    text is decoded first: parsed when the content type starts with the
    JSON type tag, where an empty text stands for the empty object, never
    for a parse failure, and taken as it is otherwise; a text that does
    not parse makes the interpreter throw the parser's error, on a success
    as on a failure status, then without a classification.  When the text
    is decoded, a success status returns the decoded body and leaves the
    client as it is, and a failure status always throws: the error of
    the classification, unless the rate-limit check fails on the body. *)
Theorem response_interpretation (r : raw_response) (c : client Token) :
  let decoded := decode (headers_get r "Content-Type") (response_text r) in
  (status r = 204%Z -> handle r c = (Ok JUndefined, c)) /\
  (json_content_type r = true -> response_text r = "" -> decoded = Ok (JObj [])) /\
  (forall v, json_content_type r = true -> response_text r <> "" ->
     JSON_parse (response_text r) = Some v -> decoded = Ok v) /\
  (json_content_type r = false -> decoded = Ok (JStr (response_text r))) /\
  (forall e, decoded = Throw e <->
     e = SyntaxError /\ json_content_type r = true /\ response_text r <> ""
     /\ JSON_parse (response_text r) = None) /\
  (status r <> 204%Z ->
     match decoded with
     | Throw e => handle r c = (Throw e, c)
     | Ok body =>
         if ok r then handle r c = (Ok body, c)
         else fst (handle r c) =
                Throw (if detection_fails body then TypeError
                       else thrown (super_onHandleNotOK body (status r)
                                      (statusText r)))
     end) /\
  (status r <> 204%Z -> ok r = false -> exists e, fst (handle r c) = Throw e).
Proof.
  intros decoded.
  assert (Hrun : status r <> 204%Z ->
            match decoded with
            | Throw e => handle r c = (Throw e, c)
            | Ok body =>
                if ok r then handle r c = (Ok body, c)
                else fst (handle r c) =
                       Throw (if detection_fails body then TypeError
                              else thrown (super_onHandleNotOK body (status r)
                                             (statusText r)))
            end).
  { intros Hs. subst decoded.
    destruct (decode (headers_get r "Content-Type") (response_text r))
      as [body|e] eqn:Hd.
    - destruct (ok r) eqn:Hok.
      + unfold onHandleResponse.
        destruct (Z.eqb_spec (status r) 204); [contradiction|].
        unfold bind, lift. rewrite Hd, Hok. reflexivity.
      + rewrite (handle_failed r c body Hs Hd Hok). simpl.
        rewrite notOK_result. destruct (detection_fails body); reflexivity.
    - unfold onHandleResponse.
      destruct (Z.eqb_spec (status r) 204); [contradiction|].
      unfold bind, lift. rewrite Hd. reflexivity. }
  split; [|split; [|split; [|split; [|split; [|split]]]]].
  - intros Hs. unfold onHandleResponse. rewrite Hs. reflexivity.
  - intros Hct Htx. apply decode_empty_json; assumption.
  - intros v Hct Hne Hp. apply decode_parsed_json; assumption.
  - intros Hct. subst decoded. unfold decode_body.
    unfold json_content_type in Hct.
    destruct (headers_get r "Content-Type") as [ct|]; [|reflexivity].
    rewrite Hct. reflexivity.
  - intros e. split.
    + intros He. pose proof (decode_throws_syntax _ _ _ He) as ->.
      split; [reflexivity|]. apply decode_fails_iff. exact He.
    + intros (-> & H). apply decode_fails_iff. exact H.
  - exact Hrun.
  - intros Hs Hok. specialize (Hrun Hs).
    destruct decoded as [body|e].
    + rewrite Hok in Hrun. rewrite Hrun. eauto.
    + rewrite Hrun. eauto.
Qed.

Local Abbreviation refresh_rq :=
  (refresh_request Token refresh_token API_KEY API_SECRET base64 tokenUrl).

(** C8: token refresh throws an [OAuth2Error] when no token is stored or
    when the stored token is not refreshable, and then sends nothing; when
    the token is refreshable and the refresh-grant request succeeds, that
    request is a POST to the token URL carrying the Basic authorization
    header built from the client id and secret, the stored token becomes
    the new one, it is saved, and the caller receives the new token. *)
Theorem token_refresh (c : client Token) :
  (_token c = None ->
     refresh c = (Throw (OAuth2Error "Missing Token"), c)) /\
  (forall t, _token c = Some t -> isRefreshable t = false ->
     refresh c = (Throw (OAuth2Error "Token cannot be refreshed"),
                  record_event (CDebug "Refreshing token...") c)) /\
  (forall t resp t',
     _token c = Some t -> isRefreshable t = true ->
     fetch (refresh_rq t) = Ok resp -> ok resp = true ->
     onHandleRefreshTokenResponse resp = Ok t' ->
     refresh c =
       (Ok (Some t'),
        {| _token := Some t'; saved := Some t';
           events := events c ++ [CDebug "Refreshing token...";
                                  CFetch (refresh_rq t);
                                  CDebug "Refreshed token!"] |}) /\
     req_url (refresh_rq t) = tokenUrl /\
     req_method (refresh_rq t) = "POST" /\
     req_body (refresh_rq t) =
       [("grant_type", "refresh_token"); ("refresh_token", refresh_token t)] /\
     req_headers (refresh_rq t) =
       [("Authorization", "Basic " +:+ base64 (API_KEY +:+ ":" +:+ API_SECRET))]).
Proof.
  split; [|split].
  - intros H. unfold onRefreshToken, bind, getToken. rewrite H. reflexivity.
  - intros t H Hr. unfold onRefreshToken, bind, getToken, record. rewrite H.
    simpl. rewrite Hr. reflexivity.
  - intros t resp t' H Hr Hf Hok Hh. split; [|repeat split].
    unfold onRefreshToken, bind, getToken, record, lift, set_token, save.
    rewrite H. simpl. rewrite Hr. simpl. rewrite Hf, Hok. simpl. rewrite Hh.
    simpl. rewrite <- !app_assoc. reflexivity.
Qed.

End ClientProperties.

(** ** Properties of the thermostat write composition *)

Section CompositionProperties.

Variable a : thermostat_args.
Variable deviceData : value.

Local Abbreviation cv := (changeableValues deviceData).
Local Abbreviation merged_status :=
  (JS.or (arg_thermostatSetpointStatus a) (JS.prop cv "thermostatSetpointStatus")).
Local Abbreviation nextPeriodTime := (JS.prop cv "nextPeriodTime").
Local Abbreviation autoChangeoverActive := (JS.prop cv "autoChangeoverActive").

Hypothesis deviceData_object : JS.nullish deviceData = false.
Hypothesis changeableValues_object : JS.nullish cv = false.

Lemma changeable_prop (k : string) : changeable deviceData k = Ok (JS.prop cv k).
Proof.
  unfold changeable, JS.get. rewrite deviceData_object. simpl.
  unfold changeableValues in changeableValues_object.
  rewrite changeableValues_object. reflexivity.
Qed.

Lemma or_else_or (p : value) (k : string) :
  or_else p (changeable deviceData k) = Ok (JS.or p (JS.prop cv k)).
Proof.
  unfold or_else, JS.or. rewrite changeable_prop.
  destruct (JS.ToBoolean p); reflexivity.
Qed.

(** The composed command, in closed form. *)
Lemma thermostat_json_closed_form :
  thermostat_json a deviceData =
    Ok {| json_mode := JS.or (arg_mode a) (JS.prop cv "mode");
          json_heatSetpoint := JS.or (arg_heatSetpoint a) (JS.prop cv "heatSetpoint");
          json_coolSetpoint := JS.or (arg_coolSetpoint a) (JS.prop cv "coolSetpoint");
          json_thermostatSetpointStatus :=
            if JS.strict_eq_str merged_status "HoldUntil"
               && negb (is_string nextPeriodTime)
            then JStr "PermanentHold" else merged_status;
          json_autoChangeoverActive :=
            if is_boolean autoChangeoverActive
            then Some autoChangeoverActive else None;
          json_nextPeriodTime :=
            if JS.strict_eq_str merged_status "HoldUntil"
               && is_string nextPeriodTime
            then Some nextPeriodTime else None |}.
Proof.
  unfold thermostat_json, merged_json, copy_autoChangeover, hold_policy.
  rewrite !or_else_or. simpl. rewrite !changeable_prop. simpl.
  destruct (is_boolean autoChangeoverActive); simpl;
    destruct (JS.strict_eq_str merged_status "HoldUntil"); simpl;
    rewrite ?changeable_prop; simpl;
    destruct (is_string nextPeriodTime); reflexivity.
Qed.


Lemma strict_eq_str_true (v : value) (s : string) :
  JS.strict_eq_str v s = true <-> v = JStr s.
Proof.
  destruct v; simpl; try (split; [discriminate | intros H; discriminate]).
  rewrite String.eqb_eq. split; [intros ->; reflexivity | intros [= ->]; reflexivity].
Qed.

End CompositionProperties.



(** An empty partial: the command repeats the snapshot's mode and
    setpoints, and its status unless the hold policy replaces it. *)
Lemma empty_partial_command (locationId deviceId deviceData : value) :
  JS.nullish deviceData = false ->
  JS.nullish (changeableValues deviceData) = false ->
  exists json,
    thermostat_json (empty_partial locationId deviceId) deviceData = Ok json /\
    json_mode json = JS.prop (changeableValues deviceData) "mode" /\
    json_heatSetpoint json = JS.prop (changeableValues deviceData) "heatSetpoint" /\
    json_coolSetpoint json = JS.prop (changeableValues deviceData) "coolSetpoint" /\
    (JS.strict_eq_str
       (JS.prop (changeableValues deviceData) "thermostatSetpointStatus")
       "HoldUntil" = false ->
     json_thermostatSetpointStatus json
       = JS.prop (changeableValues deviceData) "thermostatSetpointStatus").
Proof.
  intros Hd Hcv. eexists. split.
  - apply thermostat_json_closed_form; assumption.
  - simpl. repeat split. unfold JS.or. simpl. intros ->. reflexivity.
Qed.

(** The spec's two hold scenarios, run. *)
Example hold_until_without_period :
  thermostat_json heat_21_hold_until snapshot_without_period =
    Ok {| json_mode := JStr "Heat"; json_heatSetpoint := JNum 21%float;
          json_coolSetpoint := JNum 25%float;
          json_thermostatSetpointStatus := JStr "PermanentHold";
          json_autoChangeoverActive := None; json_nextPeriodTime := None |}.
Proof. reflexivity. Qed.

Example hold_until_with_period :
  thermostat_json heat_21_hold_until snapshot_with_period =
    Ok {| json_mode := JStr "Heat"; json_heatSetpoint := JNum 21%float;
          json_coolSetpoint := JNum 25%float;
          json_thermostatSetpointStatus := JStr "HoldUntil";
          json_autoChangeoverActive := Some (JBool false);
          json_nextPeriodTime := Some (JStr "18:00:00") |}.
Proof. reflexivity. Qed.




(** ** Properties of the device: aliveness *)

Lemma hasOwn_total (v : value) (k : string) :
  JS.nullish v = false -> exists b, JS.hasOwn v k = Ok b.
Proof. destruct v; simpl; try discriminate; eauto. Qed.

Lemma get_prop (v : value) (k : string) :
  JS.nullish v = false -> JS.get v k = Ok (JS.prop v k).
Proof. unfold JS.get. intros ->. reflexivity. Qed.

Lemma journal_since_app (d d' : device) (evs : list device_event) :
  journal d' = journal d ++ evs -> journal_since d d' = evs.
Proof. unfold journal_since. intros ->. apply drop_app_length. Qed.

Lemma parseAlive_closed_form (payload : value) (d : device) :
  JS.nullish (default_object payload) = false ->
  exists has_alive,
    JS.hasOwn (default_object payload) "isAlive" = Ok has_alive /\
    _parseAlive payload d =
      (Ok tt,
       {| capabilities := capabilities d;
          capabilityValues := capabilityValues d;
          settings := settings d; store := store d; data_id := data_id d;
          available := JS.ToBoolean (JS.prop (default_object payload) "isAlive");
          journal := journal d
                     ++ alive_events has_alive (available d)
                          (JS.ToBoolean (JS.prop (default_object payload) "isAlive")) |}).
Proof.
  intros Hn. destruct (hasOwn_total _ "isAlive" Hn) as [has_alive Hh].
  exists has_alive. split; [exact Hh|].
  unfold _parseAlive, bind, lift. rewrite Hh, (get_prop _ _ Hn).
  destruct d as [caps vals sets st id av jr].
  unfold alive_events.
  destruct has_alive, av,
    (JS.ToBoolean (JS.prop (default_object payload) "isAlive")); simpl;
    unfold bind, emit, ret, getAvailable, setAvailable, setUnavailable,
      with_event, with_available; simpl;
    rewrite <- ?app_assoc, ?app_nil_r; reflexivity.
Qed.

Lemma transitions_alive_events (has_alive was alive : bool) :
  transitions (alive_events has_alive was alive) =
    match was, alive with
    | false, true => [DSetAvailable]
    | true, false => [DSetUnavailable "unavailable"]
    | _, _ => []
    end.
Proof. destruct has_alive, was, alive; reflexivity. Qed.

(** C7: processing a reported [isAlive] changes availability only on an
    edge.  The device becomes unavailable exactly when it is available and
    [isAlive] is false (falsy), becomes available exactly when it is
    unavailable and [isAlive] is true (truthy), and a second cycle that
    reports the same [isAlive] makes no further transition, so that the
    two cycles together make at most one. *)
Theorem aliveness_edges (payload payload' : value) (d : device) :
  JS.nullish (default_object payload) = false ->
  JS.nullish (default_object payload') = false ->
  JS.ToBoolean (JS.prop (default_object payload') "isAlive")
    = JS.ToBoolean (JS.prop (default_object payload) "isAlive") ->
  let alive := JS.ToBoolean (JS.prop (default_object payload) "isAlive") in
  let d1 := snd (_parseAlive payload d) in
  let d2 := snd (_parseAlive payload' d1) in
  fst (_parseAlive payload d) = Ok tt /\
  (In (DSetUnavailable "unavailable") (journal_since d d1)
     <-> available d = true /\ alive = false) /\
  (In DSetAvailable (journal_since d d1)
     <-> available d = false /\ alive = true) /\
  (available d1 = available d <-> transitions (journal_since d d1) = []) /\
  available d1 = alive /\
  transitions (journal_since d1 d2) = [] /\
  available d2 = available d1 /\
  (length (transitions (journal_since d d2)) <= 1)%nat.
Proof.
  intros Hn Hn' Hsame alive d1 d2.
  destruct (parseAlive_closed_form payload d Hn) as (h & _ & H1).
  assert (Hd1 := H1). apply (f_equal snd) in Hd1. simpl in Hd1. fold d1 in Hd1.
  destruct (parseAlive_closed_form payload' d1 Hn') as (h' & _ & H2).
  assert (Hd2 := H2). apply (f_equal snd) in Hd2. simpl in Hd2. fold d2 in Hd2.
  rewrite Hsame in Hd2. fold alive in Hd1, Hd2.
  assert (Hav1 : available d1 = alive) by (rewrite Hd1; reflexivity).
  assert (Hj1 : journal_since d d1 = alive_events h (available d) alive).
  { apply journal_since_app. rewrite Hd1. reflexivity. }
  assert (Hj2 : journal_since d1 d2 = alive_events h' alive alive).
  { apply journal_since_app. rewrite Hd2, Hav1. reflexivity. }
  assert (Hj12 : journal_since d d2
                 = alive_events h (available d) alive ++ alive_events h' alive alive).
  { apply journal_since_app. rewrite Hd2, Hav1. simpl. rewrite Hd1. simpl.
    rewrite <- app_assoc. reflexivity. }
  split; [rewrite H1; reflexivity|].
  rewrite Hj1, Hj2, Hj12, Hav1. unfold transitions.
  rewrite List.filter_app. fold (transitions (alive_events h (available d) alive)).
  fold (transitions (alive_events h' alive alive)).
  rewrite !transitions_alive_events.
  assert (Hav2 : available d2 = alive) by (rewrite Hd2; reflexivity).
  rewrite Hav2.
  unfold alive_events.
  destruct h, (available d), alive; simpl;
    intuition (try discriminate; try lia; auto).
Qed.

(** ** Properties of the device: the write entry point *)

Section WriteProperties.

Variable ToNumber_coerce : value -> res float.

Local Abbreviation transform := (_transformTemperature ToNumber_coerce).
Local Abbreviation build_args := (setThermostat_args ToNumber_coerce).

Lemma transformTemperature_number (t : float) (d : device) :
  transform (JNum t) d = (Ok (JNum (to_device_unit (units_setting d) t)), d).
Proof.
  unfold _transformTemperature, bind, getSetting, to_device_unit, units_setting.
  destruct (is_string _ && negb _); reflexivity.
Qed.

Lemma to_device_unit_fahrenheit (u : value) (t : float) :
  is_string u = true -> u <> JStr UNIT_CELSIUS ->
  to_device_unit u t = HoneywellUtils.ctof t.
Proof.
  intros Hs Hne. unfold to_device_unit. rewrite Hs.
  destruct (JS.strict_eq_str u UNIT_CELSIUS) eqn:He; [|reflexivity].
  apply strict_eq_str_true in He. contradiction.
Qed.

Lemma to_device_unit_celsius (u : value) (t : float) :
  u = JStr UNIT_CELSIUS \/ is_string u = false -> to_device_unit u t = t.
Proof.
  unfold to_device_unit. intros [-> | ->]; reflexivity.
Qed.

Lemma is_number_cases (v : value) :
  (exists t, v = JNum t) \/ is_number v = false.
Proof. destruct v; simpl; eauto. Qed.

End WriteProperties.

(** ** Properties of the device: what a parse step touches *)

Lemma frame_refl (keys : list string) (d : device) : frame keys d d.
Proof. unfold frame. auto. Qed.

Lemma frame_trans (keys : list string) (d1 d2 d3 : device) :
  frame keys d1 d2 -> frame keys d2 d3 -> frame keys d1 d3.
Proof.
  unfold frame. intros (Hc & Hs & Hst & Hi & Hv) (Hc' & Hs' & Hst' & Hi' & Hv').
  repeat split; try congruence.
  intros k Hk. rewrite Hv', Hv; auto.
Qed.

Lemma frame_weaken (keys keys' : list string) (d d' : device) :
  keys ⊆ keys' -> frame keys d d' -> frame keys' d d'.
Proof.
  unfold frame. intros Hsub (Hc & Hs & Hst & Hi & Hv).
  repeat split; try assumption.
  intros k Hk. apply Hv. intros Hin. apply Hk, Hsub, Hin.
Qed.

Lemma touches_weaken {A} (keys keys' : list string) (m : DM A) :
  keys ⊆ keys' -> touches keys m -> touches keys' m.
Proof. intros Hsub H d. eapply frame_weaken; [exact Hsub | apply H]. Qed.

Lemma touches_bind {A B} (keys : list string) (m : DM A) (k : A -> DM B) :
  touches keys m -> (forall a, touches keys (k a)) -> touches keys (bind m k).
Proof.
  intros Hm Hk d. unfold bind. specialize (Hm d).
  destruct (m d) as [[a|e] d1]; simpl in *; [|exact Hm].
  eapply frame_trans; [exact Hm | apply Hk].
Qed.

Lemma touches_ret {A} (keys : list string) (a : A) : touches keys (ret a).
Proof. intros d. apply frame_refl. Qed.

Lemma touches_throw {A} (keys : list string) (e : exn) :
  touches keys (throw e : DM A).
Proof. intros d. apply frame_refl. Qed.

Lemma touches_lift {A} (keys : list string) (r : res A) : touches keys (lift r).
Proof. intros d. apply frame_refl. Qed.

Lemma touches_emit (keys : list string) (e : device_event) : touches keys (emit e).
Proof. intros d. unfold frame; simpl; auto. Qed.

Lemma touches_hasCapability (keys : list string) (c : string) :
  touches keys (hasCapability c).
Proof. intros d. apply frame_refl. Qed.

Lemma touches_getCapabilityValue (keys : list string) (c : string) :
  touches keys (getCapabilityValue c).
Proof. intros d. apply frame_refl. Qed.

Lemma touches_getAvailable (keys : list string) : touches keys getAvailable.
Proof. intros d. apply frame_refl. Qed.

Lemma touches_setAvailable (keys : list string) : touches keys setAvailable.
Proof. intros d. unfold frame; simpl; auto. Qed.

Lemma touches_setUnavailable (keys : list string) (reason : string) :
  touches keys (setUnavailable reason).
Proof. intros d. unfold frame; simpl; auto. Qed.

Lemma touches_setCapabilityValue (keys : list string) (c : string) (v : value) :
  c ∈ keys -> touches keys (setCapabilityValue c v).
Proof.
  intros Hin d. unfold frame; simpl. repeat split; try reflexivity.
  intros k Hk. apply lookup_insert_ne. intros ->. contradiction.
Qed.

Lemma touches_getStoreValue (keys : list string) (k : string) :
  touches keys (getStoreValue k).
Proof. intros d. apply frame_refl. Qed.

Lemma touches_reader {A} (keys : list string) (f : device -> A) :
  touches keys (fun d => (Ok (f d), d)).
Proof. intros d. apply frame_refl. Qed.

Lemma touches_try_catch {A} (keys : list string) (m : DM A) (h : exn -> DM A) :
  touches keys m -> (forall e, touches keys (h e)) -> touches keys (try_catch m h).
Proof.
  intros Hm Hh d. unfold try_catch. specialize (Hm d).
  destruct (m d) as [[a|e] d1]; simpl in *; [exact Hm|].
  eapply frame_trans; [exact Hm | apply Hh].
Qed.

Lemma touches_if {A} (keys : list string) (b : bool) (m1 m2 : DM A) :
  touches keys m1 -> touches keys m2 -> touches keys (if b then m1 else m2).
Proof. destruct b; auto. Qed.

Create HintDb touches.
#[local] Hint Resolve touches_ret touches_throw touches_lift touches_emit
  touches_hasCapability touches_getCapabilityValue touches_getAvailable
  touches_setAvailable touches_setUnavailable touches_if : touches.

Ltac touches_steps :=
  repeat first
    [ apply touches_bind; [|intros ?]
    | apply touches_if
    | apply touches_setCapabilityValue; set_solver
    | solve [auto with touches] ].

Lemma touches_parseTargetTemperature (deviceData : value) :
  touches ["target_temperature"; "target_temperature.cool"]
          (_parseTargetTemperature deviceData).
Proof. unfold _parseTargetTemperature. touches_steps. Qed.

Lemma touches_parseThermostatMode (lower_unicode : string -> string)
    (deviceData : value) :
  touches ["custom_thermostat_mode"] (_parseThermostatMode lower_unicode deviceData).
Proof. unfold _parseThermostatMode. touches_steps. Qed.

Lemma touches_parseACMode (deviceData : value) :
  touches ["custom_ac_mode"] (_parseACMode deviceData).
Proof. unfold _parseACMode. touches_steps. Qed.

Lemma touches_parseAlive (deviceData : value) :
  touches [] (_parseAlive deviceData).
Proof. unfold _parseAlive. touches_steps. Qed.

(** The steps after the target temperature: the two modes and aliveness. *)
Lemma touches_mode_steps (lower_unicode : string -> string) (deviceData : value) :
  touches ["custom_thermostat_mode"; "custom_ac_mode"]
    (has_mode <- hasCapability "custom_thermostat_mode" ;;
     (if has_mode then _parseThermostatMode lower_unicode deviceData else ret tt) ;;;
     has_ac <- hasCapability "custom_ac_mode" ;;
     (if has_ac then _parseACMode deviceData else ret tt) ;;;
     _parseAlive deviceData).
Proof.
  apply touches_bind; [auto with touches | intros has_mode].
  apply touches_bind.
  { apply touches_if; [|auto with touches].
    eapply touches_weaken; [|apply touches_parseThermostatMode]. set_solver. }
  intros _. apply touches_bind; [auto with touches | intros has_ac].
  apply touches_bind.
  { apply touches_if; [|auto with touches].
    eapply touches_weaken; [|apply touches_parseACMode]. set_solver. }
  intros _. eapply touches_weaken; [|apply touches_parseAlive]. set_solver.
Qed.

Lemma touches_later_steps (lower_unicode : string -> string) (deviceData : value) :
  touches ["target_temperature"; "target_temperature.cool";
           "custom_thermostat_mode"; "custom_ac_mode"]
          (later_steps lower_unicode deviceData).
Proof.
  unfold later_steps. apply touches_bind.
  - eapply touches_weaken; [|apply touches_parseTargetTemperature]. set_solver.
  - intros _. eapply touches_weaken; [|apply touches_mode_steps]. set_solver.
Qed.

(** ** Properties of the device: reconciliation *)

Lemma assoc_set_prop_same (k : string) (x : value) (props : list (string * value)) :
  JS.assoc k (JS.set_prop k x props) = Some x.
Proof.
  unfold JS.assoc. induction props as [|[k' y] rest IH]; simpl.
  - rewrite String.eqb_refl. reflexivity.
  - destruct (String.eqb k' k) eqn:He; simpl.
    + rewrite String.eqb_refl. reflexivity.
    + rewrite He. exact IH.
Qed.

Lemma assoc_set_prop_other (k k' : string) (x : value)
    (props : list (string * value)) :
  k <> k' -> JS.assoc k (JS.set_prop k' x props) = JS.assoc k props.
Proof.
  intros Hne. unfold JS.assoc.
  induction props as [|[k0 y] rest IH]; simpl.
  - destruct (String.eqb_spec k' k); [congruence | reflexivity].
  - destruct (String.eqb_spec k0 k') as [->|Hk0]; simpl.
    + destruct (String.eqb_spec k' k); [congruence | reflexivity].
    + destruct (String.eqb_spec k0 k); [reflexivity | exact IH].
Qed.

Lemma hasOwn_true_nullish (v : value) (k : string) (b : bool) :
  JS.hasOwn v k = Ok b -> JS.nullish v = false.
Proof. destruct v; simpl; intros H; try discriminate; reflexivity. Qed.

(** Only an object owns one of the vendor's property names. *)
Lemma hasOwn_units_object (v : value) :
  JS.hasOwn v "units" = Ok true ->
  exists props u, v = JObj props /\ JS.assoc "units" props = Some u.
Proof.
  destruct v as [| | | |s|props|l]; simpl; intros H; try discriminate.
  destruct (JS.assoc "units" props) as [u|] eqn:Hu; [eauto | discriminate].
Qed.

Section ReconciliationProperties.

Variable ToNumber_coerce : value -> res float.
Variable lower_unicode : string -> string.

Local Abbreviation parseMeasured := (_parseMeasuredTemperature ToNumber_coerce).
Local Abbreviation steps := (parse_steps ToNumber_coerce lower_unicode).

(** The measured temperature as stored: the reported value under
    [Celsius], its conversion otherwise. *)
Lemma parseMeasured_with_units (props : list (string * value)) (u : value)
    (f : float) (d : device) :
  JS.assoc "units" props = Some u ->
  (JS.strict_eq_str u UNIT_CELSIUS = false ->
   ToNumber ToNumber_coerce (JS.prop (JObj props) "indoorTemperature") = Ok f) ->
  exists payload',
    parseMeasured (JObj props) d =
      (Ok payload',
       with_capabilityValues
         (insert "measure_temperature"
            (if JS.strict_eq_str u UNIT_CELSIUS
             then JS.prop (JObj props) "indoorTemperature"
             else JNum (HoneywellUtils.ftoc f)))
         (with_settings (insert "units" u) d)) /\
    changeableValues payload' = changeableValues (JObj props) /\
    JS.nullish payload' = false.
Proof.
  intros Hu Hf.
  unfold _parseMeasuredTemperature, bind, lift, ret, setSettings,
    setCapabilityValue. simpl. rewrite Hu. simpl.
  destruct (JS.strict_eq_str u UNIT_CELSIUS) eqn:Hc; simpl.
  - eexists. split; [reflexivity|]. split; reflexivity.
  - unfold ftoc_value. simpl in Hf. rewrite (Hf eq_refl). simpl.
    rewrite assoc_set_prop_same. simpl.
    eexists. split; [reflexivity|]. split; [|reflexivity].
    unfold changeableValues. simpl.
    rewrite assoc_set_prop_other; [reflexivity | discriminate].
Qed.


Lemma parseTarget_stores (payload : value) (d : device) :
  JS.nullish payload = false ->
  JS.hasOwn (changeableValues payload) "mode" = Ok true ->
  JS.hasOwn (changeableValues payload) "heatSetpoint" = Ok true ->
  JS.hasOwn (changeableValues payload) "coolSetpoint" = Ok true ->
  exists d',
    _parseTargetTemperature payload d = (Ok tt, d') /\
    capabilityValues d' !! "target_temperature"
      = Some (JS.prop (changeableValues payload) "heatSetpoint") /\
    ("target_temperature.cool" ∈ capabilities d ->
     capabilityValues d' !! "target_temperature.cool"
       = Some (JS.prop (changeableValues payload) "coolSetpoint")) /\
    capabilities d' = capabilities d.
Proof.
  intros Hn Hm Hh Hc.
  assert (Hdef : default_object payload = payload)
    by (destruct payload; try reflexivity; discriminate).
  assert (Hcv := hasOwn_true_nullish _ _ _ Hm).
  unfold _parseTargetTemperature, bind, lift. rewrite Hdef.
  rewrite (get_prop _ _ Hn). fold (changeableValues payload).
  rewrite Hm, Hh, Hc. simpl. rewrite !(get_prop _ _ Hcv).
  unfold setCapabilityValue, hasCapability; simpl.
  destruct (bool_decide ("target_temperature.cool" ∈ capabilities d)) eqn:Hcap;
    simpl; eexists; (split; [reflexivity|]); simpl.
  - split; [|split; [|reflexivity]].
    + rewrite lookup_insert_ne by discriminate. apply lookup_insert_eq.
    + intros _. apply lookup_insert_eq.
  - split; [|split; [|reflexivity]].
    + apply lookup_insert_eq.
    + intros Hin. apply bool_decide_eq_false in Hcap. contradiction.
Qed.

(** What the parse steps store of a payload that reports [units]. *)
Lemma parse_steps_units (payload : value) (f : float) (d : device) :
  JS.hasOwn payload "units" = Ok true ->
  (JS.strict_eq_str (JS.prop payload "units") UNIT_CELSIUS = false ->
   ToNumber ToNumber_coerce (JS.prop payload "indoorTemperature") = Ok f) ->
  let d' := snd (steps payload d) in
  settings d' !! "units" = Some (JS.prop payload "units") /\
  capabilityValues d' !! "measure_temperature"
    = Some (if JS.strict_eq_str (JS.prop payload "units") UNIT_CELSIUS
            then JS.prop payload "indoorTemperature"
            else JNum (HoneywellUtils.ftoc f)) /\
  (JS.hasOwn (changeableValues payload) "mode" = Ok true ->
   JS.hasOwn (changeableValues payload) "heatSetpoint" = Ok true ->
   JS.hasOwn (changeableValues payload) "coolSetpoint" = Ok true ->
   capabilityValues d' !! "target_temperature"
     = Some (JS.prop (changeableValues payload) "heatSetpoint") /\
   ("target_temperature.cool" ∈ capabilities d ->
    capabilityValues d' !! "target_temperature.cool"
      = Some (JS.prop (changeableValues payload) "coolSetpoint"))).
Proof.
  intros Hunits Hf d'.
  destruct (hasOwn_units_object payload Hunits) as (props & u & -> & Hu).
  assert (Hpu : JS.prop (JObj props) "units" = u) by (simpl; rewrite Hu; reflexivity).
  rewrite Hpu in *.
  destruct (parseMeasured_with_units props u f d Hu Hf)
    as (payload' & Hrun & Hcv & Hn).
  subst d'. unfold parse_steps, bind. rewrite Hrun.
  set (d1 := with_capabilityValues _ _).
  pose proof (touches_later_steps lower_unicode payload' d1) as (Hcaps & Hsets & _ & _ & Hvals).
  split; [|split].
  - rewrite Hsets. simpl. apply lookup_insert_eq.
  - rewrite Hvals by set_solver. simpl. apply lookup_insert_eq.
  - intros Hm Hh Hc. rewrite <- Hcv in Hm, Hh, Hc |- *.
    destruct (parseTarget_stores payload' d1 Hn Hm Hh Hc)
      as (d2 & Hrun2 & Hheat & Hcool & Hcaps2).
    assert (Hl : exists m : DM unit,
                   touches ["custom_thermostat_mode"; "custom_ac_mode"] m /\
                   later_steps lower_unicode payload' d1 = m d2).
    { eexists. split; [apply (touches_mode_steps lower_unicode payload')|].
      unfold later_steps, bind at 1. rewrite Hrun2. reflexivity. }
    destruct Hl as (m & Hm2 & ->).
    destruct (Hm2 d2) as (_ & _ & _ & _ & Hvals2).
    split.
    + rewrite Hvals2 by set_solver. exact Hheat.
    + intros Hin. rewrite Hvals2 by set_solver. apply Hcool. exact Hin.
Qed.

End ReconciliationProperties.

Section CycleProperties.

Variable ToNumber_coerce : value -> res float.
Variable API_KEY : string.
Variable api_get : string -> res value.
Variable lower_unicode : string -> string.

Local Abbreviation steps := (parse_steps ToNumber_coerce lower_unicode).
Local Abbreviation cycle :=
  (_fetchDeviceData ToNumber_coerce API_KEY api_get lower_unicode).


(** The fan part of a cycle touches the fan mode alone. *)
Lemma touches_fan_part :
  touches ["fan_mode"]
    (has_fan <- hasCapability "fan_mode" ;;
     if has_fan then fetch_fan API_KEY api_get else ret tt).
Proof.
  apply touches_bind; [auto with touches | intros has_fan].
  apply touches_if; [|auto with touches].
  unfold fetch_fan, getLocationId, _parseFanMode.
  apply touches_try_catch; [|intros e; auto with touches].
  repeat first
    [ apply touches_bind; [|intros ?]
    | apply touches_if
    | apply touches_getStoreValue
    | apply touches_reader
    | apply touches_setCapabilityValue; set_solver
    | solve [auto with touches] ].
Qed.

(** A cycle whose thermostat answer has [changeableValues] runs the parse
    steps on it, logs one line, and goes on to the fan part. *)
Lemma cycle_after_steps (payload : value) (d : device) :
  is_string (default JNull (store d !! "locationId")) = true ->
  is_string (data_id d) = true ->
  api_get (thermostat_path API_KEY (as_string (data_id d))
             (as_string (default JNull (store d !! "locationId")))) = Ok payload ->
  JS.hasOwn payload "changeableValues" = Ok true ->
  exists ev,
    cycle d =
      (has_fan <- hasCapability "fan_mode" ;;
       if has_fan then fetch_fan API_KEY api_get else ret tt)
        (with_event ev
           (snd (steps payload (with_event (DLog "_fetchDeviceData()") d)))).
Proof.
  intros Hloc Hid Hget Hcv.
  unfold _fetchDeviceData, fetch_thermostat, try_catch, getLocationId.
  unfold bind, emit, getStoreValue, lift, ret, throw. simpl.
  rewrite Hloc. simpl. unfold getDevice. rewrite Hid, Hloc. simpl.
  rewrite Hget, Hcv. simpl.
  destruct (steps payload (with_event (DLog "_fetchDeviceData()") d))
    as [[u|e] d1]; simpl; eexists; reflexivity.
Qed.

(** C6, as the code has it: in a reconciliation cycle whose thermostat
    answer has [changeableValues] and reports [units], the device's unit
    setting becomes the reported unit and the measured temperature is
    stored as reported when the unit is [Celsius] and converted from
    Fahrenheit to Celsius otherwise; when [changeableValues] has [mode],
    [heatSetpoint] and [coolSetpoint], the heat setpoint, and on a device
    with a cooling setpoint the cool setpoint, are stored exactly as
    reported, whatever the unit reported and whatever the unit setting of
    the device. *)
Theorem reconciliation_units (payload : value) (f : float) (d : device) :
  is_string (default JNull (store d !! "locationId")) = true ->
  is_string (data_id d) = true ->
  api_get (thermostat_path API_KEY (as_string (data_id d))
             (as_string (default JNull (store d !! "locationId")))) = Ok payload ->
  JS.hasOwn payload "changeableValues" = Ok true ->
  JS.hasOwn payload "units" = Ok true ->
  (JS.strict_eq_str (JS.prop payload "units") UNIT_CELSIUS = false ->
   ToNumber ToNumber_coerce (JS.prop payload "indoorTemperature") = Ok f) ->
  let d' := snd (cycle d) in
  settings d' !! "units" = Some (JS.prop payload "units") /\
  capabilityValues d' !! "measure_temperature"
    = Some (if JS.strict_eq_str (JS.prop payload "units") UNIT_CELSIUS
            then JS.prop payload "indoorTemperature"
            else JNum (HoneywellUtils.ftoc f)) /\
  (JS.hasOwn (changeableValues payload) "mode" = Ok true ->
   JS.hasOwn (changeableValues payload) "heatSetpoint" = Ok true ->
   JS.hasOwn (changeableValues payload) "coolSetpoint" = Ok true ->
   capabilityValues d' !! "target_temperature"
     = Some (JS.prop (changeableValues payload) "heatSetpoint") /\
   ("target_temperature.cool" ∈ capabilities d ->
    capabilityValues d' !! "target_temperature.cool"
      = Some (JS.prop (changeableValues payload) "coolSetpoint"))).
Proof.
  intros Hloc Hid Hget Hcv Hunits Hf d'.
  destruct (cycle_after_steps payload d Hloc Hid Hget Hcv) as (ev & Hrun).
  subst d'. rewrite Hrun.
  destruct (touches_fan_part
              (with_event ev
                 (snd (steps payload (with_event (DLog "_fetchDeviceData()") d)))))
    as (_ & Hsets & _ & _ & Hvals).
  destruct (parse_steps_units ToNumber_coerce lower_unicode payload f
              (with_event (DLog "_fetchDeviceData()") d) Hunits Hf)
    as (Hu & Hmeasured & Htargets).
  rewrite Hsets, !Hvals by set_solver. simpl.
  split; [exact Hu|]. split; [exact Hmeasured|].
  intros Hm Hh Hc. destruct (Htargets Hm Hh Hc) as (Hheat & Hcool).
  split; [exact Hheat | exact Hcool].
Qed.


End CycleProperties.


(** ** The scenarios, run *)

Lemma response_interpretation_witness :
  onHandleResponse sample_token sample_parse sample_classify
    response_204 sample_client = (Ok JUndefined, sample_client) /\
  onHandleResponse sample_token sample_parse sample_classify
    response_200_empty sample_client = (Ok (JObj []), sample_client) /\
  fst (onHandleResponse sample_token sample_parse sample_classify
         response_500_quota sample_client)
    = Throw (Error "Internal Server Error").
Proof.
  split; [|split].
  - destruct (response_interpretation sample_token sample_parse sample_classify
                response_204 sample_client) as (H204 & _).
    apply H204. reflexivity.
  - destruct (response_interpretation sample_token sample_parse sample_classify
                response_200_empty sample_client) as (_ & _ & _ & _ & _ & Hrun & _).
    apply Hrun. discriminate.
  - destruct (response_interpretation sample_token sample_parse sample_classify
                response_500_quota sample_client) as (_ & _ & _ & _ & _ & Hrun & _).
    apply Hrun. discriminate.
Defined.

(** The claim C4 fails on three responses with a JSON content type.  A
    success whose text does not parse returns no body: the parser's error
    is thrown.  A failure whose text does not parse throws that error
    too, and nothing is classified.  A failure whose text is the JSON
    [null] throws a [TypeError] from the rate-limit check, and nothing is
    classified either, though the base class would classify the body. *)
Lemma response_interpretation_counterexample :
  ok response_200_unparsable = true /\
  onHandleResponse sample_token literal_parse sample_classify
    response_200_unparsable sample_client = (Throw SyntaxError, sample_client) /\
  ok response_500_unparsable = false /\
  onHandleResponse sample_token literal_parse sample_classify
    response_500_unparsable sample_client = (Throw SyntaxError, sample_client) /\
  onHandleResponse sample_token literal_parse sample_classify
    response_500_null sample_client = (Throw TypeError, sample_client) /\
  sample_classify JNull 500%Z "Internal Server Error"
    = Some (Error "Internal Server Error").
Proof. vm_compute. repeat split; reflexivity. Qed.

(** A rate-limited answer: the notification is emitted before the base
    class classifies, and the error thrown is the classified one. *)
Example rate_limited_response :
  onHandleResponse sample_token sample_parse sample_classify
    response_500_quota sample_client =
    (Throw (Error "Internal Server Error"),
     {| _token := Some "refresh-1"; saved := Some "refresh-1";
        events := [CError "_detectRateLimit() -> API error:";
                   CEmit "rateLimited";
                   CSuperNotOK
                     (fault_body
                        (JStr "Rate limit quota violation. Quota limit exceeded."))] |}).
Proof. vm_compute. reflexivity. Qed.

Lemma token_refresh_witness :
  onRefreshToken sample_token sample_isRefreshable sample_refresh_token
    "id" "secret" (fun s => s) "https://api.honeywell.com/oauth2/token"
    (fun _ => Ok response_200_token) (fun _ => Ok "refresh-2") sample_client
  = (Ok (Some "refresh-2"),
     {| _token := Some "refresh-2"; saved := Some "refresh-2";
        events :=
          [CDebug "Refreshing token...";
           CFetch {| req_url := "https://api.honeywell.com/oauth2/token";
                     req_method := "POST";
                     req_body := [("grant_type", "refresh_token");
                                  ("refresh_token", "refresh-1")];
                     req_headers := [("Authorization", "Basic id:secret")] |};
           CDebug "Refreshed token!"] |}).
Proof.
  destruct (token_refresh sample_token sample_isRefreshable sample_refresh_token
              "id" "secret" (fun s => s) "https://api.honeywell.com/oauth2/token"
              (fun _ => Ok response_200_token) (fun _ => Ok "refresh-2")
              sample_client) as (_ & _ & Hsuccess).
  destruct (Hsuccess "refresh-1" response_200_token "refresh-2") as (Hrun & _);
    [reflexivity | reflexivity | reflexivity | reflexivity | reflexivity |].
  exact Hrun.
Defined.

Lemma aliveness_edges_witness :
  In (DSetUnavailable "unavailable")
     (journal_since sample_device
        (snd (_parseAlive payload_without_changeableValues sample_device))) /\
  transitions
    (journal_since
       (snd (_parseAlive payload_without_changeableValues sample_device))
       (snd (_parseAlive payload_without_changeableValues
               (snd (_parseAlive payload_without_changeableValues sample_device)))))
    = [].
Proof.
  destruct (aliveness_edges payload_without_changeableValues
              payload_without_changeableValues sample_device)
    as (_ & Hdown & _ & _ & _ & Hsecond & _);
    [reflexivity | reflexivity | reflexivity |].
  split; [apply Hdown; split; reflexivity | exact Hsecond].
Defined.

Lemma reconciliation_units_witness :
  let d' := snd (_fetchDeviceData no_coercion "key" (fun _ => Ok payload_fahrenheit)
                   no_unicode sample_device) in
  capabilityValues d' !! "measure_temperature" = Some (JNum 0%float) /\
  settings d' !! "units" = Some (JStr "Fahrenheit") /\
  capabilityValues d' !! "target_temperature" = Some (JNum 20%float).
Proof.
  destruct (reconciliation_units no_coercion "key" (fun _ => Ok payload_fahrenheit)
              no_unicode payload_fahrenheit 32%float sample_device)
    as (Hunits & Hmeasured & Htarget);
    [reflexivity | reflexivity | reflexivity | reflexivity | reflexivity
    | reflexivity |].
  split; [exact Hmeasured | split; [exact Hunits|]].
  apply Htarget; reflexivity.
Defined.

(** The claim C6 fails on two cycles of the sample device, which is set
    to Celsius and holds 19 degrees.  An answer in Fahrenheit without
    [changeableValues] stops the cycle at its guard: the unit setting is
    not updated and the reported temperature is not stored.  An answer
    whose [changeableValues] has both setpoints but no [mode] stores
    neither setpoint, though the measured temperature is stored. *)
Lemma reconciliation_units_counterexample :
  (let d' := snd (_fetchDeviceData no_coercion "key"
                    (fun _ => Ok payload_fahrenheit_without_changeableValues)
                    no_unicode sample_device) in
   JS.prop payload_fahrenheit_without_changeableValues "units" = JStr "Fahrenheit" /\
   settings d' !! "units" = Some (JStr "Celsius") /\
   capabilityValues d' !! "measure_temperature" = Some (JNum 19%float)) /\
  (let d' := snd (_fetchDeviceData no_coercion "key"
                    (fun _ => Ok payload_without_mode) no_unicode sample_device) in
   JS.prop (changeableValues payload_without_mode) "heatSetpoint" = JNum 22%float /\
   capabilityValues d' !! "measure_temperature" = Some (JNum 21.5%float) /\
   capabilityValues d' !! "target_temperature" = None).
Proof.
  split; vm_compute; repeat split; reflexivity.
Qed.


(** * Further properties *)

(** ** The OAuth2 client *)

Section MoreClientProperties.

Variable Token : Type.
Variable isRefreshable : Token -> bool.
Variable refresh_token : Token -> string.
Variable API_KEY : string.
Variable API_SECRET : string.
Variable base64 : string -> string.
Variable JSON_parse : string -> option value.
Variable super_onHandleNotOK : value -> Z -> string -> option exn.
Variable tokenUrl : string.
Variable fetch : request -> res raw_response.
Variable onHandleRefreshTokenResponse : raw_response -> res Token.
Variable res_json : raw_response -> res value.
Variable new_OAuth2Token : value -> Token.

Local Abbreviation detect := (_detectRateLimit Token).
Local Abbreviation notOK := (onHandleNotOK Token super_onHandleNotOK).
Local Abbreviation handle := (onHandleResponse Token JSON_parse super_onHandleNotOK).
Local Abbreviation decode := (decode_body JSON_parse).
Local Abbreviation refresh :=
  (onRefreshToken Token isRefreshable refresh_token API_KEY API_SECRET base64
     tokenUrl fetch onHandleRefreshTokenResponse).
Local Abbreviation refresh_rq :=
  (refresh_request Token refresh_token API_KEY API_SECRET base64 tokenUrl).
Local Abbreviation by_code :=
  (onGetTokenByCode Token API_KEY API_SECRET base64 tokenUrl fetch res_json
     new_OAuth2Token).
Local Abbreviation code_rq := (code_request API_KEY API_SECRET base64 tokenUrl).

(** X1: A refresh either succeeds, and then the token stored, the token saved
    and the token returned are the same new token, or it throws, and then
    the stored and the saved token are the ones from before. *)
Theorem refresh_replaces_or_keeps (c : client Token) :
  match refresh c with
  | (Ok r, c') => exists t', r = Some t' /\ _token c' = Some t' /\ saved c' = Some t'
  | (Throw _, c') => _token c' = _token c /\ saved c' = saved c
  end.
Proof.
  unfold onRefreshToken, bind, getToken, record, lift, set_token, save, throw.
  destruct (_token c) as [t|] eqn:Ht; simpl; [|rewrite Ht; auto].
  destruct (isRefreshable t); simpl; [|rewrite Ht; auto].
  destruct (fetch _) as [resp|e]; simpl; [|rewrite Ht; auto].
  destruct (ok resp); simpl; [|rewrite Ht; auto].
  destruct (onHandleRefreshTokenResponse resp) as [t'|e]; simpl;
    [eauto | rewrite Ht; auto].
Qed.

(** X2: A refresh answered with a failure status throws a plain [Error]
    naming the status, after the request was sent. *)
Theorem refresh_rejected (c : client Token) (t : Token) (resp : raw_response) :
  _token c = Some t -> isRefreshable t = true ->
  fetch (refresh_rq t) = Ok resp -> ok resp = false ->
  refresh c =
    (Throw (Error ("Invalid Response (" ++ pretty (status resp) ++ ")")),
     record_event (CFetch (refresh_rq t))
       (record_event (CDebug "Refreshing token...") c)).
Proof.
  intros Ht Hr Hf Hok.
  unfold onRefreshToken, bind, getToken, record, lift, throw.
  rewrite Ht. simpl. rewrite Hr. simpl. rewrite Hf. simpl. rewrite Hok.
  reflexivity.
Qed.

(** X3: On a failing response the error of the classification is thrown
    unless the detector itself fails: for the body [null], a [fault] that
    is [null], or a [faultstring] that is neither string nor array, the
    interpreter throws a [TypeError] and the base class never classifies. *)
Theorem classification_or_type_error (body : value) (st : Z) (tx : string)
    (c : client Token) :
  fst (notOK body st tx c) =
    (if detection_fails body then Throw TypeError
     else Ok (super_onHandleNotOK body st tx)) /\
  (In (CSuperNotOK body) (events_since c (snd (notOK body st tx c)))
     <-> detection_fails body = false).
Proof.
  destruct (detect_outcome Token body c) as (evs & Hd & Hnot).
  unfold onHandleNotOK, bind, record, ret. rewrite Hd.
  destruct (detection_fails body); simpl.
  - split; [reflexivity|]. rewrite events_since_app.
    split; [intros H; destruct (Hnot body H) | discriminate].
  - split; [reflexivity|].
    unfold events_since; simpl. rewrite <- app_assoc, drop_app_length.
    split; [reflexivity|]. intros _. apply in_or_app. right. left. reflexivity.
Qed.

Lemma notOK_emits (body : value) (st : Z) (tx : string) (c : client Token) :
  In (CEmit "rateLimited") (events_since c (snd (notOK body st tx c)))
  <-> has_quota_fault body = true.
Proof.
  unfold onHandleNotOK, bind, record, ret.
  destruct (has_quota_fault body) eqn:Hq.
  - rewrite (detect_signature Token body c Hq). simpl.
    unfold events_since; simpl. rewrite <- app_assoc, drop_app_length.
    split; [reflexivity|]. intros _. right. left. reflexivity.
  - destruct (detect_no_signature Token body c Hq) as (r & evs & -> & _ & Hn).
    split; [|discriminate]. intros Hin. exfalso.
    destruct r as [b|e]; simpl in Hin.
    + unfold events_since in Hin; simpl in Hin.
      rewrite <- app_assoc, drop_app_length in Hin.
      apply in_app_or in Hin. destruct Hin as [Hin|[Hin|[]]];
        [contradiction | discriminate].
    + rewrite events_since_app in Hin. contradiction.
Qed.

(** X4: The interpreter emits the rate-limit notification exactly for the
    responses that are not 204, have failed and decode to a body with the
    quota fault; so never on a success, and never for a body that is not
    declared as JSON, whatever its text. *)
Theorem rate_limit_needs_failed_json (r : raw_response) (c : client Token) :
  (In (CEmit "rateLimited") (events_since c (snd (handle r c)))
   <-> status r <> 204%Z /\ ok r = false /\
       exists body,
         decode (headers_get r "Content-Type") (response_text r) = Ok body /\
         has_quota_fault body = true) /\
  (json_content_type r = false ->
   ~ In (CEmit "rateLimited") (events_since c (snd (handle r c)))).
Proof.
  assert (Hiff : In (CEmit "rateLimited") (events_since c (snd (handle r c)))
            <-> status r <> 204%Z /\ ok r = false /\
                exists body,
                  decode (headers_get r "Content-Type") (response_text r) = Ok body /\
                  has_quota_fault body = true).
  { destruct (Z.eq_dec (status r) 204%Z) as [Hs|Hs].
    { unfold onHandleResponse. rewrite Hs. simpl. rewrite events_since_refl.
      split; [intros [] | intros (Hne & _); contradiction]. }
    destruct (decode (headers_get r "Content-Type") (response_text r))
      as [body|e] eqn:Hd.
    2:{ unfold onHandleResponse.
        destruct (Z.eqb_spec (status r) 204); [contradiction|].
        unfold bind, lift. rewrite Hd. simpl. rewrite events_since_refl.
        split; [intros [] | intros (_ & _ & body & Hb & _); discriminate]. }
    destruct (ok r) eqn:Hok.
    { unfold onHandleResponse.
      destruct (Z.eqb_spec (status r) 204); [contradiction|].
      unfold bind, lift. rewrite Hd, Hok. simpl. rewrite events_since_refl.
      split; [intros [] | intros (_ & Hf & _); discriminate]. }
    rewrite (handle_failed Token JSON_parse super_onHandleNotOK r c body Hs Hd Hok).
    simpl. rewrite notOK_emits.
    split.
    - intros Hq. split; [exact Hs|]. split; [reflexivity|]. eauto.
    - intros (_ & _ & body' & [= <-] & Hq). exact Hq. }
  split; [exact Hiff|].
  intros Hct Hin. apply Hiff in Hin. destruct Hin as (_ & _ & body & Hd & Hq).
  unfold json_content_type in Hct. unfold decode_body in Hd.
  destruct (headers_get r "Content-Type") as [ct|].
  - rewrite Hct in Hd. injection Hd as <-. discriminate.
  - injection Hd as <-. discriminate.
Qed.

(** X5: The code exchange authenticates like a refresh, to the same URL; it
    neither stores nor saves a token; and it wraps whatever body the token
    endpoint answers into a token, without looking at the status. *)
Theorem code_exchange (code : string) (c : client Token) :
  (forall t, req_headers (code_rq code) = req_headers (refresh_rq t) /\
             req_url (code_rq code) = req_url (refresh_rq t)) /\
  _token (snd (by_code code c)) = _token c /\
  saved (snd (by_code code c)) = saved c /\
  events (snd (by_code code c)) = events c ++ [CFetch (code_rq code)] /\
  (forall resp body,
     fetch (code_rq code) = Ok resp -> res_json resp = Ok body ->
     fst (by_code code c) = Ok (new_OAuth2Token body)).
Proof.
  split; [intros t; split; reflexivity|].
  unfold onGetTokenByCode, bind, record, lift, ret. simpl.
  destruct (fetch (code_rq code)) as [resp|e] eqn:Hf; simpl.
  - destruct (res_json resp) as [body|e] eqn:Hj; simpl;
      repeat split; try reflexivity;
      intros resp' body' [= <-] Hb; congruence.
  - repeat split; try reflexivity. intros resp body H. discriminate.
Qed.

End MoreClientProperties.

(** ** The API client *)

Lemma hasOwn_deviceID_object (v : value) :
  JS.hasOwn v "deviceID" = Ok true -> exists props, v = JObj props.
Proof.
  destruct v as [| | | |s|props|l]; simpl; intros H; try discriminate; eauto.
Qed.

Section MoreApiClientProperties.

Variable API_KEY : string.
Variable api_get : string -> res value.
Variable api_post : string -> write_command -> res value.

Local Abbreviation get_device := (getDevice API_KEY api_get).
Local Abbreviation get_fan := (getFan API_KEY api_get).
Local Abbreviation device_data := (_getDeviceData API_KEY api_get).
Local Abbreviation send := (_sendThermostatData API_KEY api_get api_post).
Local Abbreviation set_thermostat := (setThermostat API_KEY api_get api_post).
Local Abbreviation resume := (resumeSchedule API_KEY api_get api_post).

(** X6: The four public calls check their ids before anything else, the
    device id first: with an id that is not a string they throw the same
    error whatever the transport would answer. *)
Theorem ids_checked_first (a : thermostat_args) :
  (is_string (arg_deviceId a) = false ->
     get_device (arg_locationId a) (arg_deviceId a) = Throw (Error "invalid_device_id") /\
     get_fan (arg_locationId a) (arg_deviceId a) = Throw (Error "invalid_device_id") /\
     set_thermostat a = Throw (Error "invalid_device_id") /\
     resume (arg_locationId a) (arg_deviceId a) = Throw (Error "invalid_device_id")) /\
  (is_string (arg_deviceId a) = true -> is_string (arg_locationId a) = false ->
     get_device (arg_locationId a) (arg_deviceId a) = Throw (Error "invalid_location_id") /\
     get_fan (arg_locationId a) (arg_deviceId a) = Throw (Error "invalid_location_id") /\
     set_thermostat a = Throw (Error "invalid_location_id") /\
     resume (arg_locationId a) (arg_deviceId a) = Throw (Error "invalid_location_id")).
Proof.
  unfold getDevice, getFan, setThermostat, resumeSchedule.
  split.
  - intros ->. repeat split.
  - intros -> ->. repeat split.
Qed.

(** X7: What [_getDeviceData] hands on is never falsy and owns [deviceID] and
    [changeableValues]; when it throws, the error is the transport's or
    [invalid_device_properties], never a [TypeError] of its own checks. *)
Theorem device_data_checked (locationId deviceId : value) :
  match device_data locationId deviceId with
  | Ok d =>
      get_device locationId deviceId = Ok d /\
      JS.ToBoolean d = true /\
      JS.hasOwn d "deviceID" = Ok true /\
      JS.hasOwn d "changeableValues" = Ok true
  | Throw e =>
      get_device locationId deviceId = Throw e \/
      (e = Error "invalid_device_properties" /\
       exists d, get_device locationId deviceId = Ok d /\
                 (JS.ToBoolean d = false \/ JS.hasOwn d "deviceID" = Ok false
                  \/ JS.hasOwn d "changeableValues" = Ok false))
  end.
Proof.
  unfold _getDeviceData.
  destruct (get_device locationId deviceId) as [d|e]; simpl; [|auto].
  destruct (JS.ToBoolean d) eqn:Ht; simpl; [|right; eauto 6].
  assert (Hn : JS.nullish d = false) by (destruct d; try discriminate; reflexivity).
  destruct (hasOwn_total d "deviceID" Hn) as [b Hb]. rewrite Hb. simpl.
  destruct b; simpl; [|right; eauto 7].
  destruct (hasOwn_total d "changeableValues" Hn) as [b' Hb']. rewrite Hb'. simpl.
  destruct b'; simpl; [auto | right; eauto 8].
Qed.

Lemma device_data_ok (locationId deviceId d : value) :
  get_device locationId deviceId = Ok d ->
  JS.hasOwn d "deviceID" = Ok true ->
  JS.hasOwn d "changeableValues" = Ok true ->
  device_data locationId deviceId = Ok d /\ JS.nullish d = false.
Proof.
  intros Hg Hid Hcv. destruct (hasOwn_deviceID_object d Hid) as [props ->].
  unfold _getDeviceData. rewrite Hg. simpl in *.
  destruct (JS.assoc "deviceID" props); [|discriminate].
  destruct (JS.assoc "changeableValues" props); [|discriminate].
  split; reflexivity.
Qed.

(** X8: Resuming the schedule posts the status [NoHold] without a
    [nextPeriodTime], together with the mode and the setpoints of the
    device data just fetched. *)
Theorem resume_schedule_command (locationId deviceId d : value) :
  is_string deviceId = true -> is_string locationId = true ->
  get_device locationId deviceId = Ok d ->
  JS.hasOwn d "deviceID" = Ok true ->
  JS.hasOwn d "changeableValues" = Ok true ->
  JS.nullish (changeableValues d) = false ->
  resume locationId deviceId =
    api_post (thermostat_path API_KEY (as_string deviceId) (as_string locationId))
      {| json_mode := JS.prop (changeableValues d) "mode";
         json_heatSetpoint := JS.prop (changeableValues d) "heatSetpoint";
         json_coolSetpoint := JS.prop (changeableValues d) "coolSetpoint";
         json_thermostatSetpointStatus := JStr "NoHold";
         json_autoChangeoverActive :=
           (if is_boolean (JS.prop (changeableValues d) "autoChangeoverActive")
            then Some (JS.prop (changeableValues d) "autoChangeoverActive")
            else None);
         json_nextPeriodTime := None |}.
Proof.
  intros Hdev Hloc Hg Hid Hcv Hn.
  destruct (device_data_ok locationId deviceId d Hg Hid Hcv) as [Hdata Hd].
  unfold resumeSchedule, _sendThermostatData. rewrite Hdev, Hloc. simpl.
  rewrite Hdata. simpl.
  rewrite (thermostat_json_closed_form _ d Hd Hn). reflexivity.
Qed.


(** X10: A falsy argument counts as not supplied: a setpoint of [0] or [NaN],
    or an empty mode, is replaced by the value of the device data. *)
Theorem falsy_argument_falls_back (a : thermostat_args) (d : value) :
  JS.nullish d = false -> JS.nullish (changeableValues d) = false ->
  exists json,
    thermostat_json a d = Ok json /\
    (JS.ToBoolean (arg_mode a) = false ->
     json_mode json = JS.prop (changeableValues d) "mode") /\
    (JS.ToBoolean (arg_heatSetpoint a) = false ->
     json_heatSetpoint json = JS.prop (changeableValues d) "heatSetpoint") /\
    (JS.ToBoolean (arg_coolSetpoint a) = false ->
     json_coolSetpoint json = JS.prop (changeableValues d) "coolSetpoint").
Proof.
  intros Hd Hn. eexists. split; [apply thermostat_json_closed_form; assumption|].
  simpl. unfold JS.or. repeat split; intros ->; reflexivity.
Qed.

(** X11: Device data whose [changeableValues] is [null] passes the checks of
    [_getDeviceData] and then makes the composition throw a [TypeError]:
    nothing is posted, whatever was to be written. *)
Theorem null_changeableValues_throws (a : thermostat_args) (d : value) :
  device_data (arg_locationId a) (arg_deviceId a) = Ok d ->
  JS.nullish (changeableValues d) = true ->
  send a = Throw TypeError.
Proof.
  intros Hdata Hn. unfold _sendThermostatData. rewrite Hdata. simpl.
  assert (Hc : forall k, changeable d k = Throw TypeError).
  { intros k. unfold changeable, JS.get.
    destruct (JS.nullish d); simpl; [reflexivity|].
    unfold changeableValues in Hn. rewrite Hn. reflexivity. }
  unfold thermostat_json, merged_json, or_else. rewrite !Hc.
  destruct (JS.ToBoolean (arg_mode a)); simpl; [|reflexivity].
  destruct (JS.ToBoolean (arg_heatSetpoint a)); simpl; [|reflexivity].
  destruct (JS.ToBoolean (arg_coolSetpoint a)); simpl; [|reflexivity].
  destruct (JS.ToBoolean (arg_thermostatSetpointStatus a)); simpl; [|reflexivity].
  unfold copy_autoChangeover. rewrite Hc. reflexivity.
Qed.

End MoreApiClientProperties.

(** ** The device: the poll cycle *)

Lemma try_catch_returns {S A} (m : M S A) (h : exn -> M S A) :
  (forall e s, exists a s', h e s = (Ok a, s')) ->
  forall s, exists a s', try_catch m h s = (Ok a, s').
Proof.
  intros Hh s. unfold try_catch. destruct (m s) as [[a|e] s']; [eauto|].
  apply Hh.
Qed.

Section PollProperties.

Variable ToNumber_coerce : value -> res float.
Variable API_KEY : string.
Variable api_get : string -> res value.
Variable lower_unicode : string -> string.

Local Abbreviation cycle :=
  (_fetchDeviceData ToNumber_coerce API_KEY api_get lower_unicode).
Local Abbreviation thermostat :=
  (fetch_thermostat ToNumber_coerce API_KEY api_get lower_unicode).
Local Abbreviation fan := (fetch_fan API_KEY api_get).

Lemma fetch_thermostat_returns (d : device) :
  exists c d', thermostat d = (Ok c, d').
Proof.
  apply try_catch_returns. intros e s. eexists _, _. reflexivity.
Qed.

Lemma fetch_fan_returns (d : device) : exists d', fan d = (Ok tt, d').
Proof.
  destruct (try_catch_returns
              (locationId <- getLocationId ;;
               deviceId <- (fun d => (Ok (data_id d), d)) ;;
               deviceData <- lift (getFan API_KEY api_get locationId deviceId) ;;
               _parseFanMode deviceData ;;;
               emit (DLog "_fetchFanData() -> completed"))
              (fun err => emit (DError "_fetchFanData() -> failed to get fan"))
              ltac:(intros e s; eexists _, _; reflexivity) d) as ([] & d' & H).
  exists d'. exact H.
Qed.

(** X12: The poll never throws: whatever the API answers and whatever state
    the device is in, [_fetchDeviceData] returns. *)
Theorem poll_never_throws (d : device) : fst (cycle d) = Ok tt.
Proof.
  unfold _fetchDeviceData, bind, emit. simpl.
  destruct (fetch_thermostat_returns (with_event (DLog "_fetchDeviceData()") d))
    as (c & d1 & ->).
  destruct c; simpl; [|reflexivity].
  unfold hasCapability.
  destruct (bool_decide ("fan_mode" ∈ capabilities d1)); simpl; [|reflexivity].
  destruct (fetch_fan_returns d1) as (d2 & ->). reflexivity.
Qed.

End PollProperties.

(** ** The device: the write entry point, once more *)

Section MoreWriteProperties.

Variable ToNumber_coerce : value -> res float.
Variable API_KEY : string.
Variable api_get : string -> res value.
Variable api_post : string -> write_command -> res value.

Local Abbreviation build_args := (setThermostat_args ToNumber_coerce).
Local Abbreviation on_capabilities :=
  (onMultipleCapabilities ToNumber_coerce API_KEY api_get api_post).

Lemma converted_or_number (units fallback : value) (t : float) :
  converted_or units (JNum t) fallback = JNum (to_device_unit units t).
Proof. reflexivity. Qed.

Lemma converted_or_other (units v fallback : value) :
  is_number v = false -> converted_or units v fallback = fallback.
Proof. destruct v; simpl; try reflexivity. discriminate. Qed.

(** The request of the entry point, in closed form. *)
Lemma setThermostat_args_closed_form (cv : value) (d : device) :
  JS.nullish cv = false ->
  let stored k := default JNull (capabilityValues d !! k) in
  let has c := bool_decide (c ∈ capabilities d) in
  let heat := JS.prop cv "target_temperature" in
  let cool := JS.prop cv "target_temperature.cool" in
  let thermostat_mode := JS.prop cv "custom_thermostat_mode" in
  build_args cv d =
    (if is_string (default JNull (store d !! "locationId")) then
       Ok {| arg_locationId := default JNull (store d !! "locationId");
             arg_deviceId := data_id d;
             arg_mode :=
               requested_mode (has "custom_thermostat_mode") (has "custom_ac_mode")
                 thermostat_mode (JS.prop cv "custom_ac_mode");
             arg_heatSetpoint :=
               converted_or (units_setting d) heat (stored "target_temperature");
             arg_coolSetpoint :=
               if has "target_temperature.cool"
               then converted_or (units_setting d) cool
                                 (stored "target_temperature.cool")
               else stored "target_temperature";
             arg_thermostatSetpointStatus :=
               if is_number heat || (has "target_temperature.cool" && is_number cool)
               then JStr "HoldUntil" else JStr "PermanentHold" |}
     else Throw (Error "invalid_location_id_in_store"),
     if has "custom_thermostat_mode" && is_string thermostat_mode
     then with_event (DTrigger "thermostat_mode_changed"
                        (JS.or thermostat_mode (JStr "heat"))) d
     else d).
Proof.
  intros Hn. cbv zeta.
  unfold setThermostat_args, getLocationId, requested_mode.
  unfold bind, getCapabilityValue, hasCapability, lift, ret, emit,
    getStoreValue, throw.
  rewrite !(get_prop cv _ Hn).
  destruct (bool_decide ("target_temperature.cool" ∈ capabilities d));
    destruct (is_number_cases (JS.prop cv "target_temperature")) as [[t Ht]|Hh];
    rewrite ?Ht, ?Hh, ?converted_or_number, ?(converted_or_other _ _ _ Hh);
    simpl; rewrite ?transformTemperature_number.
  all: destruct (is_number_cases (JS.prop cv "target_temperature.cool"))
         as [[t' Ht']|Hc];
       rewrite ?Ht', ?Hc, ?converted_or_number, ?(converted_or_other _ _ _ Hc);
       simpl; rewrite ?transformTemperature_number.
  all: destruct (bool_decide ("custom_thermostat_mode" ∈ capabilities d));
       destruct (is_string (JS.prop cv "custom_thermostat_mode")); simpl;
       destruct (bool_decide ("custom_ac_mode" ∈ capabilities d)); simpl;
       destruct (is_string (default JNull (store d !! "locationId")));
       simpl; try reflexivity.
  all: destruct (is_string (JS.prop cv "custom_ac_mode")); reflexivity.
Qed.

(** Device data that [_getDeviceData] hands on was fetched with string
    ids and is not nullish. *)
Lemma device_data_ids (locationId deviceId snapshot : value) :
  _getDeviceData API_KEY api_get locationId deviceId = Ok snapshot ->
  is_string deviceId = true /\ is_string locationId = true /\
  JS.nullish snapshot = false.
Proof.
  unfold _getDeviceData, getDevice. intros H.
  destruct (is_string deviceId); simpl in H; [|discriminate].
  destruct (is_string locationId); simpl in H; [|discriminate].
  split; [reflexivity|]. split; [reflexivity|].
  destruct (api_get _) as [dd|]; simpl in H; [|discriminate].
  destruct (JS.ToBoolean dd) eqn:Hb; simpl in H; [|discriminate].
  destruct (JS.hasOwn dd "deviceID") as [[]|]; simpl in H; try discriminate.
  destruct (JS.hasOwn dd "changeableValues") as [[]|]; simpl in H;
    try discriminate.
  injection H as <-. destruct dd; try discriminate; reflexivity.
Qed.

(** C10, as the code has it: when the capability listener is given a
    numeric heat setpoint, or a numeric cool setpoint on a device that has
    the cooling setpoint, and the device data fetched for the write is
    valid, the command it posts carries that setpoint converted from
    Celsius to Fahrenheit when the device's [units] setting is a string
    other than [Celsius], and unchanged under [Celsius] or a setting that
    is not a string, provided the value to send is truthy. *)
Theorem setpoint_write_conversion (cv snapshot : value) (d : device) :
  let location := default JNull (store d !! "locationId") in
  let units := units_setting d in
  JS.nullish cv = false ->
  _getDeviceData API_KEY api_get location (data_id d) = Ok snapshot ->
  JS.nullish (changeableValues snapshot) = false ->
  exists json,
    fst (on_capabilities cv d)
      = api_post (thermostat_path API_KEY (as_string (data_id d))
                    (as_string location)) json /\
    (forall t, JS.prop cv "target_temperature" = JNum t ->
       JS.num_truthy (to_device_unit units t) = true ->
       json_heatSetpoint json = JNum (to_device_unit units t)) /\
    (forall t, "target_temperature.cool" ∈ capabilities d ->
       JS.prop cv "target_temperature.cool" = JNum t ->
       JS.num_truthy (to_device_unit units t) = true ->
       json_coolSetpoint json = JNum (to_device_unit units t)) /\
    (forall t, is_string units = true -> units <> JStr UNIT_CELSIUS ->
       to_device_unit units t = HoneywellUtils.ctof t) /\
    (forall t, units = JStr UNIT_CELSIUS \/ is_string units = false ->
       to_device_unit units t = t).
Proof.
  intros location units Hn Hdata Hcv. subst location units.
  destruct (device_data_ids _ _ _ Hdata) as (Hid & Hloc & Hsn).
  unfold onMultipleCapabilities, bind, lift.
  rewrite (setThermostat_args_closed_form cv d Hn), Hloc.
  unfold setThermostat, _sendThermostatData.
  cbn [arg_deviceId arg_locationId fst snd]. rewrite Hid, Hloc.
  cbn [negb]. cbv iota. rewrite Hdata. cbn [res_bind].
  rewrite (thermostat_json_closed_form _ snapshot Hsn Hcv). cbn [res_bind].
  eexists. split; [reflexivity|].
  cbn [json_heatSetpoint json_coolSetpoint arg_heatSetpoint arg_coolSetpoint].
  split; [|split; [|split]].
  - intros t Ht Htruthy. rewrite Ht, converted_or_number.
    unfold JS.or. cbn [JS.ToBoolean]. rewrite Htruthy. reflexivity.
  - intros t Hin Ht Htruthy.
    rewrite (bool_decide_eq_true_2 _ Hin), Ht, converted_or_number.
    unfold JS.or. cbn [JS.ToBoolean]. rewrite Htruthy. reflexivity.
  - intros t. apply to_device_unit_fahrenheit.
  - intros t. apply to_device_unit_celsius.
Qed.

(** X14: The entry point requests [HoldUntil] exactly when a numeric setpoint
    is supplied and [PermanentHold] otherwise; a setpoint that is not
    supplied is sent as stored; and a device without a cooling setpoint
    sends its stored heat setpoint as cool setpoint, also when a new heat
    setpoint is supplied. *)
Theorem write_request_setpoints (cv : value) (d : device) :
  JS.nullish cv = false ->
  is_string (default JNull (store d !! "locationId")) = true ->
  exists args d',
    build_args cv d = (Ok args, d') /\
    (arg_thermostatSetpointStatus args = JStr "HoldUntil"
     <-> is_number (JS.prop cv "target_temperature") = true
         \/ ("target_temperature.cool" ∈ capabilities d
             /\ is_number (JS.prop cv "target_temperature.cool") = true)) /\
    (arg_thermostatSetpointStatus args <> JStr "HoldUntil" ->
     arg_thermostatSetpointStatus args = JStr "PermanentHold") /\
    (is_number (JS.prop cv "target_temperature") = false ->
     arg_heatSetpoint args
       = default JNull (capabilityValues d !! "target_temperature")) /\
    ("target_temperature.cool" ∉ capabilities d ->
     arg_coolSetpoint args
       = default JNull (capabilityValues d !! "target_temperature")) /\
    ("target_temperature.cool" ∈ capabilities d ->
     is_number (JS.prop cv "target_temperature.cool") = false ->
     arg_coolSetpoint args
       = default JNull (capabilityValues d !! "target_temperature.cool")).
Proof.
  clear API_KEY api_get api_post.
  intros Hn Hloc. rewrite (setThermostat_args_closed_form cv d Hn), Hloc.
  eexists _, _. split; [reflexivity|]. simpl.
  destruct (bool_decide_reflect ("target_temperature.cool" ∈ capabilities d))
    as [Hin|Hout];
    destruct (is_number (JS.prop cv "target_temperature")) eqn:Hh;
    destruct (is_number (JS.prop cv "target_temperature.cool")) eqn:Hc;
    simpl; rewrite ?(converted_or_other _ _ _ Hh), ?(converted_or_other _ _ _ Hc);
    intuition (try discriminate; try congruence; auto).
Qed.

(** X15: The mode of the request: an AC mode is sent as given and wins over a
    thermostat mode; the thermostat mode [heat], or the empty string, is
    sent as [Heat] and any other as [Off]; without either the request has
    no mode of its own. *)
Theorem write_request_mode (cv : value) (d : device) :
  JS.nullish cv = false ->
  is_string (default JNull (store d !! "locationId")) = true ->
  exists args d',
    build_args cv d = (Ok args, d') /\
    (forall s, "custom_ac_mode" ∈ capabilities d ->
       JS.prop cv "custom_ac_mode" = JStr s -> arg_mode args = JStr s) /\
    (forall s,
       ("custom_ac_mode" ∉ capabilities d
        \/ is_string (JS.prop cv "custom_ac_mode") = false) ->
       "custom_thermostat_mode" ∈ capabilities d ->
       JS.prop cv "custom_thermostat_mode" = JStr s ->
       arg_mode args = if String.eqb s "heat" || String.eqb s ""
                       then JStr "Heat" else JStr "Off") /\
    (("custom_ac_mode" ∉ capabilities d
      \/ is_string (JS.prop cv "custom_ac_mode") = false) ->
     ("custom_thermostat_mode" ∉ capabilities d
      \/ is_string (JS.prop cv "custom_thermostat_mode") = false) ->
     arg_mode args = JUndefined).
Proof.
  intros Hn Hloc. rewrite (setThermostat_args_closed_form cv d Hn), Hloc.
  eexists _, _. split; [reflexivity|]. simpl. unfold requested_mode.
  assert (Hoff : ("custom_ac_mode" ∉ capabilities d
                  \/ is_string (JS.prop cv "custom_ac_mode") = false) ->
                 bool_decide ("custom_ac_mode" ∈ capabilities d)
                   && is_string (JS.prop cv "custom_ac_mode") = false).
  { intros [H|H]; [rewrite (bool_decide_eq_false_2 _ H) | rewrite H];
      [reflexivity | apply andb_false_r]. }
  split; [|split].
  - intros s Hin Hs. rewrite (bool_decide_eq_true_2 _ Hin), Hs. reflexivity.
  - intros s Hac Hin Hs. rewrite (Hoff Hac), (bool_decide_eq_true_2 _ Hin), Hs.
    simpl. unfold JS.or. simpl.
    destruct s as [|a s]; simpl; [reflexivity|].
    rewrite orb_false_r. reflexivity.
  - intros Hac Hth. rewrite (Hoff Hac).
    destruct Hth as [H|H];
      [rewrite (bool_decide_eq_false_2 _ H) | rewrite H, andb_false_r];
      reflexivity.
Qed.

(** X16: The Flow trigger of a thermostat mode write fires before the write is
    attempted: it is in the journal whatever the API answers, and also
    when the write throws because the store has no location id. *)
Theorem mode_trigger_precedes_write (cv : value) (d : device) :
  JS.nullish cv = false ->
  "custom_thermostat_mode" ∈ capabilities d ->
  is_string (JS.prop cv "custom_thermostat_mode") = true ->
  journal_since d (snd (on_capabilities cv d))
    = [DTrigger "thermostat_mode_changed"
         (JS.or (JS.prop cv "custom_thermostat_mode") (JStr "heat"))] /\
  (is_string (default JNull (store d !! "locationId")) = false ->
   fst (on_capabilities cv d) = Throw (Error "invalid_location_id_in_store")).
Proof.
  intros Hn Hin Hs. unfold onMultipleCapabilities, bind.
  rewrite (setThermostat_args_closed_form cv d Hn).
  rewrite (bool_decide_eq_true_2 _ Hin), Hs. simpl.
  destruct (is_string (default JNull (store d !! "locationId"))); simpl.
  - split; [|discriminate]. apply journal_since_app. reflexivity.
  - split; [|reflexivity]. apply journal_since_app. reflexivity.
Qed.

End MoreWriteProperties.

(** ** The device: single parse steps *)

Lemma changeableValues_object (payload : value) (k : string) (b : bool) :
  JS.hasOwn (changeableValues payload) k = Ok b ->
  JS.nullish payload = false /\ default_object payload = payload /\
  JS.nullish (changeableValues payload) = false.
Proof.
  intros H. pose proof (hasOwn_true_nullish _ _ _ H) as Hcv.
  destruct payload; simpl in *; try discriminate; auto.
Qed.

(** X17: The thermostat mode is stored as [toLowerCase] returns it (the
    ASCII folding for an ASCII mode, the engine's mapping for any other);
    the Flow trigger fires exactly when the stored mode differs from it,
    so that a second pass over the same payload changes nothing and stays
    silent; a mode that is not a string makes the step throw before it
    stores or triggers. *)
Theorem thermostat_mode_step (lower_unicode : string -> string)
    (payload : value) (d : device) :
  JS.hasOwn (changeableValues payload) "mode" = Ok true ->
  (forall s, JS.prop (changeableValues payload) "mode" = JStr s ->
     let d1 := snd (_parseThermostatMode lower_unicode payload d) in
     let d2 := snd (_parseThermostatMode lower_unicode payload d1) in
     fst (_parseThermostatMode lower_unicode payload d) = Ok tt /\
     capabilityValues d1
       = <["custom_thermostat_mode" := JStr (JS.lower_string lower_unicode s)]> (capabilityValues d) /\
     (journal_since d d1 =
        if JS.strict_eq_str
             (default JNull (capabilityValues d !! "custom_thermostat_mode"))
             (JS.lower_string lower_unicode s)
        then []
        else [DTrigger "thermostat_mode_changed" (JStr (JS.lower_string lower_unicode s))]) /\
     journal_since d1 d2 = [] /\
     capabilityValues d2 = capabilityValues d1 /\
     (JS.is_ascii s = true -> JS.lower_string lower_unicode s = JS.lower s)) /\
  (is_string (JS.prop (changeableValues payload) "mode") = false ->
   _parseThermostatMode lower_unicode payload d = (Throw TypeError, d)).
Proof.
  intros Hm. destruct (changeableValues_object payload _ _ Hm) as (Hp & Hdef & Hcv).
  assert (Hrun : forall s x, JS.prop (changeableValues payload) "mode" = JStr s ->
            _parseThermostatMode lower_unicode payload x =
              (Ok tt,
               with_capabilityValues (insert "custom_thermostat_mode" (JStr (JS.lower_string lower_unicode s)))
                 (if JS.strict_eq_str
                       (default JNull (capabilityValues x !! "custom_thermostat_mode"))
                       (JS.lower_string lower_unicode s)
                  then x
                  else with_event
                         (DTrigger "thermostat_mode_changed" (JStr (JS.lower_string lower_unicode s))) x))).
  { intros s x Hs. unfold _parseThermostatMode, bind, lift. rewrite Hdef.
    rewrite (get_prop _ _ Hp). fold (changeableValues payload).
    rewrite Hm. simpl. rewrite (get_prop _ _ Hcv), Hs. simpl.
    unfold getCapabilityValue, setCapabilityValue, emit, ret.
    destruct (JS.strict_eq_str _ (JS.lower_string lower_unicode s)); reflexivity. }
  split.
  - intros s Hs d1 d2. subst d2 d1. rewrite !(Hrun s _ Hs). simpl.
    destruct (JS.strict_eq_str
                (default JNull (capabilityValues d !! "custom_thermostat_mode"))
                (JS.lower_string lower_unicode s)) eqn:Hsame; simpl.
    + rewrite lookup_insert_eq. simpl. rewrite String.eqb_refl. simpl.
      repeat split.
      * apply journal_since_app. rewrite app_nil_r. reflexivity.
      * apply journal_since_app. rewrite app_nil_r. reflexivity.
      * apply insert_insert_eq.
      * intros Ha. unfold JS.lower_string. rewrite Ha. reflexivity.
    + rewrite lookup_insert_eq. simpl. rewrite String.eqb_refl. simpl.
      repeat split.
      * apply journal_since_app. reflexivity.
      * apply journal_since_app. rewrite app_nil_r. reflexivity.
      * apply insert_insert_eq.
      * intros Ha. unfold JS.lower_string. rewrite Ha. reflexivity.
  - intros Hs. unfold _parseThermostatMode, bind, lift. rewrite Hdef.
    rewrite (get_prop _ _ Hp). fold (changeableValues payload).
    rewrite Hm. simpl. rewrite (get_prop _ _ Hcv).
    destruct (JS.prop (changeableValues payload) "mode"); try reflexivity.
    discriminate.
Qed.

(** X18: The setpoints are stored all or not at all: when [changeableValues]
    lacks [mode], [heatSetpoint] or [coolSetpoint], the step only logs,
    also when both setpoints are there and only [mode] is missing. *)
Theorem setpoints_all_or_nothing (payload : value) (d : device) :
  JS.nullish (changeableValues payload) = false ->
  JS.hasOwn (changeableValues payload) "mode" = Ok false
  \/ JS.hasOwn (changeableValues payload) "heatSetpoint" = Ok false
  \/ JS.hasOwn (changeableValues payload) "coolSetpoint" = Ok false ->
  exists msg,
    _parseTargetTemperature payload d = (Ok tt, with_event (DError msg) d).
Proof.
  intros Hcv Hmiss.
  destruct (hasOwn_total _ "mode" Hcv) as [bm Hm].
  destruct (changeableValues_object payload _ _ Hm) as (Hp & Hdef & _).
  destruct (hasOwn_total _ "heatSetpoint" Hcv) as [bh Hh].
  destruct (hasOwn_total _ "coolSetpoint" Hcv) as [bc Hc].
  unfold _parseTargetTemperature, bind, lift, emit. rewrite Hdef.
  rewrite (get_prop _ _ Hp). fold (changeableValues payload).
  rewrite Hm. simpl. destruct bm; simpl; [|eauto].
  rewrite Hh. simpl. destruct bh; simpl; [|eauto].
  rewrite Hc. simpl. destruct bc; simpl; [|eauto].
  destruct Hmiss as [H|[H|H]]; congruence.
Qed.

(** X19: A rate limit marks the device unavailable with its own reason; the
    next poll that reports the device alive makes it available again, and
    one that reports it not alive leaves it as it is, without a second
    call. *)
Theorem rate_limit_then_poll (payload : value) (d : device) :
  JS.nullish (default_object payload) = false ->
  let d1 := snd (onRateLimited d) in
  let d2 := snd (_parseAlive payload d1) in
  available d1 = false /\
  transitions (journal_since d d1) = [DSetUnavailable "rateLimited"] /\
  available d2 = JS.ToBoolean (JS.prop (default_object payload) "isAlive") /\
  transitions (journal_since d1 d2) =
    (if JS.ToBoolean (JS.prop (default_object payload) "isAlive")
     then [DSetAvailable] else []).
Proof.
  intros Hn d1 d2.
  destruct (parseAlive_closed_form payload d1 Hn) as (h & _ & Hrun).
  subst d2. rewrite Hrun. subst d1. simpl.
  split; [reflexivity|]. split.
  - unfold journal_since; simpl. rewrite <- app_assoc, drop_app_length.
    reflexivity.
  - split; [reflexivity|].
    erewrite journal_since_app; [|reflexivity].
    rewrite transitions_alive_events.
    destruct (JS.ToBoolean _); reflexivity.
Qed.

(** ** The device: migrations *)

Section MigrationProperties.

Variable ToString_coerce : value -> res string.
Variable randomId : string.
Variable oAuth2ConfigId : string.

Local Abbreviation migrate_location :=
  (_migrateLocationIdFromSettingsToStore ToString_coerce).
Local Abbreviation migrate_tokens := (onOAuth2Migrate randomId oAuth2ConfigId).

(** X20: A location with an [id] in the settings is moved to the store as a
    string, after which [getLocationId] returns it and the setting is
    [null]; a second migration then does nothing at all.  Without such a
    setting the migration does nothing either. *)
Theorem location_migration (d : device) :
  (forall loc s,
     settings d !! "location" = Some loc ->
     JS.hasOwn loc "id" = Ok true ->
     ToString ToString_coerce (JS.prop loc "id") = Ok s ->
     let d1 := snd (migrate_location d) in
     fst (migrate_location d) = Ok tt /\
     getLocationId d1 = (Ok (JStr s), d1) /\
     settings d1 !! "location" = Some JNull /\
     capabilityValues d1 = capabilityValues d /\
     migrate_location d1 = (Ok tt, d1)) /\
  (JS.ToBoolean (default JNull (settings d !! "location")) = false ->
   migrate_location d = (Ok tt, d)) /\
  (JS.hasOwn (default JNull (settings d !! "location")) "id" = Ok false ->
   migrate_location d = (Ok tt, d)).
Proof.
  split; [|split].
  - intros loc s Hloc Hid Hs d1. subst d1.
    assert (Hobj : exists props, loc = JObj props).
    { destruct loc; simpl in Hid; try discriminate; eauto. }
    destruct Hobj as [props ->]. simpl in Hid, Hs.
    destruct (JS.assoc "id" props) as [id|] eqn:Ha; [|discriminate].
    simpl in Hs.
    unfold _migrateLocationIdFromSettingsToStore, bind, getSetting, lift, ret,
      setStoreValue, setSettings, emit, getLocationId, getStoreValue.
    rewrite Hloc. simpl. rewrite Ha. simpl. rewrite Hs. simpl.
    rewrite !lookup_insert_eq. simpl. repeat split.
    unfold bind, ret. simpl. rewrite lookup_insert_eq. reflexivity.
  - intros Hf.
    unfold _migrateLocationIdFromSettingsToStore, bind, getSetting, lift, ret.
    rewrite Hf. reflexivity.
  - intros Hid.
    unfold _migrateLocationIdFromSettingsToStore, bind, getSetting, lift, ret.
    destruct (JS.ToBoolean (default JNull (settings d !! "location"))); simpl;
      [rewrite Hid|]; reflexivity.
Qed.

(** X21: The legacy tokens are migrated from the settings when both are there,
    and only then; once [onOAuth2MigrateSuccess] has cleared them, a
    further migration fails for the missing access token. *)
Theorem token_migration (d : device) :
  (JS.ToBoolean (default JNull (settings d !! "atoken")) = false ->
   fst (migrate_tokens d) = Throw (Error "Missing access token in settings")) /\
  (JS.ToBoolean (default JNull (settings d !! "atoken")) = true ->
   JS.ToBoolean (default JNull (settings d !! "rtoken")) = false ->
   fst (migrate_tokens d) = Throw (Error "Missing refresh token in settings")) /\
  (JS.ToBoolean (default JNull (settings d !! "atoken")) = true ->
   JS.ToBoolean (default JNull (settings d !! "rtoken")) = true ->
   fst (migrate_tokens d) =
     Ok {| sessionId := randomId; configId := oAuth2ConfigId;
           access_token := default JNull (settings d !! "atoken");
           refresh_token_value := default JNull (settings d !! "rtoken") |}) /\
  settings (snd (migrate_tokens d)) = settings d /\
  fst (migrate_tokens (snd (onOAuth2MigrateSuccess d)))
    = Throw (Error "Missing access token in settings").
Proof.
  unfold onOAuth2Migrate, onOAuth2MigrateSuccess, bind, emit, getSetting,
    setSettings, throw, ret. simpl.
  split; [|split; [|split; [|split]]].
  - intros ->. reflexivity.
  - intros -> ->. reflexivity.
  - intros -> ->. reflexivity.
  - destruct (JS.ToBoolean (default JNull (settings d !! "atoken")));
      [destruct (JS.ToBoolean (default JNull (settings d !! "rtoken")))|];
      reflexivity.
  - rewrite lookup_insert_ne by discriminate. rewrite lookup_insert_eq.
    reflexivity.
Qed.

End MigrationProperties.

(** ** The device: what a cycle may write *)

Lemma preserves_bind {A B} (R : device -> device -> Prop)
    (m : DM A) (k : A -> DM B) :
  (forall x y z, R x y -> R y z -> R x z) ->
  preserves R m -> (forall a, preserves R (k a)) -> preserves R (bind m k).
Proof.
  intros Htrans Hm Hk d. unfold bind. specialize (Hm d).
  destruct (m d) as [[a|e] d1]; simpl in *; [|exact Hm].
  eapply Htrans; [exact Hm | apply Hk].
Qed.

Lemma preserves_try_catch {A} (R : device -> device -> Prop)
    (m : DM A) (h : exn -> DM A) :
  (forall x y z, R x y -> R y z -> R x z) ->
  preserves R m -> (forall e, preserves R (h e)) -> preserves R (try_catch m h).
Proof.
  intros Htrans Hm Hh d. unfold try_catch. specialize (Hm d).
  destruct (m d) as [[a|e] d1]; simpl in *; [exact Hm|].
  eapply Htrans; [exact Hm | apply Hh].
Qed.

Lemma preserves_if {A} (R : device -> device -> Prop) (b : bool) (m1 m2 : DM A) :
  preserves R m1 -> preserves R m2 -> preserves R (if b then m1 else m2).
Proof. destruct b; auto. Qed.

Lemma gated_refl (extra : list string) (d : device) : gated extra d d.
Proof. unfold gated. auto. Qed.

Lemma gated_trans (extra : list string) (x y z : device) :
  gated extra x y -> gated extra y z -> gated extra x z.
Proof.
  unfold gated. intros (Hc & Hs & Hi & Hv) (Hc' & Hs' & Hi' & Hv').
  repeat split; try congruence.
  intros k H1 H2 H3. rewrite Hv', Hv; auto. rewrite Hc. exact H3.
Qed.

Lemma gated_pure {A} (extra : list string) (m : DM A) :
  (forall d, capabilities (snd (m d)) = capabilities d /\
             store (snd (m d)) = store d /\
             data_id (snd (m d)) = data_id d /\
             capabilityValues (snd (m d)) = capabilityValues d) ->
  preserves (gated extra) m.
Proof.
  intros H d. destruct (H d) as (Hc & Hs & Hi & Hv).
  unfold gated. rewrite Hc, Hs, Hi, Hv. auto.
Qed.

Lemma gated_setCapabilityValue (extra : list string) (c : string) (v : value) :
  c ∈ always_written \/ c ∈ extra ->
  preserves (gated extra) (setCapabilityValue c v).
Proof.
  intros Hin d. unfold gated; simpl. repeat split.
  intros k H1 H2 _. apply lookup_insert_ne. intros ->. destruct Hin; contradiction.
Qed.

(** Behind [hasCapability c], the capability [c] may be written. *)
Lemma gated_guard {A} (extra : list string) (c : string) (k : bool -> DM A) :
  preserves (gated (c :: extra)) (k true) ->
  preserves (gated extra) (k false) ->
  preserves (gated extra) (bind (hasCapability c) k).
Proof.
  intros Ht Hf d. unfold bind, hasCapability.
  destruct (bool_decide_reflect (c ∈ capabilities d)) as [Hin|Hout].
  - destruct (Ht d) as (Hc & Hs & Hi & Hv). repeat split; try assumption.
    intros k0 H1 H2 H3. apply Hv; try assumption.
    intros Hk. apply elem_of_cons in Hk. destruct Hk as [->|Hk]; contradiction.
  - apply Hf.
Qed.

Ltac gated_pure_step :=
  apply gated_pure; intros ?; repeat split.

Ltac gated_steps :=
  cbv zeta;
  repeat first
    [ apply gated_guard; cbv beta iota
    | apply preserves_bind; [exact (gated_trans _) | | intros ?]
    | apply preserves_try_catch; [exact (gated_trans _) | | intros ?]
    | apply preserves_if
    | apply gated_setCapabilityValue;
      solve [left; set_solver | right; set_solver]
    | solve [gated_pure_step]
    | match goal with
      | |- preserves _ (match ?c with Normal => _ | Return => _ end) => destruct c
      end ].

Section GatingProperties.

Variable ToNumber_coerce : value -> res float.
Variable API_KEY : string.
Variable api_get : string -> res value.
Variable lower_unicode : string -> string.

Local Abbreviation cycle :=
  (_fetchDeviceData ToNumber_coerce API_KEY api_get lower_unicode).

Lemma cycle_gated : preserves (gated []) cycle.
Proof.
  unfold _fetchDeviceData, fetch_thermostat, fetch_fan, parse_steps, later_steps,
    _parseMeasuredTemperature, _parseTargetTemperature, _parseThermostatMode,
    _parseACMode, _parseAlive, _parseFanMode, getLocationId.
  gated_steps.
Qed.

Local Abbreviation thermostat :=
  (fetch_thermostat ToNumber_coerce API_KEY api_get lower_unicode).
Local Abbreviation fan := (fetch_fan API_KEY api_get).




(** X22: A poll cycle writes no capability the device does not have, apart
    from the measured and the target temperature, which it writes for
    every device; and it leaves the capability set, the store and the id
    of the device alone. *)
Theorem poll_writes_own_capabilities (d : device) :
  capabilities (snd (cycle d)) = capabilities d /\
  store (snd (cycle d)) = store d /\
  data_id (snd (cycle d)) = data_id d /\
  forall k, k <> "measure_temperature" -> k <> "target_temperature" ->
    k ∉ capabilities d ->
    capabilityValues (snd (cycle d)) !! k = capabilityValues d !! k.
Proof.
  destruct (cycle_gated d) as (Hc & Hs & Hi & Hv).
  repeat split; try assumption.
  intros k H1 H2 H3. apply Hv; [|set_solver|exact H3].
  unfold always_written. set_solver.
Qed.

End GatingProperties.

(** ** The device: a cycle run twice *)

Lemma same_identity_refl (d : device) : same_identity d d.
Proof. unfold same_identity. auto. Qed.

Lemma same_identity_sym (d e : device) : same_identity d e -> same_identity e d.
Proof. unfold same_identity. intuition congruence. Qed.

Lemma same_identity_trans (x y z : device) :
  same_identity x y -> same_identity y z -> same_identity x z.
Proof. unfold same_identity. intuition congruence. Qed.

Lemma agree_untouched {X} (x y : X) : agree x x y y.
Proof. left. auto. Qed.

Lemma agree_trans {X} (x x1 x2 y y1 y2 : X) :
  agree x x1 y y1 -> agree x1 x2 y1 y2 -> agree x x2 y y2.
Proof.
  unfold agree. intros [[-> ->]|H1] [[-> ->]|H2]; auto.
Qed.

(** A method that only reads what identifies the device and writes at
    most the journal. *)
Lemma oblivious_reader {A} (m : DM A) :
  (forall d, same_identity d (snd (m d)) /\
             capabilityValues (snd (m d)) = capabilityValues d /\
             settings (snd (m d)) = settings d /\
             available (snd (m d)) = available d) ->
  (forall d e, same_identity d e -> fst (m d) = fst (m e)) ->
  oblivious m.
Proof.
  intros Hs Hr. split; [intros d; apply Hs|].
  intros d e Hde. split; [apply Hr, Hde|].
  destruct (Hs d) as (_ & Hv & Hse & Ha). destruct (Hs e) as (_ & Hv' & Hse' & Ha').
  rewrite Hv, Hv', Hse, Hse', Ha, Ha'.
  repeat split; intros; apply agree_untouched.
Qed.

Lemma oblivious_bind {A B} (m : DM A) (k : A -> DM B) :
  oblivious m -> (forall a, oblivious (k a)) -> oblivious (bind m k).
Proof.
  intros [Hid Hm] Hk. split.
  - intros d. unfold bind. specialize (Hid d).
    destruct (m d) as [[a|e] d1]; simpl in *; [|exact Hid].
    eapply same_identity_trans; [exact Hid|]. apply (Hk a).
  - intros d e Hde. destruct (Hm d e Hde) as (Hr & Hv & Hs & Ha).
    pose proof (Hid d) as Hd1. pose proof (Hid e) as He1.
    unfold bind. destruct (m d) as [[a|ex] d1], (m e) as [[a'|ex'] e1];
      simpl in *; try discriminate Hr.
    + injection Hr as <-.
      assert (Hde1 : same_identity d1 e1).
      { eapply same_identity_trans; [apply same_identity_sym, Hd1|].
        eapply same_identity_trans; [exact Hde | exact He1]. }
      destruct (Hk a) as [_ Hka].
      destruct (Hka d1 e1 Hde1) as (Hr2 & Hv2 & Hs2 & Ha2).
      split; [exact Hr2|]. repeat split.
      * intros k0. eapply agree_trans; [apply Hv | apply Hv2].
      * intros k0. eapply agree_trans; [apply Hs | apply Hs2].
      * eapply agree_trans; [apply Ha | apply Ha2].
    + injection Hr as <-. auto.
Qed.

Lemma oblivious_try_catch {A} (m : DM A) (h : exn -> DM A) :
  oblivious m -> (forall e, oblivious (h e)) -> oblivious (try_catch m h).
Proof.
  intros [Hid Hm] Hh. split.
  - intros d. unfold try_catch. specialize (Hid d).
    destruct (m d) as [[a|e] d1]; simpl in *; [exact Hid|].
    eapply same_identity_trans; [exact Hid|]. apply (Hh e).
  - intros d e Hde. destruct (Hm d e Hde) as (Hr & Hv & Hs & Ha).
    pose proof (Hid d) as Hd1. pose proof (Hid e) as He1.
    unfold try_catch. destruct (m d) as [[a|ex] d1], (m e) as [[a'|ex'] e1];
      simpl in *; try discriminate Hr.
    + repeat split; assumption.
    + injection Hr as <-.
      assert (Hde1 : same_identity d1 e1).
      { eapply same_identity_trans; [apply same_identity_sym, Hd1|].
        eapply same_identity_trans; [exact Hde | exact He1]. }
      destruct (Hh ex) as [_ Hhe].
      destruct (Hhe d1 e1 Hde1) as (Hr2 & Hv2 & Hs2 & Ha2).
      split; [exact Hr2|]. repeat split.
      * intros k0. eapply agree_trans; [apply Hv | apply Hv2].
      * intros k0. eapply agree_trans; [apply Hs | apply Hs2].
      * eapply agree_trans; [apply Ha | apply Ha2].
Qed.

Lemma oblivious_if {A} (b : bool) (m1 m2 : DM A) :
  oblivious m1 -> oblivious m2 -> oblivious (if b then m1 else m2).
Proof. destruct b; auto. Qed.

Lemma oblivious_setCapabilityValue (c : string) (v : value) :
  oblivious (setCapabilityValue c v).
Proof.
  split; [intros d; unfold same_identity; simpl; auto|].
  intros d e Hde. simpl. split; [reflexivity|]. repeat split.
  - intros k. destruct (decide (c = k)) as [->|Hne].
    + right. rewrite !lookup_insert_eq. reflexivity.
    + left. rewrite !lookup_insert_ne by exact Hne. auto.
  - intros k. apply agree_untouched.
  - apply agree_untouched.
Qed.

Lemma oblivious_setSettings (c : string) (v : value) :
  oblivious (setSettings c v).
Proof.
  split; [intros d; unfold same_identity; simpl; auto|].
  intros d e Hde. simpl. split; [reflexivity|]. repeat split.
  - intros k. apply agree_untouched.
  - intros k. destruct (decide (c = k)) as [->|Hne].
    + right. rewrite !lookup_insert_eq. reflexivity.
    + left. rewrite !lookup_insert_ne by exact Hne. auto.
  - apply agree_untouched.
Qed.

(** The end of the thermostat mode step: compare, trigger, store. *)
Lemma oblivious_mode_store (mode : string) :
  oblivious
    (current <- getCapabilityValue "custom_thermostat_mode" ;;
     (if negb (JS.strict_eq_str current mode) then
        emit (DTrigger "thermostat_mode_changed" (JStr mode))
      else ret tt) ;;;
     setCapabilityValue "custom_thermostat_mode" (JStr mode)).
Proof.
  split.
  - intros d. unfold bind, getCapabilityValue.
    destruct (negb _); unfold same_identity; simpl; auto.
  - intros d e Hde. unfold bind, getCapabilityValue.
    destruct (negb (JS.strict_eq_str
                      (default JNull (capabilityValues d !! "custom_thermostat_mode")) mode)),
             (negb (JS.strict_eq_str
                      (default JNull (capabilityValues e !! "custom_thermostat_mode")) mode));
      simpl; (split; [reflexivity|]); repeat split;
      try (intros k; apply agree_untouched); try apply agree_untouched;
      intros k; (destruct (decide ("custom_thermostat_mode" = k)) as [<-|Hne];
        [right; rewrite !lookup_insert_eq; reflexivity
        |left; rewrite !lookup_insert_ne by exact Hne; auto]).
Qed.

Lemma parseAlive_null (payload : value) (d : device) :
  JS.nullish (default_object payload) = true ->
  _parseAlive payload d = (Throw TypeError, d).
Proof.
  intros Hn. unfold _parseAlive, bind, lift.
  destruct (default_object payload); try discriminate; reflexivity.
Qed.

Lemma oblivious_parseAlive (payload : value) : oblivious (_parseAlive payload).
Proof.
  destruct (JS.nullish (default_object payload)) eqn:Hn.
  - apply oblivious_reader.
    + intros d. rewrite (parseAlive_null payload d Hn). simpl.
      split; [apply same_identity_refl | auto].
    + intros d e _. rewrite !(parseAlive_null payload _ Hn). reflexivity.
  - split.
    + intros d. destruct (parseAlive_closed_form payload d Hn) as (h & _ & ->).
      unfold same_identity; simpl; auto.
    + intros d e Hde.
      destruct (parseAlive_closed_form payload d Hn) as (h & _ & ->).
      destruct (parseAlive_closed_form payload e Hn) as (h' & _ & ->).
      simpl. split; [reflexivity|]. repeat split;
        try (intros k; apply agree_untouched).
      right. reflexivity.
Qed.

Ltac reader_step :=
  apply oblivious_reader;
  [ intros ?; repeat split
  | intros ? ? (?Hc & ?Hs & ?Hi); simpl; rewrite ?Hc, ?Hs, ?Hi; reflexivity ].

Ltac oblivious_steps :=
  cbv zeta;
  repeat first
    [ apply oblivious_parseAlive
    | apply oblivious_mode_store
    | apply oblivious_setCapabilityValue
    | apply oblivious_setSettings
    | apply oblivious_bind; [|intros ?]
    | apply oblivious_try_catch; [|intros ?]
    | apply oblivious_if
    | solve [reader_step]
    | match goal with
      | |- oblivious (match ?c with Normal => _ | Return => _ end) => destruct c
      end ].

Lemma oblivious_idempotent {A} (m : DM A) (d : device) :
  oblivious m ->
  fst (m (snd (m d))) = fst (m d) /\
  capabilityValues (snd (m (snd (m d)))) = capabilityValues (snd (m d)) /\
  settings (snd (m (snd (m d)))) = settings (snd (m d)) /\
  available (snd (m (snd (m d)))) = available (snd (m d)).
Proof.
  intros [Hid Hm]. destruct (Hm d (snd (m d)) (Hid d)) as (Hr & Hv & Hs & Ha).
  split; [symmetry; exact Hr|]. split; [|split].
  - apply map_eq. intros k. destruct (Hv k) as [[H1 H2]|H]; congruence.
  - apply map_eq. intros k. destruct (Hs k) as [[H1 H2]|H]; congruence.
  - destruct Ha as [[H1 H2]|H]; congruence.
Qed.

Section TwiceProperties.

Variable ToNumber_coerce : value -> res float.
Variable API_KEY : string.
Variable api_get : string -> res value.
Variable lower_unicode : string -> string.

Local Abbreviation cycle :=
  (_fetchDeviceData ToNumber_coerce API_KEY api_get lower_unicode).

Lemma cycle_oblivious : oblivious cycle.
Proof.
  unfold _fetchDeviceData, fetch_thermostat, fetch_fan, parse_steps, later_steps,
    _parseMeasuredTemperature, _parseTargetTemperature, _parseThermostatMode,
    _parseACMode, _parseFanMode, getLocationId.
  oblivious_steps.
Qed.

(** X23: A poll cycle is idempotent on what the device stores: run again
    against the same answers of the API, it leaves the capability values,
    the settings and the availability as the first run left them. *)
Theorem poll_is_idempotent (d : device) :
  let d1 := snd (cycle d) in
  let d2 := snd (cycle d1) in
  capabilityValues d2 = capabilityValues d1 /\
  settings d2 = settings d1 /\
  available d2 = available d1.
Proof.
  intros d1 d2. subst d1 d2. apply (oblivious_idempotent cycle d cycle_oblivious).
Qed.

End TwiceProperties.

(** ** The device: the mode trigger of a cycle run twice *)

Lemma triggers_app (evs evs' : list device_event) :
  triggers (evs ++ evs') = triggers evs ++ triggers evs'.
Proof. apply List.filter_app. Qed.

Lemma quiet_bind {A B} (m : DM A) (k : A -> DM B) :
  quiet m -> (forall a, quiet (k a)) -> quiet (bind m k).
Proof.
  intros Hm Hk d. unfold bind. destruct (Hm d) as (evs & Hj & Ht & Hv).
  destruct (m d) as [[a|e] d1]; simpl in *; [|eauto].
  destruct (Hk a d1) as (evs' & Hj' & Ht' & Hv').
  exists (evs ++ evs'). rewrite Hj', Hj, Hv', Hv, triggers_app, Ht, Ht'.
  rewrite app_assoc. auto.
Qed.

Lemma quiet_try_catch {A} (m : DM A) (h : exn -> DM A) :
  quiet m -> (forall e, quiet (h e)) -> quiet (try_catch m h).
Proof.
  intros Hm Hh d. unfold try_catch. destruct (Hm d) as (evs & Hj & Ht & Hv).
  destruct (m d) as [[a|e] d1]; simpl in *; [eauto|].
  destruct (Hh e d1) as (evs' & Hj' & Ht' & Hv').
  exists (evs ++ evs'). rewrite Hj', Hj, Hv', Hv, triggers_app, Ht, Ht'.
  rewrite app_assoc. auto.
Qed.

Lemma quiet_if {A} (b : bool) (m1 m2 : DM A) :
  quiet m1 -> quiet m2 -> quiet (if b then m1 else m2).
Proof. destruct b; auto. Qed.

Lemma quiet_setCapabilityValue (c : string) (v : value) :
  c <> "custom_thermostat_mode" -> quiet (setCapabilityValue c v).
Proof.
  intros Hne d. exists []. simpl. rewrite app_nil_r.
  repeat split. apply lookup_insert_ne. exact Hne.
Qed.

Ltac quiet_prim :=
  intros ?;
  first [ exists []; simpl; rewrite ?app_nil_r; repeat split; reflexivity
        | eexists [_]; simpl; repeat split; reflexivity ].

Lemma quiet_parseAlive (payload : value) : quiet (_parseAlive payload).
Proof.
  unfold _parseAlive. cbv zeta.
  repeat first [ apply quiet_bind; [|intros ?] | apply quiet_if
               | solve [quiet_prim] ].
Qed.

Ltac quiet_steps :=
  cbv zeta;
  repeat first
    [ apply quiet_parseAlive
    | apply quiet_bind; [|intros ?]
    | apply quiet_try_catch; [|intros ?]
    | apply quiet_if
    | apply quiet_setCapabilityValue; discriminate
    | solve [quiet_prim]
    | match goal with
      | |- quiet (match ?c with Normal => _ | Return => _ end) => destruct c
      end ].

Lemma settles_of_quiet {A} (m : DM A) : quiet m -> settles m.
Proof. intros Hm d e _ _. apply Hm. Qed.

Lemma settles_if {A} (b : bool) (m1 m2 : DM A) :
  settles m1 -> settles m2 -> settles (if b then m1 else m2).
Proof. destruct b; auto. Qed.

Lemma identity_after {A} (m : DM A) (d e : device) :
  oblivious m -> same_identity d e -> same_identity (snd (m d)) (snd (m e)).
Proof.
  intros [Hid _] Hde.
  eapply same_identity_trans; [apply same_identity_sym, Hid|].
  eapply same_identity_trans; [exact Hde | apply Hid].
Qed.

(** A silent prefix before a method that settles. *)
Lemma settles_bind_left {A B} (m : DM A) (k : A -> DM B) :
  quiet m -> oblivious m -> (forall a, settles (k a)) -> settles (bind m k).
Proof.
  intros Hq Hob Hk d e Hde Hpre.
  pose proof (identity_after m d e Hob Hde) as Hde1.
  destruct Hob as [_ Hob]. destruct (Hob d e Hde) as (Hr & _).
  destruct (Hq e) as (evs & Hj & Ht & Hv).
  unfold bind in *.
  destruct (m d) as [[a|ex] d1], (m e) as [[a'|ex'] e1]; simpl in *;
    try discriminate Hr; [|eauto].
  injection Hr as <-.
  destruct (Hk a d1 e1 Hde1) as (evs' & Hj' & Ht' & Hv'); [congruence|].
  exists (evs ++ evs'). rewrite Hj', Hj, Hv', Hv, triggers_app, Ht, Ht'.
  rewrite app_assoc. auto.
Qed.

(** A silent suffix after a method that settles. *)
Lemma settles_bind_right {A B} (m : DM A) (k : A -> DM B) :
  settles m -> oblivious m -> (forall a, quiet (k a)) -> settles (bind m k).
Proof.
  intros Hs Hob Hk d e Hde Hpre.
  destruct Hob as [_ Hob]. destruct (Hob d e Hde) as (Hr & _).
  specialize (Hs d e Hde). unfold bind in *.
  destruct (m d) as [[a|ex] d1], (m e) as [[a'|ex'] e1]; simpl in *;
    try discriminate Hr; [|apply Hs, Hpre].
  injection Hr as <-.
  destruct (Hk a d1) as (_ & _ & _ & Hvd).
  destruct Hs as (evs & Hj & Ht & Hv); [congruence|].
  destruct (Hk a e1) as (evs' & Hj' & Ht' & Hv').
  exists (evs ++ evs'). rewrite Hj', Hj, Hv', Hv, triggers_app, Ht, Ht'.
  rewrite app_assoc. auto.
Qed.

Lemma settles_try_catch {A} (m : DM A) (h : exn -> DM A) :
  settles m -> oblivious m -> (forall e, quiet (h e)) -> settles (try_catch m h).
Proof.
  intros Hs Hob Hh d e Hde Hpre.
  destruct Hob as [_ Hob]. destruct (Hob d e Hde) as (Hr & _).
  specialize (Hs d e Hde). unfold try_catch in *.
  destruct (m d) as [[a|ex] d1], (m e) as [[a'|ex'] e1]; simpl in *;
    try discriminate Hr; [apply Hs, Hpre|].
  injection Hr as <-.
  destruct (Hh ex d1) as (_ & _ & _ & Hvd).
  destruct Hs as (evs & Hj & Ht & Hv); [congruence|].
  destruct (Hh ex e1) as (evs' & Hj' & Ht' & Hv').
  exists (evs ++ evs'). rewrite Hj', Hj, Hv', Hv, triggers_app, Ht, Ht'.
  rewrite app_assoc. auto.
Qed.

Lemma settles_mode_store (mode : string) :
  settles
    (current <- getCapabilityValue "custom_thermostat_mode" ;;
     (if negb (JS.strict_eq_str current mode) then
        emit (DTrigger "thermostat_mode_changed" (JStr mode))
      else ret tt) ;;;
     setCapabilityValue "custom_thermostat_mode" (JStr mode)).
Proof.
  intros d e _ Hpre.
  assert (Hd : capabilityValues
                 (snd ((current <- getCapabilityValue "custom_thermostat_mode" ;;
                        (if negb (JS.strict_eq_str current mode) then
                           emit (DTrigger "thermostat_mode_changed" (JStr mode))
                         else ret tt) ;;;
                        setCapabilityValue "custom_thermostat_mode" (JStr mode)) d))
               !! "custom_thermostat_mode" = Some (JStr mode)).
  { unfold bind, getCapabilityValue. destruct (negb _); simpl;
      apply lookup_insert_eq. }
  rewrite Hd in Hpre. clear Hd. unfold bind, getCapabilityValue.
  exists []. rewrite app_nil_r.
  assert (Hc : default JNull (capabilityValues e !! "custom_thermostat_mode")
               = JStr mode) by (rewrite Hpre; reflexivity).
  rewrite Hc. simpl. rewrite String.eqb_refl. simpl.
  repeat split. rewrite lookup_insert_eq. symmetry. exact Hpre.
Qed.

Ltac settles_steps :=
  cbv zeta;
  first
    [ solve [apply settles_of_quiet; quiet_steps]
    | apply settles_mode_store
    | apply settles_if; settles_steps
    | apply settles_bind_left;
      [solve [quiet_steps] | solve [oblivious_steps] | intros ?; settles_steps]
    | apply settles_bind_right;
      [settles_steps | solve [oblivious_steps] | intros ?; solve [quiet_steps]]
    | apply settles_try_catch;
      [settles_steps | solve [oblivious_steps] | intros ?; solve [quiet_steps]] ].

Section TriggerOnceProperties.

Variable ToNumber_coerce : value -> res float.
Variable API_KEY : string.
Variable api_get : string -> res value.
Variable lower_unicode : string -> string.

Local Abbreviation cycle :=
  (_fetchDeviceData ToNumber_coerce API_KEY api_get lower_unicode).

Lemma cycle_settles : settles cycle.
Proof.
  unfold _fetchDeviceData, fetch_thermostat, fetch_fan, parse_steps, later_steps,
    _parseMeasuredTemperature, _parseTargetTemperature, _parseThermostatMode,
    _parseACMode, _parseFanMode, getLocationId.
  settles_steps.
Qed.

(** X24: A poll cycle run again against the same answers of the API fires no
    Flow trigger: the mode change of a payload is announced at most once. *)
Theorem poll_triggers_once (d : device) :
  let d1 := snd (cycle d) in
  let d2 := snd (cycle d1) in
  triggers (journal_since d1 d2) = [].
Proof.
  intros d1 d2.
  destruct (cycle_oblivious ToNumber_coerce API_KEY api_get lower_unicode)
    as [Hid _].
  destruct (cycle_settles d d1 (Hid d) eq_refl) as (evs & Hj & Ht & _).
  subst d2. rewrite (journal_since_app _ _ _ Hj). exact Ht.
Qed.

End TriggerOnceProperties.

(** ** The drivers: what a paired device is given *)

Section DriverProperties.

Variable ToNumber_coerce : value -> res float.
Variable ToString_coerce : value -> res string.

Local Abbreviation get_device := (_getDevice ToNumber_coerce ToString_coerce).
Local Abbreviation pair := (onPairListDevices ToNumber_coerce ToString_coerce).
Local Abbreviation pair_thermostats :=
  (thermostat_onPairListDevices ToNumber_coerce ToString_coerce).

Lemma heat_capabilities_shape (device modes : value) lists :
  heat_capabilities device modes = Ok lists ->
  exists heat cool : bool,
    JS.includes modes "Heat" = Ok heat /\
    (heat = true -> JS.includes modes "Cool" = Ok cool) /\
    fst lists = (if heat then
                   "target_temperature"
                     :: (if cool then [] else ["custom_thermostat_mode"])
                 else []) /\
    List.map fst (snd lists) = (if heat then ["target_temperature"] else []).
Proof.
  unfold heat_capabilities. intros H.
  destruct (JS.includes modes "Heat") as [heat|] eqn:Hh; simpl in H; [|discriminate].
  destruct heat.
  - destruct (JS.includes modes "Cool") as [cool|] eqn:Hc; simpl in H; [|discriminate].
    injection H as <-. exists true, cool. destruct cool; simpl; auto.
  - injection H as <-. exists false, false. simpl. repeat split; auto. discriminate.
Qed.

Lemma cool_capabilities_shape (device modes : value) lists :
  cool_capabilities device modes = Ok lists ->
  exists cool : bool,
    JS.includes modes "Cool" = Ok cool /\
    fst lists = (if cool then ["target_temperature.cool"; "custom_ac_mode"] else []) /\
    List.map fst (snd lists) = (if cool then ["target_temperature.cool"] else []).
Proof.
  unfold cool_capabilities. intros H.
  destruct (JS.includes modes "Cool") as [cool|] eqn:Hc; simpl in H; [|discriminate].
  exists cool. destruct cool; injection H as <-; auto.
Qed.

(** The capability list of a paired device as a function of three facts
    about the device: heating allowed, cooling allowed, fan present. *)
Lemma getDevice_shape (device location : value) (p : paired_device) :
  get_device device location = Ok p ->
  exists heat cool fan : bool,
    pd_capabilities p =
      "measure_temperature"
        :: (if heat then
              "target_temperature"
                :: (if cool then [] else ["custom_thermostat_mode"])
            else [])
        ++ (if cool then ["target_temperature.cool"; "custom_ac_mode"] else [])
        ++ (if fan then ["fan_mode"] else []) /\
    List.map fst (pd_capabilitiesOptions p) =
      (if heat then ["target_temperature"] else [])
        ++ (if cool then ["target_temperature.cool"] else []) /\
    has_fan ToNumber_coerce device = Ok fan /\
    pd_icon p = None /\
    JS.nullish device = false.
Proof.
  unfold _getDevice. intros H.
  destruct (JS.get device "userDefinedDeviceName") as [name|] eqn:Hn;
    simpl in H; [|discriminate].
  assert (Hdev : JS.nullish device = false).
  { unfold JS.get in Hn. destruct (JS.nullish device); [discriminate|reflexivity]. }
  destruct (JS.get location "locationID") as [lid|]; simpl in H; [|discriminate].
  destruct (ToString ToString_coerce lid) as [loc|]; simpl in H; [|discriminate].
  destruct (non_empty ToNumber_coerce (JS.prop device "allowedModes")) as [modes|];
    simpl in H; [|discriminate].
  destruct modes.
  - destruct (heat_capabilities device (JS.prop device "allowedModes"))
      as [hl|] eqn:Hh; simpl in H; [|discriminate].
    destruct (cool_capabilities device (JS.prop device "allowedModes"))
      as [cl|] eqn:Hc; simpl in H; [|discriminate].
    destruct (has_fan ToNumber_coerce device) as [fan|] eqn:Hf; simpl in H;
      [|discriminate].
    injection H as <-. simpl.
    apply heat_capabilities_shape in Hh.
    destruct Hh as (heat & cool & Hih & Hic & Hl & Ho).
    apply cool_capabilities_shape in Hc. destruct Hc as (cool' & Hic' & Hl' & Ho').
    exists heat, cool', fan. rewrite Hl, Hl', List.map_app, Ho, Ho'.
    destruct heat; [|auto].
    rewrite (Hic eq_refl) in Hic'. injection Hic' as <-. auto.
  - simpl in H.
    destruct (has_fan ToNumber_coerce device) as [fan|] eqn:Hf; simpl in H;
      [|discriminate].
    injection H as <-. simpl. exists false, false, fan. auto.
Qed.

(** X25: [_getDevice]: the capabilities of a paired device.  The list starts
    with [measure_temperature] and repeats nothing; the device gets a
    setpoint capability exactly when it gets a mode capability, and then
    only one of the two mode capabilities: [custom_thermostat_mode] comes
    with the heating setpoint alone, [custom_ac_mode] exactly with the
    cooling setpoint; [fan_mode] is there exactly when the fan settings
    list a mode; the capability options are for listed capabilities only,
    and no icon is chosen. *)
Theorem paired_capabilities (device location : value) (p : paired_device) :
  get_device device location = Ok p ->
  let has c := In c (pd_capabilities p) in
  List.hd_error (pd_capabilities p) = Some "measure_temperature" /\
  List.NoDup (pd_capabilities p) /\
  (has "target_temperature" \/ has "target_temperature.cool"
     <-> has "custom_thermostat_mode" \/ has "custom_ac_mode") /\
  ~ (has "custom_thermostat_mode" /\ has "custom_ac_mode") /\
  (has "custom_thermostat_mode"
     <-> has "target_temperature" /\ ~ has "target_temperature.cool") /\
  (has "custom_ac_mode" <-> has "target_temperature.cool") /\
  (has "fan_mode" <-> has_fan ToNumber_coerce device = Ok true) /\
  (forall k, In k (List.map fst (pd_capabilitiesOptions p)) -> has k) /\
  pd_icon p = None.
Proof.
  intros H has.
  destruct (getDevice_shape _ _ _ H) as (heat & cool & fan & Hc & Ho & Hf & Hi & _).
  subst has. cbv beta. rewrite Hc, Ho, Hf.
  destruct heat, cool, fan; simpl;
    (split; [reflexivity|]);
    (split; [repeat constructor; simpl; intuition discriminate|]);
    repeat split; try tauto; try (intuition discriminate);
    try (intros k; simpl; intuition (subst; auto)).
Qed.

Lemma each_singletons {A} (f : value -> res (list A)) (g : value -> res A)
    (items : list value) (ps : list A) :
  (forall x, f x = res_bind (g x) (fun p => Ok [p])) ->
  each f items = Ok ps <-> Forall2 (fun p x => g x = Ok p) ps items.
Proof.
  intros Hf. revert ps. induction items as [|x rest IH]; intros ps; simpl.
  - split; intros H.
    + injection H as <-. constructor.
    + inversion H. reflexivity.
  - rewrite Hf. split; intros H.
    + destruct (g x) as [p|] eqn:Hg; simpl in H; [|discriminate].
      destruct (each f rest) as [zs|] eqn:Hr; simpl in H; [|discriminate].
      injection H as <-. simpl. constructor; [exact Hg|]. apply IH. reflexivity.
    + inversion H as [|p x' ps' rest' Hp Hrest]; subst.
      rewrite Hp. simpl. apply IH in Hrest. rewrite Hrest. reflexivity.
Qed.

(** The walk of the two pairing methods over the locations, for any way
    [g] of turning a device and its location into a list entry. *)
Lemma walk_locations {A} (g : value -> value -> res A)
    (f : value -> value -> res (list A)) (locations : list value) (ps : list A) :
  (forall location device,
      f location device = res_bind (g device location) (fun p => Ok [p])) ->
  each (fun location =>
          res_bind (JS.get location "devices") (fun devices =>
          forEach (f location) devices)) locations = Ok ps
  <-> Forall (fun location => isArray (JS.prop location "devices") = true) locations /\
      Forall2 (fun p dl => g (fst dl) (snd dl) = Ok p) ps (listed locations).
Proof.
  intros Hf. revert ps. induction locations as [|loc rest IH]; intros ps; simpl.
  - split.
    + intros H. injection H as <-. split; constructor.
    + intros [_ H]. inversion H. reflexivity.
  - assert (Hget : forall ds, JS.prop loc "devices" = JArr ds ->
                     JS.get loc "devices" = Ok (JArr ds)).
    { intros ds Hd. unfold JS.get.
      destruct loc; try discriminate Hd; rewrite <- Hd; reflexivity. }
    split.
    + intros H.
      destruct (JS.get loc "devices") as [devs|] eqn:Hg; simpl in H; [|discriminate].
      assert (Hd : JS.prop loc "devices" = devs).
      { unfold JS.get in Hg. destruct (JS.nullish loc); [discriminate|].
        injection Hg as <-. reflexivity. }
      destruct devs as [| | | | | |ds]; simpl in H; try discriminate.
      destruct (each (f loc) ds) as [ys|] eqn:Hy; simpl in H; [|discriminate].
      destruct (each _ rest) as [zs|] eqn:Hz; simpl in H; [|discriminate].
      injection H as <-.
      destruct (proj1 (IH zs) eq_refl) as [Ha Hl].
      split; [constructor; [rewrite Hd; reflexivity|exact Ha]|].
      unfold devices_of. rewrite Hd.
      apply Forall2_app; [|exact Hl].
      apply (each_singletons (f loc) (fun d => g d loc)) in Hy; [|apply Hf].
      clear -Hy. induction Hy; simpl; constructor; auto.
    + intros [Ha Hl]. inversion Ha as [|l r Harr Hrest]; subst.
      unfold devices_of in Hl.
      destruct (JS.prop loc "devices") as [| | | | | |ds] eqn:Hd; try discriminate.
      rewrite (Hget ds eq_refl). simpl.
      apply Forall2_app_inv_r in Hl.
      destruct Hl as (ps1 & ps2 & H1 & H2 & ->).
      assert (Hy : each (f loc) ds = Ok ps1).
      { apply (each_singletons (f loc) (fun d => g d loc)); [apply Hf|].
        clear -H1. revert ps1 H1. induction ds; intros ps1 H1; simpl in H1;
          inversion H1; subst; constructor; auto. }
      rewrite Hy. simpl. rewrite (proj2 (IH ps2) (conj Hrest H2)). reflexivity.
Qed.

(** X26: [onPairListDevices] of the base driver.  A failed [getLocations] is
    passed on, an answer that is not an array is refused; on an array the
    method succeeds exactly when every location has an array of devices
    and [_getDevice] succeeds on each device, and it then lists one entry
    per device, in the order of the answer, none dropped or repeated. *)
Theorem pairing_lists_every_device :
  (forall e, pair (Throw e) = Throw e) /\
  (forall v, isArray v = false ->
     pair (Ok v) = Throw (Error "Expected locations of type Array")) /\
  (forall locations ps,
     pair (Ok (JArr locations)) = Ok ps
     <-> Forall (fun location => isArray (JS.prop location "devices") = true)
                locations /\
         Forall2 (fun p dl => get_device (fst dl) (snd dl) = Ok p)
                 ps (listed locations)).
Proof.
  split; [reflexivity|]. split.
  - intros v Hv. unfold onPairListDevices. simpl. rewrite Hv. reflexivity.
  - intros locations ps. unfold onPairListDevices. simpl.
    apply (walk_locations (fun d l => get_device d l)). reflexivity.
Qed.

(** The entry of the thermostat driver for one device. *)
Local Abbreviation thermostat_entry := (fun device location =>
  res_bind (get_device device location) (fun newDevice =>
  res_bind (JS.get device "deviceModel") (fun model =>
  res_bind (JS.includes model "T9-T10") (fun t9 =>
  Ok (if t9 then with_icon "/t9_icon.svg" newDevice else newDevice))))).

Lemma thermostat_entry_inv (device location : value) (p : paired_device) :
  thermostat_entry device location = Ok p ->
  exists q t9,
    get_device device location = Ok q /\
    JS.includes (JS.prop device "deviceModel") "T9-T10" = Ok t9 /\
    p = (if t9 then with_icon "/t9_icon.svg" q else q) /\
    pd_icon q = None.
Proof.
  intros H. cbv beta in H.
  destruct (get_device device location) as [q|] eqn:Hq; simpl in H; [|discriminate].
  destruct (getDevice_shape _ _ _ Hq) as (_ & _ & _ & _ & _ & _ & Hi & Hnn).
  unfold JS.get in H. rewrite Hnn in H. simpl in H.
  destruct (JS.includes (JS.prop device "deviceModel") "T9-T10") as [t9|];
    simpl in H; [|discriminate].
  injection H as <-. exists q, t9. auto.
Qed.

(** X27: [onPairListDevices] of the thermostat driver.  Whenever it succeeds
    the base method succeeds on the same answer with as many entries, and
    each entry is the base entry, with the icon [/t9_icon.svg] added
    exactly when the model of its device names [T9-T10]; an answer that is
    not an array is refused as by the base method. *)
Theorem thermostat_pairing_icon :
  (forall v, isArray v = false ->
     pair_thermostats (Ok v) = Throw (Error "Expected locations of type Array")) /\
  (forall locations ps,
     pair_thermostats (Ok (JArr locations)) = Ok ps ->
     exists qs,
       pair (Ok (JArr locations)) = Ok qs /\
       Forall2 (fun p q => p = q \/ p = with_icon "/t9_icon.svg" q) ps qs /\
       Forall2 (fun p dl =>
                  pd_icon p = Some "/t9_icon.svg"
                  <-> JS.includes (JS.prop (fst dl) "deviceModel") "T9-T10" = Ok true)
               ps (listed locations) /\
       Forall (fun p => pd_icon p = None \/ pd_icon p = Some "/t9_icon.svg") ps).
Proof.
  split.
  - intros v Hv. unfold thermostat_onPairListDevices. simpl. rewrite Hv. reflexivity.
  - intros locations ps H. unfold thermostat_onPairListDevices in H. simpl in H.
    apply (walk_locations thermostat_entry) in H.
    2:{ intros location device. simpl.
        destruct (get_device device location); simpl; [|reflexivity].
        destruct (JS.get device "deviceModel"); simpl; [|reflexivity].
        destruct (JS.includes _ _); reflexivity. }
    destruct H as [Ha Hl].
    assert (Hqs : exists qs,
               Forall2 (fun q dl => get_device (fst dl) (snd dl) = Ok q)
                       qs (listed locations) /\
               Forall2 (fun p q => p = q \/ p = with_icon "/t9_icon.svg" q) ps qs /\
               Forall2 (fun p dl =>
                  pd_icon p = Some "/t9_icon.svg"
                  <-> JS.includes (JS.prop (fst dl) "deviceModel") "T9-T10" = Ok true)
                  ps (listed locations) /\
               Forall (fun p => pd_icon p = None \/ pd_icon p = Some "/t9_icon.svg") ps).
    { clear Ha. induction Hl as [|p dl ps' dls Hp Hrest IH].
      - exists []. repeat split; constructor.
      - destruct IH as (qs & H1 & H2 & H3 & H4).
        apply thermostat_entry_inv in Hp.
        destruct Hp as (q & t9 & Hq & Ht & -> & Hi).
        exists (q :: qs).
        split; [constructor; assumption|].
        split; [constructor; [destruct t9; auto|assumption]|].
        split; constructor; try assumption.
        + rewrite Ht. destruct t9; simpl; [tauto|].
          rewrite Hi. split; intros; discriminate.
        + destruct t9; simpl; auto. }
    destruct Hqs as (qs & H1 & H2 & H3 & H4).
    exists qs. split; [|auto].
    unfold onPairListDevices. simpl.
    apply (walk_locations (fun d l => get_device d l)); [reflexivity|]. auto.
Qed.

End DriverProperties.

(** ** The device: commands that go straight to the API *)

Section CommandProperties.

Variable API_KEY : string.
Variable api_get : string -> res value.
Variable api_post : string -> write_command -> res value.
Variable api_post_fan : string -> value -> res value.
Variable ToString_coerce : value -> res string.

Local Abbreviation fan_command :=
  (onFanCapability API_KEY api_post_fan ToString_coerce).
Local Abbreviation resume_command := (setResumeSchedule API_KEY api_get api_post).

(** X29: [onFanCapability] and [setResumeSchedule].  Without a string
    [locationId] in the store both throw [invalid_location_id_in_store]
    and no request is made.  With one, the fan command posts
    [{ mode: value }] to the path the fan is read from, and changes
    nothing on the device; unlike the reads it does not check the device
    id, so an id that is not a string is interpolated into the path where
    [getFan] refuses it.  The resume command is the client's
    [resumeSchedule] for the stored location and the device id, after one
    log line. *)
Theorem commands_use_stored_location (v : value) (d : device) :
  (is_string (default JNull (store d !! "locationId")) = false ->
     fan_command v d = (Throw (Error "invalid_location_id_in_store"), d) /\
     fst (resume_command d) = Throw (Error "invalid_location_id_in_store") /\
     journal_since d (snd (resume_command d)) = [DLog "resumeSchedule()"]) /\
  (forall loc, store d !! "locationId" = Some (JStr loc) ->
     snd (fan_command v d) = d /\
     (forall id, data_id d = JStr id ->
        fst (fan_command v d)
          = api_post_fan (fan_path API_KEY id loc) (JObj [("mode", v)]) /\
        getFan API_KEY api_get (JStr loc) (JStr id)
          = api_get (fan_path API_KEY id loc)) /\
     (forall id, is_string (data_id d) = false ->
        ToString ToString_coerce (data_id d) = Ok id ->
        fst (fan_command v d)
          = api_post_fan (fan_path API_KEY id loc) (JObj [("mode", v)]) /\
        getFan API_KEY api_get (JStr loc) (data_id d)
          = Throw (Error "invalid_device_id")) /\
     fst (resume_command d)
       = resumeSchedule API_KEY api_get api_post (JStr loc) (data_id d) /\
     journal_since d (snd (resume_command d)) = [DLog "resumeSchedule()"]).
Proof.
  split.
  - intros Hs.
    unfold onFanCapability, setResumeSchedule, getLocationId, bind, getStoreValue,
      emit, throw, lift. simpl. rewrite Hs. simpl.
    repeat split. apply journal_since_app with (evs := [DLog "resumeSchedule()"]).
    reflexivity.
  - intros loc Hl.
    unfold onFanCapability, setResumeSchedule, getLocationId, bind, getStoreValue,
      emit, throw, lift, ret. simpl. rewrite Hl. simpl.
    split; [reflexivity|].
    split; [intros id Hid; rewrite Hid; split; reflexivity|].
    split.
    { intros id Hns Hid. unfold client_setFanMode. rewrite Hid. simpl.
      unfold getFan. rewrite Hns. split; reflexivity. }
    split; [reflexivity|].
    apply journal_since_app with (evs := [DLog "resumeSchedule()"]). reflexivity.
Qed.

End CommandProperties.

(** ** The further properties on the sample data *)

Lemma refresh_rejected_witness :
  fst (onRefreshToken sample_token sample_isRefreshable sample_refresh_token
         "id" "secret" (fun s => s) "https://api.honeywell.com/oauth2/token"
         (fun _ => Ok response_401) (fun _ => Ok "refresh-2") sample_client)
  = Throw (Error "Invalid Response (401)").
Proof.
  pose proof (refresh_rejected sample_token sample_isRefreshable
                sample_refresh_token "id" "secret" (fun s => s)
                "https://api.honeywell.com/oauth2/token"
                (fun _ => Ok response_401) (fun _ => Ok "refresh-2")
                sample_client "refresh-1" response_401) as H.
  rewrite H; reflexivity.
Defined.

Lemma rate_limit_needs_failed_json_witness :
  In (CEmit "rateLimited")
     (events_since sample_client
        (snd (onHandleResponse sample_token sample_parse sample_classify
                response_500_quota sample_client))) /\
  ~ In (CEmit "rateLimited")
       (events_since sample_client
          (snd (onHandleResponse sample_token sample_parse sample_classify
                  response_401 sample_client))).
Proof.
  split.
  - destruct (rate_limit_needs_failed_json sample_token sample_parse
                sample_classify response_500_quota sample_client) as [Hiff _].
    apply Hiff. split; [discriminate|]. split; [reflexivity|].
    exists (fault_body (JStr "Rate limit quota violation. Quota limit exceeded.")).
    split; vm_compute; reflexivity.
  - destruct (rate_limit_needs_failed_json sample_token sample_parse
                sample_classify response_401 sample_client) as [_ Hnever].
    apply Hnever. reflexivity.
Defined.

Lemma code_exchange_witness :
  fst (onGetTokenByCode sample_token "id" "secret" (fun s => s)
         "https://api.honeywell.com/oauth2/token"
         (fun _ => Ok response_200_token) (fun _ => Ok (JStr "refresh-9"))
         as_string "code-1" sample_client)
  = Ok "refresh-9".
Proof.
  destruct (code_exchange sample_token sample_refresh_token "id" "secret"
              (fun s => s) "https://api.honeywell.com/oauth2/token"
              (fun _ => Ok response_200_token) (fun _ => Ok (JStr "refresh-9"))
              as_string "code-1" sample_client) as (_ & _ & _ & _ & Hwrap).
  apply (Hwrap response_200_token (JStr "refresh-9")); reflexivity.
Defined.

Lemma ids_checked_first_witness :
  setThermostat "key" snapshot_api echo_post args_without_deviceId
    = Throw (Error "invalid_device_id") /\
  setThermostat "key" snapshot_api echo_post args_without_locationId
    = Throw (Error "invalid_location_id").
Proof.
  split.
  - destruct (ids_checked_first "key" snapshot_api echo_post
                args_without_deviceId) as [Hdevice _].
    destruct Hdevice as (_ & _ & Hset & _); [reflexivity|]. exact Hset.
  - destruct (ids_checked_first "key" snapshot_api echo_post
                args_without_locationId) as [_ Hlocation].
    destruct Hlocation as (_ & _ & Hset & _); [reflexivity|reflexivity|].
    exact Hset.
Defined.

Lemma resume_schedule_command_witness :
  resumeSchedule "key" snapshot_api echo_post
    (JStr "199754") (JStr "LCC-00D02DB6B4A8")
  = Ok (JStr "NoHold").
Proof.
  rewrite (resume_schedule_command "key" snapshot_api echo_post
             (JStr "199754") (JStr "LCC-00D02DB6B4A8") snapshot_with_period);
    reflexivity.
Defined.


Lemma falsy_argument_falls_back_witness :
  exists json,
    thermostat_json heat_21_hold_until snapshot_with_period = Ok json /\
    json_mode json = JStr "Heat" /\
    json_coolSetpoint json = JNum 25%float.
Proof.
  destruct (falsy_argument_falls_back heat_21_hold_until snapshot_with_period)
    as (json & Hrun & Hmode & _ & Hcool); [reflexivity|reflexivity|].
  exists json. split; [exact Hrun|].
  split; [apply Hmode|apply Hcool]; reflexivity.
Defined.

Lemma null_changeableValues_throws_witness :
  _sendThermostatData "key" null_snapshot_api echo_post heat_21_hold_until
    = Throw TypeError.
Proof.
  apply (null_changeableValues_throws "key" null_snapshot_api echo_post
           heat_21_hold_until snapshot_null_changeableValues); reflexivity.
Defined.


Lemma write_request_setpoints_witness :
  exists args d',
    setThermostat_args no_coercion set_target_21 sample_fan_device = (Ok args, d') /\
    arg_thermostatSetpointStatus args = JStr "HoldUntil" /\
    arg_coolSetpoint args = JNum 20%float.
Proof.
  destruct (write_request_setpoints no_coercion set_target_21 sample_fan_device)
    as (args & d' & Hrun & Hhold & _ & _ & Hcool & _); [reflexivity|reflexivity|].
  exists args, d'. split; [exact Hrun|].
  split; [apply Hhold; left; reflexivity|].
  rewrite Hcool; [reflexivity|compute_done].
Defined.

Lemma write_request_mode_witness :
  exists args d',
    setThermostat_args no_coercion set_mode_heat sample_fan_device = (Ok args, d') /\
    arg_mode args = JStr "Heat".
Proof.
  destruct (write_request_mode no_coercion set_mode_heat sample_fan_device)
    as (args & d' & Hrun & _ & Hmode & _); [reflexivity|reflexivity|].
  exists args, d'. split; [exact Hrun|].
  apply (Hmode "heat"); [left; compute_done|compute_done|reflexivity].
Defined.

Lemma mode_trigger_precedes_write_witness :
  journal_since sample_unlocated_device
    (snd (onMultipleCapabilities no_coercion "key" snapshot_api echo_post
            set_mode_heat sample_unlocated_device))
    = [DTrigger "thermostat_mode_changed" (JStr "heat")] /\
  fst (onMultipleCapabilities no_coercion "key" snapshot_api echo_post
         set_mode_heat sample_unlocated_device)
    = Throw (Error "invalid_location_id_in_store").
Proof.
  destruct (mode_trigger_precedes_write no_coercion "key" snapshot_api echo_post
              set_mode_heat sample_unlocated_device) as (Hjournal & Hthrow);
    [reflexivity|compute_done|reflexivity|].
  split; [exact Hjournal|]. apply Hthrow. reflexivity.
Defined.

Lemma thermostat_mode_step_witness :
  journal_since sample_fan_device
    (snd (_parseThermostatMode no_unicode payload_fahrenheit sample_fan_device))
    = [DTrigger "thermostat_mode_changed" (JStr "heat")] /\
  journal_since
    (snd (_parseThermostatMode no_unicode payload_fahrenheit sample_fan_device))
    (snd (_parseThermostatMode no_unicode payload_fahrenheit
            (snd (_parseThermostatMode no_unicode payload_fahrenheit sample_fan_device))))
    = [].
Proof.
  destruct (thermostat_mode_step no_unicode payload_fahrenheit sample_fan_device)
    as (Hstring & _); [reflexivity|].
  destruct (Hstring "Heat") as (_ & _ & Hfirst & Hsecond & _); [reflexivity|].
  split; [exact Hfirst|exact Hsecond].
Defined.

Lemma setpoints_all_or_nothing_witness :
  exists msg,
    _parseTargetTemperature payload_without_coolSetpoint sample_device
      = (Ok tt, with_event (DError msg) sample_device).
Proof.
  apply setpoints_all_or_nothing; [reflexivity|]. right. right. reflexivity.
Defined.

Lemma rate_limit_then_poll_witness :
  available (snd (onRateLimited sample_device)) = false /\
  available (snd (_parseAlive payload_fahrenheit (snd (onRateLimited sample_device))))
    = true.
Proof.
  destruct (rate_limit_then_poll payload_fahrenheit sample_device)
    as (Hlimited & _ & Halive & _); [reflexivity|].
  split; [exact Hlimited|exact Halive].
Defined.

Lemma location_migration_witness :
  getLocationId
    (snd (_migrateLocationIdFromSettingsToStore no_string_coercion
            sample_legacy_device))
  = (Ok (JStr "199754"),
     snd (_migrateLocationIdFromSettingsToStore no_string_coercion
            sample_legacy_device)).
Proof.
  destruct (location_migration no_string_coercion sample_legacy_device)
    as (Hmoved & _ & _).
  destruct (Hmoved (JObj [("id", JStr "199754")]) "199754")
    as (_ & Hlocation & _); [reflexivity|reflexivity|reflexivity|].
  exact Hlocation.
Defined.

Lemma token_migration_witness :
  fst (onOAuth2Migrate "session-1" "default" sample_legacy_device)
    = Ok {| sessionId := "session-1"; configId := "default";
            access_token := JStr "access-1";
            refresh_token_value := JStr "refresh-1" |} /\
  fst (onOAuth2Migrate "session-1" "default" sample_device)
    = Throw (Error "Missing access token in settings").
Proof.
  split.
  - destruct (token_migration "session-1" "default" sample_legacy_device)
      as (_ & _ & Htokens & _).
    apply Htokens; reflexivity.
  - destruct (token_migration "session-1" "default" sample_device)
      as (Hmissing & _).
    apply Hmissing. reflexivity.
Defined.

Lemma poll_writes_own_capabilities_witness :
  capabilityValues
    (snd (_fetchDeviceData no_coercion "key" snapshot_api no_unicode sample_device))
    !! "fan_mode"
  = capabilityValues sample_device !! "fan_mode".
Proof.
  destruct (poll_writes_own_capabilities no_coercion "key" snapshot_api
              no_unicode sample_device) as (_ & _ & _ & Hvalues).
  apply Hvalues; [discriminate|discriminate|compute_done].
Defined.

Lemma paired_capabilities_witness :
  exists p,
    _getDevice no_coercion no_string_coercion sample_api_device sample_location
      = Ok p /\
    List.NoDup (pd_capabilities p) /\
    ~ (In "custom_thermostat_mode" (pd_capabilities p)
       /\ In "custom_ac_mode" (pd_capabilities p)).
Proof.
  destruct (_getDevice no_coercion no_string_coercion sample_api_device
              sample_location) as [p|] eqn:Hp.
  - exists p. split; [reflexivity|].
    destruct (paired_capabilities no_coercion no_string_coercion
                sample_api_device sample_location p Hp)
      as (_ & Hnodup & _ & Hone & _).
    split; [exact Hnodup|exact Hone].
  - vm_compute in Hp. discriminate Hp.
Defined.

Lemma pairing_lists_every_device_witness :
  onPairListDevices no_coercion no_string_coercion (Ok JNull)
    = Throw (Error "Expected locations of type Array") /\
  exists ps,
    onPairListDevices no_coercion no_string_coercion (Ok (JArr [sample_location]))
      = Ok ps /\
    List.length ps = List.length (listed [sample_location]).
Proof.
  destruct (pairing_lists_every_device no_coercion no_string_coercion)
    as (_ & Hrefused & Hlisted).
  split; [apply Hrefused; reflexivity|].
  destruct (onPairListDevices no_coercion no_string_coercion
              (Ok (JArr [sample_location]))) as [ps|] eqn:Hp.
  - exists ps. split; [reflexivity|].
    apply Hlisted in Hp. destruct Hp as [_ Hall].
    exact (List.Forall2_length Hall).
  - vm_compute in Hp. discriminate Hp.
Defined.

Lemma thermostat_pairing_icon_witness :
  thermostat_onPairListDevices no_coercion no_string_coercion (Ok JNull)
    = Throw (Error "Expected locations of type Array") /\
  exists ps,
    thermostat_onPairListDevices no_coercion no_string_coercion
      (Ok (JArr [sample_location])) = Ok ps /\
    Forall (fun p => pd_icon p = None \/ pd_icon p = Some "/t9_icon.svg") ps.
Proof.
  destruct (thermostat_pairing_icon no_coercion no_string_coercion)
    as (Hrefused & Hicons).
  split; [apply Hrefused; reflexivity|].
  destruct (thermostat_onPairListDevices no_coercion no_string_coercion
              (Ok (JArr [sample_location]))) as [ps|] eqn:Hp.
  - exists ps. split; [reflexivity|].
    destruct (Hicons [sample_location] ps Hp) as (qs & _ & _ & _ & Hall).
    exact Hall.
  - vm_compute in Hp. discriminate Hp.
Defined.

Lemma commands_use_stored_location_witness :
  fst (onFanCapability "key" echo_post_fan no_string_coercion (JStr "Auto")
         sample_fan_device)
    = Ok (JObj [("mode", JStr "Auto")]) /\
  onFanCapability "key" echo_post_fan no_string_coercion (JStr "Auto")
    sample_unlocated_device
    = (Throw (Error "invalid_location_id_in_store"), sample_unlocated_device).
Proof.
  split.
  - destruct (commands_use_stored_location "key" snapshot_api echo_post
                echo_post_fan no_string_coercion (JStr "Auto") sample_fan_device)
      as (_ & Hstored).
    destruct (Hstored "199754") as (_ & Hid & _); [reflexivity|].
    destruct (Hid "LCC-00D02DB6B4A8") as (Hpost & _); [reflexivity|].
    rewrite Hpost. reflexivity.
  - destruct (commands_use_stored_location "key" snapshot_api echo_post
                echo_post_fan no_string_coercion (JStr "Auto")
                sample_unlocated_device) as (Hmissing & _).
    destruct Hmissing as (Hthrow & _); [reflexivity|]. exact Hthrow.
Defined.

Lemma setpoint_write_conversion_witness :
  fst (onMultipleCapabilities no_coercion "key" snapshot_api echo_heat
         set_target_21 sample_device_fahrenheit)
    = Ok (JNum (HoneywellUtils.ctof 21%float)).
Proof.
  destruct (setpoint_write_conversion no_coercion "key" snapshot_api echo_heat
              set_target_21 snapshot_with_period sample_device_fahrenheit)
    as (json & Hrun & Hheat & _); [reflexivity|reflexivity|reflexivity|].
  rewrite Hrun. unfold echo_heat. rewrite (Hheat 21%float); reflexivity.
Defined.

(** The claim C10 fails on two writes.  On the sample device, set to
    Celsius, a target of zero degrees is not passed on: the command
    carries the 20 degrees of the device data just fetched.  On the
    thermostat without a cooling setpoint a supplied cool setpoint of 26
    is not placed in the command, which carries the stored target of 20
    as cool setpoint. *)
Lemma setpoint_write_counterexample :
  units_setting sample_device = JStr "Celsius" /\
  fst (onMultipleCapabilities no_coercion "key" snapshot_api echo_heat
         set_target_0 sample_device) = Ok (JNum 20%float) /\
  fst (onMultipleCapabilities no_coercion "key" snapshot_api echo_cool
         set_cool_26 sample_fan_device) = Ok (JNum 20%float).
Proof. vm_compute. repeat split; reflexivity. Qed.
